(** * blindscan: the scan protocol client of [blindscan.c]

    A shallow embedding of the C program: the device-file transfer helpers
    [bs_read] and [bs_write], the scan session [blindscan] (request, poll
    loop, candidate loop, result formatting) and the slot resolver
    [nim_sockets], followed by the properties of the specification that
    were checked against them.

    Conventions.
    - A C [int] or [uint32_t] is a [Z]; the wrap-around of 32-bit
      arithmetic is written out with [u32] and [s32].
    - A C string is a [string]; [c_str] cuts a buffer at its first NUL.
    - The outside world (device files, the signal flag, the topology file)
      is a script that the functions consume.
    - An automatic variable that has not been assigned yet is [None]; the
      program reading it, or storing through a pointer that does not point
      into its array, is the outcome [Undefined] (resp. [Indeterminate]). *)

From Stdlib Require Import ZArith Lia String Ascii DecimalString DecimalPos.
From stdpp Require Import base list strings.

Open Scope Z_scope.

(** ** 32-bit machine integers *)

Definition u32 (z : Z) : Z := z mod 4294967296.

Definition s32 (z : Z) : Z := (z + 2147483648) mod 4294967296 - 2147483648.

(** ** The C library functions the program calls *)

Module Libc.

(** [isspace] in the C locale: space, \t, \n, \v, \f, \r. *)
Definition isspace (c : ascii) : bool :=
  let n := N_of_ascii c in
  ((n =? 32) || ((9 <=? n) && (n <=? 13)))%N.

Definition isdigit (c : ascii) : bool :=
  let n := N_of_ascii c in ((48 <=? n) && (n <=? 57))%N.

Definition digit_val (c : ascii) : Z := Z.of_N (N_of_ascii c) - 48.

(** The part of a buffer a C string function sees: up to the first NUL. *)
Fixpoint c_str (buf : string) : string :=
  match buf with
  | EmptyString => EmptyString
  | String c rest =>
      if (N_of_ascii c =? 0)%N then EmptyString else String c (c_str rest)
  end.

Definition strlen (s : string) : Z := Z.of_nat (String.length s).

(** [strstr(line, pat) == line]: the pattern occurs at offset 0. *)
Definition starts_with (pat line : string) : bool := String.prefix pat line.

Fixpoint skip_space (s : string) : string :=
  match s with
  | String c rest => if isspace c then skip_space rest else s
  | EmptyString => EmptyString
  end.

(** The longest run of decimal digits at the head of [s], accumulated
    onto [acc]. *)
Fixpoint scan_digits (acc : Z) (s : string) : Z * string :=
  match s with
  | String c rest =>
      if isdigit c then scan_digits (10 * acc + digit_val c) rest
      else (acc, s)
  | EmptyString => (acc, EmptyString)
  end.

(** The subject sequence of [%d] and [%u]: white space is skipped, then an
    optional sign and at least one decimal digit are read.  [None] is a
    matching failure.  The value is the mathematical one. *)
Definition scan_int (s : string) : option (Z * string) :=
  let s1 := skip_space s in
  let '(neg, s2) :=
    match s1 with
    | String "-" rest => (true, rest)
    | String "+" rest => (false, rest)
    | _ => (false, s1)
    end in
  match s2 with
  | String c rest =>
      if isdigit c then
        let '(v, s3) := scan_digits (digit_val c) rest in
        Some (if neg then - v else v, s3)
      else None
  | EmptyString => None
  end.

(** The directives of the format strings used by the program. *)
Inductive directive : Type :=
| DSpace                (* white space: skips any white space of the input *)
| DChar (c : ascii)     (* an ordinary character: must be the next one *)
| DInt                  (* %d *)
| DUInt.                (* %u *)

Fixpoint parse_format (fmt : string) : list directive :=
  match fmt with
  | String "%" (String "d" rest) => DInt :: parse_format rest
  | String "%" (String "u" rest) => DUInt :: parse_format rest
  | String c rest =>
      (if isspace c then DSpace else DChar c) :: parse_format rest
  | EmptyString => []
  end.

(** What [%d] stores for a numeral of value [v]: the C library converts
    with [strtol], which saturates at [LONG_MIN] and [LONG_MAX], and then
    cuts the [long] to the [int] that receives it. *)
Definition store_d (long_max v : Z) : Z :=
  s32 (Z.max (- long_max - 1) (Z.min long_max v)).

(** What [%u] stores: the conversion is [strtoul], which saturates at
    [ULONG_MAX] when the magnitude does not fit and otherwise negates a
    signed numeral within [unsigned long]; the result is cut to the
    [unsigned int] that receives it. *)
Definition store_u (long_max v : Z) : Z :=
  let ulong_max := 2 * long_max + 1 in
  if ulong_max <? Z.abs v then u32 ulong_max
  else u32 (v mod (ulong_max + 1)).

(** The values [sscanf] assigns, in order; it stops at the first directive
    that fails.  The C return value is the length of this list (or EOF,
    which the program does not tell apart from a count below the expected
    one).  [long_max] is [LONG_MAX] of the platform. *)
Fixpoint scan_directives (long_max : Z) (ds : list directive) (inp : string)
  : list Z :=
  match ds with
  | [] => []
  | DSpace :: ds' => scan_directives long_max ds' (skip_space inp)
  | DChar c :: ds' =>
      match inp with
      | String a rest =>
          if Ascii.eqb a c then scan_directives long_max ds' rest else []
      | EmptyString => []
      end
  | DInt :: ds' =>
      match scan_int inp with
      | Some (v, rest) =>
          store_d long_max v :: scan_directives long_max ds' rest
      | None => []
      end
  | DUInt :: ds' =>
      match scan_int inp with
      | Some (v, rest) =>
          store_u long_max v :: scan_directives long_max ds' rest
      | None => []
      end
  end.

Definition sscanf (long_max : Z) (inp fmt : string) : list Z :=
  scan_directives long_max (parse_format fmt) inp.

(** [sprintf] with [%d] resp. [%u]. *)
Definition fmt_d (z : Z) : string := NilZero.string_of_int (Z.to_int z).

Definition fmt_u (z : Z) : string := fmt_d (u32 z).

End Libc.

Import Libc.

(** ** DeviceFile I/O: [bs_read] and [bs_write] *)

(** What one [read(2)] on the device does.  A [RdData] call delivers the
    first [todo] bytes of its chunk; an empty chunk is end of file. *)
Inductive rd_ret : Type :=
| RdEintr                  (* rc < 0, errno == EINTR *)
| RdError                  (* rc < 0, any other errno *)
| RdData (chunk : string).

(** What one [write(2)] on the device does: it accepts at most [n] of the
    bytes offered. *)
Inductive wr_ret : Type :=
| WrEintr
| WrError
| WrAccept (n : nat).

(** A device file as one call of [bs_read] / [bs_write] meets it: whether
    [open] succeeds, and the results of the successive system calls.  Once
    the script is used up the device transfers nothing (the call returns
    0). *)
Record rd_file : Type := { rd_opens : bool; rd_calls : list rd_ret }.
Record wr_file : Type := { wr_opens : bool; wr_calls : list wr_ret }.

Definition take_bytes (n : Z) (s : string) : string :=
  String.substring 0 (Z.to_nat n) s.

Definition drop_bytes (n : Z) (s : string) : string :=
  String.substring (Z.to_nat n) (String.length s - Z.to_nat n) s.

(** The [while (todo)] loop of [bs_read] together with its inner
    [do ... while (rc < 0 && errno == EINTR)]: an interrupted call is
    issued again with the same arguments.  The result is the final
    [(todo, rc)] and the bytes stored into [buf]. *)
Fixpoint bs_read_loop (calls : list rd_ret) (todo rc : Z) (buf : string)
  : Z * Z * string :=
  if todo =? 0 then (todo, rc, buf)
  else
    match calls with
    | [] => (todo, 0, buf)
    | RdEintr :: calls' => bs_read_loop calls' todo (-1) buf
    | RdError :: _ => (todo, -1, buf)
    | RdData chunk :: calls' =>
        let got := take_bytes todo chunk in
        let rc' := strlen got in
        if rc' <=? 0 then (todo, rc', buf)
        else bs_read_loop calls' (todo - rc') rc' (buf ++ got)%string
    end.

(** [bs_read(filename, buf, count)]: the return value and the bytes put
    into [buf]. *)
Definition bs_read (f : rd_file) (count : Z) : Z * string :=
  if negb (rd_opens f) then (-1, EmptyString)
  else
    let '(todo, rc, buf) := bs_read_loop (rd_calls f) count 0 EmptyString in
    (if count - todo =? 0 then rc else count - todo, buf).

(** The loop of [bs_write]; [out] collects the bytes the device took. *)
Fixpoint bs_write_loop (calls : list wr_ret) (buf : string) (todo rc : Z)
  (out : string) : Z * Z * string :=
  if todo =? 0 then (todo, rc, out)
  else
    match calls with
    | [] => (todo, 0, out)
    | WrEintr :: calls' => bs_write_loop calls' buf todo (-1) out
    | WrError :: _ => (todo, -1, out)
    | WrAccept n :: calls' =>
        let put := take_bytes (Z.min (Z.of_nat n) todo) buf in
        let rc' := strlen put in
        if rc' <=? 0 then (todo, rc', out)
        else
          bs_write_loop calls' (drop_bytes rc' buf) (todo - rc') rc'
            (out ++ put)%string
    end.

(** [bs_write(filename, buf, count)]: the return value and the bytes
    written to the device. *)
Definition bs_write (f : wr_file) (buf : string) (count : Z) : Z * string :=
  if negb (wr_opens f) then (-1, EmptyString)
  else
    let '(todo, rc, out) :=
      bs_write_loop (wr_calls f) buf count 0 EmptyString in
    (if count - todo =? 0 then rc else count - todo, out).

(** ** Constants of the system headers

    [blindscan.c] takes [BUFSIZ] from <stdio.h> and the enumeration
    constants from <linux/dvb/frontend.h>; the C library it links against
    converts numerals with the [long] of <limits.h>.  None of these headers
    is part of the repository, so the model is parameterised over their
    values.  ISO C guarantees that [long] holds every [int]. *)

Class headers : Type := {
  BUFSIZ : Z;
  LONG_MAX : Z;
  LONG_MAX_wide : 2147483647 <= LONG_MAX;
  SYS_DVBS : Z;
  INVERSION_OFF : Z;
  INVERSION_ON : Z;
  PILOT_ON : Z;
  PILOT_OFF : Z;
  FEC_1_2 : Z;
  FEC_2_3 : Z;
  FEC_3_4 : Z;
  FEC_4_5 : Z;
  FEC_5_6 : Z;
  FEC_6_7 : Z;
  FEC_7_8 : Z;
  FEC_8_9 : Z;
  FEC_3_5 : Z;
  FEC_9_10 : Z;
  FEC_2_5 : Z;
  PSK_8 : Z;
  APSK_16 : Z;
  APSK_32 : Z;
  ROLLOFF_20 : Z;
  ROLLOFF_25 : Z
}.

(** The values of glibc and of the Linux DVB API, used where a concrete
    run is evaluated. *)
Definition linux_headers : headers := {|
  BUFSIZ := 8192;
  LONG_MAX := 9223372036854775807;
  LONG_MAX_wide := ltac:(vm_compute; discriminate);
  SYS_DVBS := 5;
  INVERSION_OFF := 0;
  INVERSION_ON := 1;
  PILOT_ON := 0;
  PILOT_OFF := 1;
  FEC_1_2 := 1;
  FEC_2_3 := 2;
  FEC_3_4 := 3;
  FEC_4_5 := 4;
  FEC_5_6 := 5;
  FEC_6_7 := 6;
  FEC_7_8 := 7;
  FEC_8_9 := 8;
  FEC_3_5 := 10;
  FEC_9_10 := 11;
  FEC_2_5 := 12;
  PSK_8 := 9;
  APSK_16 := 10;
  APSK_32 := 11;
  ROLLOFF_20 := 1;
  ROLLOFF_25 := 2
|}.

(** ** Run configuration: the file-scope variables set by [handle_args] *)

Record config : Type := {
  start_frequency_mhz : Z;
  stop_frequency_mhz : Z;
  symbolrate_min_mhz : Z;
  symbolrate_max_mhz : Z;
  vertical : bool;
  cband : bool;
  high : bool;
  slot : Z;
  i2c : Z
}.

(** The initial values of the file-scope variables. *)
Definition default_config : config := {|
  start_frequency_mhz := 950;
  stop_frequency_mhz := 1950;
  symbolrate_min_mhz := 2;
  symbolrate_max_mhz := 45;
  vertical := false;
  cband := false;
  high := false;
  slot := 0;
  i2c := 0
|}.

(** ** One record of the info file: the 14 variables [sscanf] fills *)

Record candidate : Type := {
  index : Z;
  frequency : Z;
  symbol_rate : Z;
  delivery_system : Z;
  inversion : Z;
  pilot : Z;
  fec_inner : Z;
  modulation : Z;
  rolloff : Z;
  pls_mode : Z;
  is_id : Z;
  pls_code : Z;
  t2mi_plp_id : Z;
  t2mi_pid : Z
}.

Definition candidate_format : string := "%d%u%u%d%d%d%d%d%d%d%d%d%d%d".

(** The record when [sscanf] returned 14, nothing otherwise. *)
Definition candidate_of (vals : list Z) : option candidate :=
  match vals with
  | [a; b; c; d; e; f; g; h; i; j; k; l; m; n] =>
      Some {| index := a; frequency := b; symbol_rate := c;
              delivery_system := d; inversion := e; pilot := f;
              fec_inner := g; modulation := h; rolloff := i;
              pls_mode := j; is_id := k; pls_code := l;
              t2mi_plp_id := m; t2mi_pid := n |}
  | _ => None
  end.

(** The two checks of the candidate loop on a response: [sscanf] must
    return 14, and the index of the record must be the one asked for. *)
Definition parse_candidate {hdr : headers} (resp : string) (i : Z)
  : option candidate :=
  match candidate_of (sscanf LONG_MAX resp candidate_format) with
  | None => None
  | Some c => if negb (i =? index c) then None else Some c
  end.

(** ** Result formatting *)

(** [((x + 500) / 1000) * 1000] on a [uint32_t]. *)
Definition round_to_1000 (x : Z) : Z := u32 (u32 (x + 500) / 1000 * 1000).

(** The band translation applied to the rounded frequency. *)
Definition band_convert (cband high : bool) (rounded : Z) : Z :=
  if cband then u32 (5150000 - rounded)
  else if high then u32 (rounded + 10600000)
  else u32 (rounded + 9750000).

(** [switch (code) { case k: s = l; break; ... default: s = d; }] with the
    cases in the order of the source. *)
Fixpoint switch (code : Z) (cases : list (Z * string)) (default : string)
  : string :=
  match cases with
  | [] => default
  | (k, l) :: rest => if code =? k then l else switch code rest default
  end.

Definition NL : string := String "010" EmptyString.
Definition TAB : string := String "009" EmptyString.

Section Labels.
Context {hdr : headers}.

Definition delivery_system_label (code : Z) : string :=
  if code =? SYS_DVBS then "DVB-S" else "DVB-S2".

Definition inversion_cases : list (Z * string) :=
  [(INVERSION_OFF, "INVERSION_OFF"); (INVERSION_ON, "INVERSION_ON")].

Definition inversion_label (code : Z) : string :=
  switch code inversion_cases "INVERSION_AUTO".

Definition pilot_cases : list (Z * string) :=
  [(PILOT_ON, "PILOT_ON"); (PILOT_OFF, "PILOT_OFF")].

Definition pilot_label (code : Z) : string :=
  switch code pilot_cases "PILOT_AUTO".

Definition fec_cases : list (Z * string) :=
  [(FEC_1_2, "FEC_1_2"); (FEC_2_3, "FEC_2_3"); (FEC_3_4, "FEC_3_4");
   (FEC_4_5, "FEC_4_5"); (FEC_5_6, "FEC_5_6"); (FEC_6_7, "FEC_6_7");
   (FEC_7_8, "FEC_7_8"); (FEC_8_9, "FEC_8_9"); (FEC_3_5, "FEC_3_5");
   (FEC_9_10, "FEC_9_10"); (FEC_2_5, "FEC_2_5")].

Definition fec_label (code : Z) : string :=
  switch code fec_cases "FEC_AUTO".

Definition modulation_cases : list (Z * string) :=
  [(PSK_8, "8PSK"); (APSK_16, "16APSK"); (APSK_32, "32APSK")].

Definition modulation_label (code : Z) : string :=
  switch code modulation_cases "QPSK".

Definition rolloff_cases : list (Z * string) :=
  [(ROLLOFF_20, "ROLLOFF_20"); (ROLLOFF_25, "ROLLOFF_25")].

Definition rolloff_label (code : Z) : string :=
  switch code rolloff_cases "ROLLOFF_35".

(** The line built in [buf] for a record that passed both checks. *)
Definition format_line (cfg : config) (c : candidate) : string :=
  ("OK"
   ++ " " ++ (if vertical cfg then "VERTICAL" else "HORIZONTAL")
   ++ " " ++ fmt_u (band_convert (cband cfg) (high cfg)
                      (round_to_1000 (frequency c)))
   ++ " " ++ fmt_u (round_to_1000 (symbol_rate c))
   ++ " " ++ delivery_system_label (delivery_system c)
   ++ " " ++ inversion_label (inversion c)
   ++ " " ++ pilot_label (pilot c)
   ++ " " ++ fec_label (fec_inner c)
   ++ " " ++ modulation_label (modulation c)
   ++ " " ++ rolloff_label (rolloff c)
   ++ " " ++ fmt_d (pls_mode c)
   ++ " " ++ fmt_d (is_id c)
   ++ " " ++ fmt_d (pls_code c)
   ++ (if Z.eqb (t2mi_plp_id c) (-1) then ""
       else " " ++ fmt_d (t2mi_plp_id c) ++ " " ++ fmt_d (t2mi_pid c))
   ++ NL)%string.

End Labels.

(** ** The scan session: [blindscan] *)

Inductive devfile : Type := Ctrl | Info.

(** What the session does, in order.  [EvSigint b] is one comparison of
    [signal_status] with [SIGINT] and its outcome; [EvWrite] and [EvRead]
    are calls of [bs_write] and [bs_read] (made, whatever they return);
    [EvEmit] is a line printed on the standard output. *)
Inductive event : Type :=
| EvSigint (seen : bool)
| EvWrite (f : devfile) (msg : string)
| EvRead (f : devfile)
| EvSleep
| EvEmit (line : string).

(** What the world presents at one iteration of the poll loop, and at one
    iteration of the candidate loop. *)
Record tick : Type := { tick_sigint : bool; tick_ctrl : rd_file }.

Record visit : Type := {
  visit_sigint : bool;
  visit_select : wr_file;
  visit_info : rd_file
}.

Record world : Type := {
  ctrl_readable : bool;       (* access(bs_ctrl, R_OK) == 0 *)
  info_readable : bool;       (* access(bs_info, R_OK) == 0 *)
  submit : wr_file;           (* the control file at the request write *)
  ticks : list tick;          (* the poll iterations, in order *)
  visits : Z -> visit         (* the candidate loop at index i *)
}.

(** The three variables the status line is scanned into. *)
Record vars : Type := {
  status : option Z;
  num_info : option Z;
  progress : option Z
}.

Definition uninitialised : vars :=
  {| status := None; num_info := None; progress := None |}.

(** [sscanf(buf, "%d%d%d", &status, &num_info, &progress)]: the values
    converted are assigned, the other variables keep what they hold. *)
Definition scan_status {hdr : headers} (line : string) (v : vars) : vars :=
  match sscanf LONG_MAX line "%d%d%d" with
  | [] => v
  | [a] => {| status := Some a; num_info := num_info v;
              progress := progress v |}
  | [a; b] => {| status := Some a; num_info := Some b;
                 progress := progress v |}
  | a :: b :: c :: _ => {| status := Some a; num_info := Some b;
                           progress := Some c |}
  end.

Definition deactivate_msg : string := "0 0 0 0 0".

Definition request_msg (cfg : config) : string :=
  ("1 " ++ fmt_u (start_frequency_mhz cfg)
   ++ " " ++ fmt_u (stop_frequency_mhz cfg)
   ++ " " ++ fmt_u (symbolrate_min_mhz cfg)
   ++ " " ++ fmt_u (symbolrate_max_mhz cfg))%string.

(** How one iteration of the poll loop ends. *)
Inductive step : Type :=
| StepCancel                 (* SIGINT seen: deactivate, return *)
| StepReadFailed             (* bs_read < 0: return *)
| StepUndefined              (* [status] read before any assignment *)
| StepDone (v : vars)        (* !status: break *)
| StepAgain (v : vars).      (* usleep, next iteration *)

(** How the session ends. *)
Inductive exit : Type :=
| Unavailable       (* a file is not accessible, or a transfer failed *)
| Cancelled         (* SIGINT seen at the top of a poll iteration *)
| Interrupted       (* SIGINT seen in the condition of the candidate loop *)
| Completed         (* the candidate loop ran to [num_info] *)
| StillPolling      (* the ticks ran out while the driver was active *)
| Indeterminate.    (* a variable was read before any assignment *)

Section Session.
Context {hdr : headers}.

(** The body of [for (;;)]. *)
Definition poll_step (t : tick) (v : vars) : step * list event :=
  if tick_sigint t then
    (StepCancel, [EvSigint true; EvWrite Ctrl deactivate_msg])
  else
    let '(ret, buf) := bs_read (tick_ctrl t) (BUFSIZ - 1) in
    if ret <? 0 then (StepReadFailed, [EvSigint false; EvRead Ctrl])
    else
      let v' := scan_status (c_str buf) v in
      match status v' with
      | None => (StepUndefined, [EvSigint false; EvRead Ctrl])
      | Some s =>
          if s =? 0 then (StepDone v', [EvSigint false; EvRead Ctrl])
          else (StepAgain v', [EvSigint false; EvRead Ctrl; EvSleep])
      end.

(** The poll loop over the ticks the world provides; [StepAgain] at the
    end of the ticks means the loop is still running. *)
Fixpoint poll (ts : list tick) (v : vars) : step * list event :=
  match ts with
  | [] => (StepAgain v, [])
  | t :: ts' =>
      match poll_step t v with
      | (StepAgain v', tr) =>
          let '(s, tr') := poll ts' v' in (s, tr ++ tr')
      | (s, tr) => (s, tr)
      end
  end.

(** Lines 261-289: select record [i], read the response, scan it and
    compare the index the record reports with [i]. *)
Definition read_candidate (vi : visit) (i : Z)
  : option candidate * list event :=
  let buf := fmt_d i in
  let '(ret, _) := bs_write (visit_select vi) buf (strlen buf) in
  if ret <? 0 then (None, [EvWrite Info buf])
  else
    let '(ret, resp) := bs_read (visit_info vi) (BUFSIZ - 1) in
    if ret <? 0 then (None, [EvWrite Info buf; EvRead Info])
    else (parse_candidate (c_str resp) i, [EvWrite Info buf; EvRead Info]).

(** The body of the candidate loop. *)
Definition candidate_body (cfg : config) (vi : visit) (i : Z)
  : list event :=
  match read_candidate vi i with
  | (Some c, tr) => tr ++ [EvEmit (format_line cfg c)]
  | (None, tr) => tr
  end.

(** [for (int i = 0; i < num_info && signal_status != SIGINT; i++)],
    with [remaining] the number of indices from [i] up to [num_info]. *)
Fixpoint candidates (cfg : config) (vs : Z -> visit) (remaining : nat)
  (i : Z) : exit * list event :=
  match remaining with
  | O => (Completed, [])
  | S n =>
      if visit_sigint (vs i) then (Interrupted, [EvSigint true])
      else
        let '(e, tr) := candidates cfg vs n (i + 1) in
        (e, EvSigint false :: candidate_body cfg (vs i) i ++ tr)
  end.

Definition blindscan (cfg : config) (w : world) : exit * list event :=
  if negb (ctrl_readable w) then (Unavailable, [])
  else if negb (info_readable w) then (Unavailable, [])
  else
    let buf := request_msg cfg in
    let '(ret, _) := bs_write (submit w) buf (strlen buf) in
    if ret <? 0 then (Unavailable, [EvWrite Ctrl buf])
    else
      match poll (ticks w) uninitialised with
      | (StepCancel, tr) => (Cancelled, EvWrite Ctrl buf :: tr)
      | (StepReadFailed, tr) => (Unavailable, EvWrite Ctrl buf :: tr)
      | (StepUndefined, tr) => (Indeterminate, EvWrite Ctrl buf :: tr)
      | (StepAgain _, tr) => (StillPolling, EvWrite Ctrl buf :: tr)
      | (StepDone v, tr) =>
          match num_info v with
          | None => (Indeterminate, EvWrite Ctrl buf :: tr)
          | Some n =>
              let '(e, tr') := candidates cfg (visits w) (Z.to_nat n) 0 in
              (e, EvWrite Ctrl buf :: tr ++ tr')
          end
      end.

End Session.

(** ** The slot resolver: [nim_sockets] *)

Inductive outcome (A : Type) : Type :=
| Defined (a : A)
| Undefined.

Arguments Defined {A} a.
Arguments Undefined {A}.

(** [ids] is the array [int ids[4]]; [id] is the pointer [int *id]:
    [None] before its first assignment, [Some k] for [&ids[k]]. *)
Record nim_state : Type := { ids : list Z; id : option Z }.

Definition nim_init : nim_state := {| ids := [-1; -1; -1; -1]; id := None |}.

(** The body of the [getline] loop.  [&ids[val]] exists for [val] from 0
    to 4 (one past the end); a store through [id] needs [id] to point at
    one of the four elements. *)
Definition nim_line {hdr : headers} (line : string) (st : nim_state)
  : outcome nim_state :=
  let line := c_str line in
  if starts_with "NIM Socket" line then
    match sscanf LONG_MAX line "NIM Socket %d" with
    | val :: _ =>
        if (0 <=? val) && (val <=? 4) then
          Defined {| ids := ids st; id := Some val |}
        else Undefined
    | [] => Undefined
    end
  else if starts_with (TAB ++ "Frontend_Device") line then
    match sscanf LONG_MAX line (TAB ++ "Frontend_Device: %d") with
    | val :: _ =>
        match id st with
        | Some k =>
            if k <? 4 then
              Defined {| ids := <[Z.to_nat k := val]> (ids st); id := id st |}
            else Undefined
        | None => Undefined
        end
    | [] => Undefined
    end
  else Defined st.

Fixpoint nim_lines {hdr : headers} (lines : list string) (st : nim_state)
  : outcome nim_state :=
  match lines with
  | [] => Defined st
  | line :: rest =>
      match nim_line line st with
      | Defined st' => nim_lines rest st'
      | Undefined => Undefined
      end
  end.

(** The closing [for] loop: the first element equal to [slot] is taken. *)
Fixpoint nim_select (ids : list Z) (slot fe_id : Z) : Z :=
  match ids with
  | [] => fe_id
  | x :: rest => if x =? slot then x else nim_select rest slot fe_id
  end.

(** [nim_sockets()]: [topology] is [None] when [fopen] fails, otherwise
    the lines [getline] returns.  The result -1 stands for "absent". *)
Definition nim_sockets {hdr : headers} (cfg : config)
  (topology : option (list string)) : outcome Z :=
  match topology with
  | None => Defined (-1)
  | Some lines =>
      match nim_lines lines nim_init with
      | Defined st => Defined (nim_select (ids st) (slot cfg) (-1))
      | Undefined => Undefined
      end
  end.

(** ** Predicates used to state the properties *)

(** What the specification asks of an enumeration-to-label mapping with
    case table [cases] and default label [default]: every case has its own
    label, any other code has the default label, no label is empty, and
    no label is shared by two entries of the table or with the default. *)
Definition tolerant_mapping (cases : list (Z * string)) (default : string)
  (label : Z -> string) : Prop :=
  (forall k l, In (k, l) cases -> label k = l)
  /\ (forall code, ~ In code (map fst cases) -> label code = default)
  /\ (forall code, In (label code) (default :: map snd cases))
  /\ (forall code, label code <> EmptyString)
  /\ (forall code l, label code = l -> l <> default -> In (code, l) cases)
  /\ NoDup (default :: map snd cases).

(** The calls of a script that were not interrupted, in order. *)
Definition rd_interrupted (r : rd_ret) : bool :=
  match r with RdEintr => true | _ => false end.

Definition wr_interrupted (r : wr_ret) : bool :=
  match r with WrEintr => true | _ => false end.

Definition rd_effective (calls : list rd_ret) : list rd_ret :=
  List.filter (fun r => negb (rd_interrupted r)) calls.

Definition wr_effective (calls : list wr_ret) : list wr_ret :=
  List.filter (fun r => negb (wr_interrupted r)) calls.

(** The same device without the interruptions. *)
Definition rd_uninterrupted (f : rd_file) : rd_file :=
  {| rd_opens := rd_opens f; rd_calls := rd_effective (rd_calls f) |}.

Definition wr_uninterrupted (f : wr_file) : wr_file :=
  {| wr_opens := wr_opens f; wr_calls := wr_effective (wr_calls f) |}.

(** The first call that was not interrupted fails with an error. *)
Definition rd_fails_first (f : rd_file) : Prop :=
  hd_error (rd_effective (rd_calls f)) = Some RdError.

Definition wr_fails_first (f : wr_file) : Prop :=
  hd_error (wr_effective (wr_calls f)) = Some WrError.

(** The events that touch the info file or the standard output. *)
Definition info_event (ev : event) : bool :=
  match ev with
  | EvWrite Info _ | EvRead Info | EvEmit _ => true
  | _ => false
  end.

(** The events of the poll loop before a cancellation: checks of the
    signal flag that saw nothing, reads of the control file, sleeps. *)
Definition quiet_poll_event (ev : event) : bool :=
  match ev with
  | EvSigint false | EvRead Ctrl | EvSleep => true
  | _ => false
  end.

(** The events of the candidate loop before an interruption. *)
Definition quiet_candidate_event (ev : event) : bool :=
  match ev with
  | EvSigint false | EvWrite Info _ | EvRead Info | EvEmit _ => true
  | _ => false
  end.

(** A device file that opens and hands over [line] in one call, and one
    that opens and accepts whatever is written. *)
Definition rd_line (line : string) : rd_file :=
  {| rd_opens := true; rd_calls := [RdData line] |}.

Definition wr_accepting : wr_file :=
  {| wr_opens := true; wr_calls := [WrAccept 64] |}.

(** The default configuration with [-S slot]. *)
Definition with_slot (s : Z) : config :=
  {| start_frequency_mhz := start_frequency_mhz default_config;
     stop_frequency_mhz := stop_frequency_mhz default_config;
     symbolrate_min_mhz := symbolrate_min_mhz default_config;
     symbolrate_max_mhz := symbolrate_max_mhz default_config;
     vertical := vertical default_config;
     cband := cband default_config;
     high := high default_config;
     slot := s;
     i2c := i2c default_config |}.

(** A topology in which socket 0 has no device line and socket 2 has
    frontend device 1. *)
Definition two_socket_topology : list string :=
  [ ("NIM Socket 0:" ++ NL)%string;
    (TAB ++ "Type: DVB-S2" ++ NL)%string;
    ("NIM Socket 2:" ++ NL)%string;
    (TAB ++ "Type: DVB-S2" ++ NL)%string;
    (TAB ++ "Frontend_Device: 1" ++ NL)%string ].

(** A record of the info file for index 0 and one for index 1. *)
Definition record_0 : string := "0 1200000 27500000 5 0 0 3 0 0 0 0 0 -1 0".
Definition record_1 : string :=
  "1 1450400 2999600 6 1 1 10 9 1 1 5 262143 3 4096".

(** ** Command-line arguments: [get_int_arg] and [handle_args] *)

(** [strtol(arg, &endptr, 10)] with [errno] cleared before the call:
    the value returned, whether [endptr] moved off [arg], and whether
    [errno] is [ERANGE] afterwards.  [long_max] is [LONG_MAX] of
    <limits.h>, a parameter; [LONG_MIN] is [- long_max - 1].  The subject
    sequence is that of [%d]. *)
Definition strtol (long_max : Z) (arg : string) : Z * bool * bool :=
  match scan_int arg with
  | None => (0, false, false)
  | Some (v, _) =>
      if long_max <? v then (long_max, true, true)
      else if v <? - long_max - 1 then (- long_max - 1, true, true)
      else (v, true, false)
  end.

(** [get_int_arg(&val, arg)]: [Some] of the value stored through [valp]
    when the function returns true.  [errno] is non-zero after [strtol]
    only when it is [ERANGE]; a C library that reports a missing number
    through [errno] returns 0 there, which the second test of the source
    rejects just as the [endptr] test does. *)
Definition get_int_arg (long_max : Z) (arg : string) : option Z :=
  let '(val, moved, erange) := strtol long_max arg in
  if (erange && ((val =? long_max) || (val =? - long_max - 1)))
     || (erange && (val =? 0))
  then None
  else if negb moved then None
  else Some (s32 val).

(** What [getopt_long] returns: the option character and [optarg]. *)
Inductive option_char : Type :=
| Opt_s | Opt_e | Opt_n | Opt_x
| Opt_V | Opt_C | Opt_H
| Opt_S | Opt_I
| Opt_h | Opt_unknown          (* 'h' and '?' *)
| Opt_other.                   (* any other value: the default case *)

Record getopt_ret : Type := { opt : option_char; optarg : string }.

Definition set_start (v : Z) (c : config) : config :=
  {| start_frequency_mhz := v;
     stop_frequency_mhz := stop_frequency_mhz c;
     symbolrate_min_mhz := symbolrate_min_mhz c;
     symbolrate_max_mhz := symbolrate_max_mhz c;
     vertical := vertical c; cband := cband c; high := high c;
     slot := slot c; i2c := i2c c |}.

Definition set_stop (v : Z) (c : config) : config :=
  {| start_frequency_mhz := start_frequency_mhz c;
     stop_frequency_mhz := v;
     symbolrate_min_mhz := symbolrate_min_mhz c;
     symbolrate_max_mhz := symbolrate_max_mhz c;
     vertical := vertical c; cband := cband c; high := high c;
     slot := slot c; i2c := i2c c |}.

Definition set_min (v : Z) (c : config) : config :=
  {| start_frequency_mhz := start_frequency_mhz c;
     stop_frequency_mhz := stop_frequency_mhz c;
     symbolrate_min_mhz := v;
     symbolrate_max_mhz := symbolrate_max_mhz c;
     vertical := vertical c; cband := cband c; high := high c;
     slot := slot c; i2c := i2c c |}.

Definition set_max (v : Z) (c : config) : config :=
  {| start_frequency_mhz := start_frequency_mhz c;
     stop_frequency_mhz := stop_frequency_mhz c;
     symbolrate_min_mhz := symbolrate_min_mhz c;
     symbolrate_max_mhz := v;
     vertical := vertical c; cband := cband c; high := high c;
     slot := slot c; i2c := i2c c |}.

Definition set_vertical (c : config) : config :=
  {| start_frequency_mhz := start_frequency_mhz c;
     stop_frequency_mhz := stop_frequency_mhz c;
     symbolrate_min_mhz := symbolrate_min_mhz c;
     symbolrate_max_mhz := symbolrate_max_mhz c;
     vertical := true; cband := cband c; high := high c;
     slot := slot c; i2c := i2c c |}.

Definition set_cband (c : config) : config :=
  {| start_frequency_mhz := start_frequency_mhz c;
     stop_frequency_mhz := stop_frequency_mhz c;
     symbolrate_min_mhz := symbolrate_min_mhz c;
     symbolrate_max_mhz := symbolrate_max_mhz c;
     vertical := vertical c; cband := true; high := high c;
     slot := slot c; i2c := i2c c |}.

Definition set_high (c : config) : config :=
  {| start_frequency_mhz := start_frequency_mhz c;
     stop_frequency_mhz := stop_frequency_mhz c;
     symbolrate_min_mhz := symbolrate_min_mhz c;
     symbolrate_max_mhz := symbolrate_max_mhz c;
     vertical := vertical c; cband := cband c; high := true;
     slot := slot c; i2c := i2c c |}.

Definition set_slot (v : Z) (c : config) : config :=
  {| start_frequency_mhz := start_frequency_mhz c;
     stop_frequency_mhz := stop_frequency_mhz c;
     symbolrate_min_mhz := symbolrate_min_mhz c;
     symbolrate_max_mhz := symbolrate_max_mhz c;
     vertical := vertical c; cband := cband c; high := high c;
     slot := v; i2c := i2c c |}.

Definition set_i2c (v : Z) (c : config) : config :=
  {| start_frequency_mhz := start_frequency_mhz c;
     stop_frequency_mhz := stop_frequency_mhz c;
     symbolrate_min_mhz := symbolrate_min_mhz c;
     symbolrate_max_mhz := symbolrate_max_mhz c;
     vertical := vertical c; cband := cband c; high := high c;
     slot := slot c; i2c := v |}.

(** The body of the [switch (c)] of [handle_args]: the variables after
    the option and whether the usage text was printed; [None] is
    [exit(EXIT_FAILURE)].  An [int] assigned to a [uint32_t] variable is
    reduced modulo 2^32. *)
Definition handle_option (long_max : Z) (o : getopt_ret) (c : config)
  : option (config * bool) :=
  let numeric (store : Z -> config) :=
    match get_int_arg long_max (optarg o) with
    | None => None
    | Some val => Some (store val, false)
    end in
  match opt o with
  | Opt_s => numeric (fun val => set_start (u32 val) c)
  | Opt_e => numeric (fun val => set_stop (u32 val) c)
  | Opt_n => numeric (fun val => set_min (u32 val) c)
  | Opt_x => numeric (fun val => set_max (u32 val) c)
  | Opt_V => Some (set_vertical c, false)
  | Opt_C => Some (set_cband c, false)
  | Opt_H => Some (set_high c, false)
  | Opt_S => numeric (fun val => set_slot val c)
  | Opt_I => numeric (fun val => set_i2c val c)
  | Opt_h | Opt_unknown => Some (c, true)
  | Opt_other => None
  end.

(** [handle_args]: the [while] loop over the results of [getopt_long], up
    to the call that returns -1.  The result is the final variables and
    the number of times the usage text was printed. *)
Fixpoint handle_args (long_max : Z) (opts : list getopt_ret) (c : config)
  : option (config * nat) :=
  match opts with
  | [] => Some (c, O)
  | o :: rest =>
      match handle_option long_max o c with
      | None => None
      | Some (c', usage) =>
          match handle_args long_max rest c' with
          | None => None
          | Some (c'', n) => Some (c'', if usage then S n else n)
          end
      end
  end.

(** ** [main] *)



Section Main.
Context {hdr : headers}.


End Main.

(** ** More notions used to state properties *)

(** The bytes a device delivers up to its first error or end of file,
    however the calls split them. *)
Fixpoint rd_stream (calls : list rd_ret) : string :=
  match calls with
  | [] => EmptyString
  | RdEintr :: rest => rd_stream rest
  | RdError :: _ => EmptyString
  | RdData chunk :: rest =>
      match chunk with
      | EmptyString => EmptyString
      | _ => (chunk ++ rd_stream rest)%string
      end
  end.

(** The number of bytes a device is ready to take up to its first error
    or refusal. *)
Fixpoint wr_capacity (calls : list wr_ret) : Z :=
  match calls with
  | [] => 0
  | WrEintr :: rest => wr_capacity rest
  | WrError :: _ => 0
  | WrAccept n :: rest =>
      match n with
      | O => 0
      | _ => Z.of_nat n + wr_capacity rest
      end
  end.

(** The lines printed in a run, in order. *)
Fixpoint emitted (tr : list event) : list string :=
  match tr with
  | [] => []
  | EvEmit line :: rest => line :: emitted rest
  | _ :: rest => emitted rest
  end.

(** The line the candidate loop prints for index [i], if any. *)
Definition line_of `{hdr : headers} (cfg : config) (vs : Z -> visit) (i : Z)
  : list string :=
  match fst (read_candidate (vs i) i) with
  | Some c => [format_line cfg c]
  | None => []
  end.

Fixpoint count_char (c : ascii) (s : string) : nat :=
  match s with
  | EmptyString => O
  | String a rest =>
      if Ascii.eqb a c then S (count_char c rest) else count_char c rest
  end.

Definition SPACE : ascii := " "%char.
Definition NEWLINE : ascii := "010"%char.

(** Decimal integers separated by single spaces: a line as the driver
    writes it into its files. *)
Fixpoint join_decimal (vals : list Z) : string :=
  match vals with
  | [] => EmptyString
  | [v] => fmt_d v
  | v :: rest => (fmt_d v ++ " " ++ join_decimal rest)%string
  end.

(** The 14 fields of a record, in the order of the info file. *)
Definition fields_of (c : candidate) : list Z :=
  [index c; frequency c; symbol_rate c; delivery_system c;
   inversion c; pilot c; fec_inner c; modulation c; rolloff c;
   pls_mode c; is_id c; pls_code c; t2mi_plp_id c; t2mi_pid c].

Definition is_int (z : Z) : Prop := -2147483648 <= z <= 2147483647.
Definition is_uint (z : Z) : Prop := 0 <= z < 4294967296.

(** Every field of the record is in the range of its C variable. *)
Definition candidate_in_range (c : candidate) : Prop :=
  is_int (index c) /\ is_uint (frequency c) /\ is_uint (symbol_rate c)
  /\ Forall is_int
       [delivery_system c; inversion c; pilot c; fec_inner c;
        modulation c; rolloff c; pls_mode c; is_id c; pls_code c;
        t2mi_plp_id c; t2mi_pid c].

(** The value of the digits [d] read after the value [acc]. *)
Fixpoint uint_acc (acc : Z) (d : Decimal.uint) : Z :=
  match d with
  | Decimal.Nil => acc
  | Decimal.D0 l => uint_acc (10 * acc + 0) l
  | Decimal.D1 l => uint_acc (10 * acc + 1) l
  | Decimal.D2 l => uint_acc (10 * acc + 2) l
  | Decimal.D3 l => uint_acc (10 * acc + 3) l
  | Decimal.D4 l => uint_acc (10 * acc + 4) l
  | Decimal.D5 l => uint_acc (10 * acc + 5) l
  | Decimal.D6 l => uint_acc (10 * acc + 6) l
  | Decimal.D7 l => uint_acc (10 * acc + 7) l
  | Decimal.D8 l => uint_acc (10 * acc + 8) l
  | Decimal.D9 l => uint_acc (10 * acc + 9) l
  end.

(** The string does not go on with a digit: a number printed before it
    ends where the string starts. *)
Definition no_leading_digit (s : string) : Prop :=
  match s with
  | EmptyString => True
  | String c _ => isdigit c = false
  end.

(** A value fits the variable a conversion stores into. *)
Definition fits (d : directive) (v : Z) : Prop :=
  match d with
  | DInt => is_int v
  | DUInt => is_uint v
  | _ => False
  end.

Definition same_opt (a b : option_char) : bool :=
  match a, b with
  | Opt_s, Opt_s | Opt_e, Opt_e | Opt_n, Opt_n | Opt_x, Opt_x
  | Opt_V, Opt_V | Opt_C, Opt_C | Opt_H, Opt_H
  | Opt_S, Opt_S | Opt_I, Opt_I
  | Opt_h, Opt_h | Opt_unknown, Opt_unknown | Opt_other, Opt_other => true
  | _, _ => false
  end.

(** The options whose case calls [get_int_arg]. *)
Definition takes_number (k : option_char) : bool :=
  match k with
  | Opt_s | Opt_e | Opt_n | Opt_x | Opt_S | Opt_I => true
  | _ => false
  end.

Definition is_help (k : option_char) : bool :=
  match k with
  | Opt_h | Opt_unknown => true
  | _ => false
  end.

(** The argument of the last occurrence of option [k]. *)
Fixpoint last_arg (k : option_char) (opts : list getopt_ret)
  : option string :=
  match opts with
  | [] => None
  | o :: rest =>
      match last_arg k rest with
      | Some a => Some a
      | None => if same_opt (opt o) k then Some (optarg o) else None
      end
  end.

(** The value a numeric variable holds after the options: that of the
    last occurrence of its option, converted by [convert], or the value it
    had before. *)
Definition last_value (long_max : Z) (k : option_char) (convert : Z -> Z)
  (opts : list getopt_ret) (before after : Z) : Prop :=
  match last_arg k opts with
  | Some a => option_map convert (get_int_arg long_max a) = Some after
  | None => after = before
  end.

(** The two line shapes of the topology file, as the kernel writes
    them. *)
Definition socket_line (k : Z) : string :=
  ("NIM Socket " ++ fmt_d k ++ ":" ++ NL)%string.

Definition device_line (m : Z) : string :=
  (TAB ++ "Frontend_Device: " ++ fmt_d m ++ NL)%string.

(** A line that is neither a socket header nor a device assignment. *)
Definition other_line (line : string) : Prop :=
  starts_with "NIM Socket" (c_str line) = false
  /\ starts_with (TAB ++ "Frontend_Device") (c_str line) = false.

(** A socket of the topology file: its index, the lines between the
    header and the device assignment, and the frontend id if the socket
    has a device line. *)
Record socket : Type := {
  socket_index : Z;
  socket_info : list string;
  socket_device : option Z
}.

Definition render_socket (b : socket) : list string :=
  socket_line (socket_index b)
  :: socket_info b
  ++ match socket_device b with
     | Some m => [device_line m]
     | None => []
     end.

Definition render_topology (bs : list socket) : list string :=
  List.flat_map render_socket bs.

(** The frontend ids the sockets list. *)
Definition devices (bs : list socket) : list Z :=
  List.flat_map (fun b => match socket_device b with
                          | Some m => [m]
                          | None => []
                          end) bs.

(** A topology file as the driver writes it: socket indices 0..3, each
    at most once, ids that are [int]s, and no other line that looks like
    one of the two shapes. *)
Definition conforming (bs : list socket) : Prop :=
  NoDup (map socket_index bs)
  /\ Forall (fun b => 0 <= socket_index b < 4
                      /\ Forall other_line (socket_info b)
                      /\ match socket_device b with
                         | Some m => is_int m
                         | None => True
                         end) bs.

(** The indices [i], [i + 1], ... the candidate loop goes through in
    [n] iterations. *)
Fixpoint indices (i : Z) (n : nat) : list Z :=
  match n with
  | O => []
  | S n' => i :: indices (i + 1) n'
  end.

(** The events of the session that touch the control file or wait for
    it. *)
Definition ctrl_event (ev : event) : bool :=
  match ev with
  | EvWrite Ctrl _ | EvRead Ctrl | EvSleep => true
  | _ => false
  end.

(** What one option does to a numeric variable: its own option stores
    the converted argument, any other leaves it. *)
Definition step_value (long_max : Z) (k : option_char) (convert : Z -> Z)
  (o : getopt_ret) (before after : Z) : Prop :=
  if same_opt (opt o) k
  then option_map convert (get_int_arg long_max (optarg o)) = Some after
  else after = before.

(** An option that makes [handle_args] leave through
    [exit(EXIT_FAILURE)]. *)
Definition fatal_option (long_max : Z) (o : getopt_ret) : Prop :=
  opt o = Opt_other
  \/ (takes_number (opt o) = true
      /\ get_int_arg long_max (optarg o) = None).

Definition has_opt (k : option_char) (opts : list getopt_ret) : bool :=
  existsb (fun o => same_opt (opt o) k) opts.

(** A line has one of the two shapes the resolver looks for. *)
Definition shaped (line : string) : bool :=
  starts_with "NIM Socket" (c_str line)
  || starts_with (TAB ++ "Frontend_Device") (c_str line).

(** The table after a socket of the file: its device, if it has one, is
    stored at its index. *)
Definition apply_socket (table : list Z) (b : socket) : list Z :=
  match socket_device b with
  | Some m => <[Z.to_nat (socket_index b) := m]> table
  | None => table
  end.

Definition NUL : ascii := "000"%char.

(** The reading of a response as fields: a field is what white space
    separates, and it is an integer when it is an optionally signed,
    non-empty sequence of digits and nothing else. *)
Fixpoint split_fields (cur : string) (s : string) : list string :=
  match s with
  | EmptyString => match cur with EmptyString => [] | _ => [cur] end
  | String c rest =>
      if isspace c then
        match cur with
        | EmptyString => split_fields EmptyString rest
        | _ => cur :: split_fields EmptyString rest
        end
      else split_fields (cur ++ String c EmptyString) rest
  end.

Definition whitespace_fields (s : string) : list string :=
  split_fields EmptyString s.

Definition is_integer_field (f : string) : bool :=
  match scan_int f with
  | Some (_, EmptyString) => true
  | _ => false
  end.

Definition fourteen_integer_fields (resp : string) : bool :=
  Nat.eqb (length (whitespace_fields resp)) 14
  && forallb is_integer_field (whitespace_fields resp).

(** Fields with one space between two of them. *)
Fixpoint join_fields (fields : list string) : string :=
  match fields with
  | [] => EmptyString
  | [f] => f
  | f :: rest => (f ++ " " ++ join_fields rest)%string
  end.

(** A field of an output line: not empty, and without a space or a line
    feed inside. *)
Definition plain_field (f : string) : Prop :=
  f <> EmptyString /\ count_char SPACE f = O /\ count_char NEWLINE f = O.

(** * Properties *)

(** ** Sanity checks on concrete inputs *)

Example scan_int_ex :
  scan_int "  -12 7" = Some (-12, " 7"%string)
  /\ scan_int "+x" = None
  /\ sscanf 2147483647 "1 0 55" "%d%d%d" = [1; 0; 55]
  /\ sscanf 2147483647 "0" "%d%d%d" = [0]
  /\ sscanf 2147483647 "7-3" "%d%d" = [7; -3]
  /\ sscanf 2147483647 "NIM Socket 2:" "NIM Socket %d" = [2]
  /\ sscanf 2147483647 (TAB ++ "Frontend_Device: 1" ++ NL)
       (TAB ++ "Frontend_Device: %d") = [1]
  /\ sscanf 2147483647 "4294967297 -4294967297" "%d%d"
     = [2147483647; -2147483648]
  /\ sscanf 9223372036854775807 "4294967297 -4294967297" "%d%d" = [1; -1]
  /\ sscanf 9223372036854775807 "9223372036854775808" "%d" = [-1]
  /\ sscanf 2147483647 "4294967297 -1 -4294967297" "%u%u%u"
     = [4294967295; 4294967295; 4294967295]
  /\ sscanf 9223372036854775807 "4294967297 -1 -4294967297" "%u%u%u"
     = [1; 4294967295; 4294967295]
  /\ fmt_d (-1) = "-1"%string /\ fmt_u (-1) = "4294967295"%string.
Proof. vm_compute. repeat split; reflexivity. Qed.

(** ** Rounding and band translation *)

Ltac unfold_u32 := unfold round_to_1000, band_convert, u32 in *.

Ltac euclid := Z.to_euclidean_division_equations; lia.

Lemma u32_range (z : Z) : 0 <= u32 z < 4294967296.
Proof. unfold u32. apply Z.mod_pos_bound. lia. Qed.

Lemma u32_small (z : Z) : 0 <= z < 4294967296 -> u32 z = z.
Proof. intros H. unfold u32. now apply Z.mod_small. Qed.

Lemma round_to_1000_range (x : Z) : 0 <= round_to_1000 x < 4294967296.
Proof. unfold round_to_1000. apply u32_range. Qed.

(** The rounded value is a multiple of 1000 (the outer reduction to 32
    bits never changes it). *)
Lemma round_to_1000_multiple (x : Z) : (round_to_1000 x) mod 1000 = 0.
Proof. unfold_u32. euclid. Qed.

(** Away from the top of the 32-bit range the rounding is the nearest
    multiple of 1000. *)
Lemma round_to_1000_nearest (x : Z) :
  0 <= x < 4294966796 ->
  round_to_1000 x = (x + 500) / 1000 * 1000
  /\ - 500 < round_to_1000 x - x <= 500.
Proof. intros H. unfold_u32. euclid. Qed.

(** C9, the claim as stated fails: the raw value 4294966500 rounds to
    4294967000, and rounding that again wraps around 2^32 and gives 0. *)
Lemma round_to_1000_idempotent_counterexample :
  0 <= 4294966500 < 4294967296
  /\ round_to_1000 4294966500 = 4294967000
  /\ round_to_1000 (round_to_1000 4294966500) = 0
  /\ round_to_1000 (round_to_1000 4294966500) <> round_to_1000 4294966500.
Proof. vm_compute. repeat split; congruence. Qed.

(** C9, amended: for a 32-bit unsigned raw value [f], rounding twice is
    rounding once exactly when [f] is outside 4294966500..4294966795; in
    particular for every [f] below 4294966500. *)
Theorem round_to_1000_idempotent (f : Z) :
  0 <= f < 4294967296 ->
  (round_to_1000 (round_to_1000 f) = round_to_1000 f
   <-> ~ (4294966500 <= f <= 4294966795)).
Proof.
  intros Hf. unfold_u32. split.
  - intros Heq Hin. revert Heq. euclid.
  - intros Hout. euclid.
Qed.

Lemma round_to_1000_idempotent_witness :
  0 <= 1234567 < 4294967296
  /\ (round_to_1000 (round_to_1000 1234567) = round_to_1000 1234567
      <-> ~ (4294966500 <= 1234567 <= 4294966795)).
Proof. split; [lia | apply (round_to_1000_idempotent 1234567); lia]. Defined.




(** The frequency printed in C-band does not depend on the LO flag. *)
Lemma band_convert_cband (h h' : bool) (r : Z) :
  band_convert true h r = band_convert true h' r.
Proof. reflexivity. Qed.

(** ** Enumeration labels *)

Section SwitchFacts.
Variables (cases : list (Z * string)) (default : string).

Lemma switch_default (code : Z) :
  ~ In code (map fst cases) -> switch code cases default = default.
Proof.
  induction cases as [|[k l] rest IH]; cbn; [reflexivity|].
  intros Hn. destruct (Z.eqb_spec code k) as [->|Hne].
  - exfalso. apply Hn. now left.
  - apply IH. intros Hin. apply Hn. now right.
Qed.

(** A [switch] whose case labels are distinct (as C demands) takes the
    case of its value. *)
Lemma switch_case (k : Z) (l : string) :
  NoDup (map fst cases) -> In (k, l) cases ->
  switch k cases default = l.
Proof.
  induction cases as [|[k' l'] rest IH]; cbn; [tauto|].
  intros Hnd [Heq|Hin].
  - inversion Heq; subst. now rewrite Z.eqb_refl.
  - apply NoDup_cons in Hnd as [Hnotin Hnd].
    destruct (Z.eqb_spec k k') as [->|Hne].
    + exfalso. apply Hnotin. apply list_elem_of_In.
      change k' with (fst (k', l)). now apply in_map.
    + now apply IH.
Qed.

(** The label is one of the case labels or the default one. *)
Lemma switch_range (code : Z) :
  In (switch code cases default) (default :: map snd cases).
Proof.
  induction cases as [|[k l] rest IH]; cbn; [now left|].
  destruct (code =? k); [right; now left|].
  destruct IH as [IH|IH]; [now left | right; now right].
Qed.

(** A label other than the default one identifies its code. *)
Lemma switch_inv (code : Z) (l : string) :
  switch code cases default = l -> l <> default -> In (code, l) cases.
Proof.
  induction cases as [|[k l'] rest IH]; cbn; [congruence|].
  destruct (Z.eqb_spec code k) as [->|Hne]; intros Heq Hd.
  - left. congruence.
  - right. now apply IH.
Qed.

End SwitchFacts.

(** A [switch] with distinct case labels, distinct non-empty strings and a
    default is a tolerant mapping. *)
Lemma switch_tolerant (cases : list (Z * string)) (default : string) :
  NoDup (map fst cases) ->
  NoDup (default :: map snd cases) ->
  ~ In EmptyString (default :: map snd cases) ->
  tolerant_mapping cases default (fun code => switch code cases default).
Proof.
  intros Hk Hl He. unfold tolerant_mapping.
  split; [intros k l; now apply switch_case|].
  split; [intros code; apply switch_default|].
  split; [intros code; apply switch_range|].
  split; [|split; [intros code l; apply switch_inv | exact Hl] ].
  intros code Heq. apply He. rewrite <- Heq. apply switch_range.
Qed.

Ltac label_strings :=
  first
    [ apply (bool_decide_unpack _); vm_compute; exact I
    | cbn; intros H; repeat (destruct H as [H|H]; [discriminate H|]);
      exact H ].

(** ** Candidate records *)

(** [sscanf] converts at most one value per directive. *)
Lemma scan_directives_length (long_max : Z) (ds : list directive)
  (inp : string) :
  (length (scan_directives long_max ds inp) <= length ds)%nat.
Proof.
  revert inp. induction ds as [|d ds IH]; intros inp; cbn; [lia|].
  destruct d.
  - specialize (IH (skip_space inp)). lia.
  - destruct inp as [|a rest]; cbn; [lia|].
    destruct (Ascii.eqb a c); cbn; [specialize (IH rest)|]; lia.
  - destruct (scan_int inp) as [[v rest]|]; cbn; [specialize (IH rest)|]; lia.
  - destruct (scan_int inp) as [[v rest]|]; cbn; [specialize (IH rest)|]; lia.
Qed.

Lemma sscanf_candidate_length (long_max : Z) (resp : string) :
  (length (sscanf long_max resp candidate_format) <= 14)%nat.
Proof.
  unfold sscanf.
  apply (scan_directives_length long_max (parse_format candidate_format) resp).
Qed.

(** A record is built from exactly 14 converted values, field by field. *)
Lemma candidate_of_Some (vals : list Z) (c : candidate) :
  candidate_of vals = Some c <->
  vals = [index c; frequency c; symbol_rate c; delivery_system c;
          inversion c; pilot c; fec_inner c; modulation c; rolloff c;
          pls_mode c; is_id c; pls_code c; t2mi_plp_id c; t2mi_pid c].
Proof.
  split.
  - do 15 (destruct vals as [|? vals]; try discriminate).
    cbn. intros [= <-]. reflexivity.
  - intros ->. destruct c; reflexivity.
Qed.

Lemma candidate_of_None (vals : list Z) :
  candidate_of vals = None <-> length vals <> 14%nat.
Proof.
  split.
  - intros Hn Hl.
    do 15 (destruct vals as [|? vals]; try discriminate).
  - intros Hl.
    do 15 (destruct vals as [|? vals]; try reflexivity).
    cbn in Hl. lia.
Qed.

Lemma parse_candidate_Some {hdr : headers} (resp : string) (i : Z)
  (c : candidate) :
  parse_candidate resp i = Some c <->
  candidate_of (sscanf LONG_MAX resp candidate_format) = Some c /\ index c = i.
Proof.
  unfold parse_candidate.
  destruct (candidate_of (sscanf LONG_MAX resp candidate_format)) as [c'|].
  - destruct (Z.eqb_spec i (index c')) as [->|Hne]; cbn; split.
    + intros [= ->]. split; reflexivity.
    + intros [[= ->] _]. reflexivity.
    + discriminate.
    + intros [[= ->] Hi]. congruence.
  - split; [discriminate|]. intros [Hd _]. discriminate.
Qed.

Section CandidateReader.
Context {hdr : headers}.

(** A record comes out of [read_candidate] only through
    [parse_candidate] on the response that was read. *)
Lemma read_candidate_Some (vi : visit) (i : Z) (c : candidate)
  (tr : list event) :
  read_candidate vi i = (Some c, tr) ->
  exists ret resp,
    bs_read (visit_info vi) (BUFSIZ - 1) = (ret, resp)
    /\ 0 <= ret
    /\ parse_candidate (c_str resp) i = Some c.
Proof.
  unfold read_candidate.
  destruct (bs_write _ _ _) as [wret out].
  destruct (wret <? 0); [discriminate|].
  destruct (bs_read _ _) as [ret resp].
  destruct (Z.ltb_spec ret 0); [discriminate|].
  intros [= Hp _]. exists ret, resp. repeat split; [lia | exact Hp].
Qed.

(** A line is printed for index [i] exactly when a record came out. *)
Lemma candidate_body_emits (cfg : config) (vi : visit) (i : Z)
  (line : string) :
  In (EvEmit line) (candidate_body cfg vi i) <->
  exists c, fst (read_candidate vi i) = Some c /\ line = format_line cfg c.
Proof.
  unfold candidate_body.
  destruct (read_candidate vi i) as [[c|] tr] eqn:Hrc; cbn.
  - assert (Htr : ~ In (EvEmit line) tr).
    { revert Hrc. unfold read_candidate.
      destruct (bs_write _ _ _) as [wret out].
      destruct (wret <? 0); [discriminate|].
      destruct (bs_read _ _) as [ret resp].
      destruct (ret <? 0); [discriminate|].
      intros [= _ <-]. cbn. intuition discriminate. }
    rewrite in_app_iff. cbn. split.
    + intros [Hin|[[= <-]|[]]]; [tauto|]. now exists c.
    + intros (c' & [= <-] & ->). right. now left.
  - split; [|intros (c' & Hc & _); discriminate].
    revert Hrc. unfold read_candidate.
    destruct (bs_write _ _ _) as [wret out].
    destruct (wret <? 0);
      [intros [= <-]; cbn; intuition discriminate|].
    destruct (bs_read _ _) as [ret resp].
    destruct (ret <? 0); intros Heq; apply (f_equal snd) in Heq;
      cbn in Heq; subst tr; cbn; intuition discriminate.
Qed.

End CandidateReader.

(** ** DeviceFile I/O *)

Lemma strlen_nonneg (s : string) : 0 <= strlen s.
Proof. unfold strlen. lia. Qed.

Lemma strlen_zero (s : string) : strlen s = 0 <-> s = EmptyString.
Proof.
  unfold strlen. destruct s; cbn; split; intros H;
    try reflexivity; try discriminate; lia.
Qed.

Lemma append_cons (c : ascii) (a b : string) :
  (String c a ++ b)%string = String c (a ++ b).
Proof. reflexivity. Qed.

Lemma strlen_cons (c : ascii) (a : string) :
  strlen (String c a) = 1 + strlen a.
Proof. unfold strlen. cbn [String.length]. lia. Qed.

Lemma strlen_append (a b : string) :
  strlen (a ++ b) = strlen a + strlen b.
Proof.
  induction a as [|c a IH].
  - reflexivity.
  - rewrite append_cons, !strlen_cons. lia.
Qed.

Lemma length_substring_0 (n : nat) (s : string) :
  String.length (String.substring 0 n s) = Nat.min n (String.length s).
Proof.
  revert n. induction s as [|c s IH]; intros [|n]; cbn; try reflexivity.
  now rewrite IH.
Qed.

Lemma strlen_take_bytes (n : Z) (s : string) :
  0 <= n -> strlen (take_bytes n s) = Z.min n (strlen s).
Proof.
  intros Hn. unfold strlen, take_bytes. rewrite length_substring_0. lia.
Qed.

Lemma append_empty_r (s : string) : (s ++ "")%string = s.
Proof.
  induction s as [|c s IH]; [reflexivity|]. now rewrite append_cons, IH.
Qed.

Lemma append_assoc (a b c : string) :
  ((a ++ b) ++ c)%string = (a ++ (b ++ c))%string.
Proof.
  induction a as [|x a IH]; [reflexivity|]. now rewrite !append_cons, IH.
Qed.

Ltac nothing_moved :=
  split; [lia|]; exists EmptyString; rewrite append_empty_r;
  split; [reflexivity | change (strlen EmptyString) with 0; lia].

Lemma take_bytes_0 (s : string) : take_bytes 0 s = EmptyString.
Proof. destruct s; reflexivity. Qed.

Ltac nothing_written :=
  split; [lia|]; exists EmptyString; rewrite append_empty_r;
  split; [reflexivity|];
  split; [change (strlen EmptyString) with 0; lia
         | change (strlen EmptyString) with 0; now rewrite take_bytes_0].

Section ReadLoop.

Lemma bs_read_loop_done (calls : list rd_ret) (rc : Z) (buf : string) :
  bs_read_loop calls 0 rc buf = (0, rc, buf).
Proof. destruct calls; reflexivity. Qed.

(** While bytes remain to be read, the [rc] of the previous call does
    not matter: the next call overwrites it. *)
Lemma bs_read_loop_rc (calls : list rd_ret) (todo rc rc' : Z)
  (buf : string) :
  todo <> 0 ->
  bs_read_loop calls todo rc buf = bs_read_loop calls todo rc' buf.
Proof.
  intros Hne. apply Z.eqb_neq in Hne.
  destruct calls as [|[| |chunk] calls]; cbn; rewrite Hne; reflexivity.
Qed.

Lemma bs_read_loop_effective (calls : list rd_ret) (todo rc : Z)
  (buf : string) :
  bs_read_loop (rd_effective calls) todo rc buf
  = bs_read_loop calls todo rc buf.
Proof.
  revert todo rc buf.
  induction calls as [|r calls IH]; intros todo rc buf; [reflexivity|].
  destruct (Z.eqb_spec todo 0) as [->|Hne].
  { now rewrite !bs_read_loop_done. }
  pose proof Hne as Hb. apply Z.eqb_neq in Hb.
  destruct r as [| |chunk]; cbn; rewrite ?Hb.
  - rewrite IH. now apply bs_read_loop_rc.
  - reflexivity.
  - destruct (strlen (take_bytes todo chunk) <=? 0); [reflexivity|].
    apply IH.
Qed.

(** The bytes stored account for the decrease of [todo]. *)
Lemma bs_read_loop_moved (calls : list rd_ret) (todo rc : Z)
  (buf : string) (todo' rc' : Z) (buf' : string) :
  0 <= todo ->
  bs_read_loop calls todo rc buf = (todo', rc', buf') ->
  0 <= todo' <= todo
  /\ exists data, buf' = (buf ++ data)%string
                  /\ strlen data = todo - todo'.
Proof.
  revert todo rc buf.
  induction calls as [|r calls IH]; intros todo rc buf Hpos.
  - cbn. destruct (todo =? 0); intros [= <- <- <-]; nothing_moved.
  - destruct (Z.eqb_spec todo 0) as [->|Hne].
    { rewrite bs_read_loop_done. intros [= <- <- <-]. nothing_moved. }
    pose proof Hne as Hb. apply Z.eqb_neq in Hb.
    destruct r as [| |chunk]; cbn; rewrite Hb.
    + now apply IH.
    + intros [= <- <- <-]. nothing_moved.
    + pose proof (strlen_take_bytes todo chunk Hpos) as Hlen.
      pose proof (strlen_nonneg chunk) as Hc.
      destruct (Z.leb_spec (strlen (take_bytes todo chunk)) 0) as [Hz|Hz].
      * intros [= <- <- <-]. nothing_moved.
      * intros Hloop. apply IH in Hloop as (Hr & data & -> & Hd); [|lia].
        split; [lia|].
        exists (take_bytes todo chunk ++ data)%string.
        rewrite append_assoc, strlen_append. split; [reflexivity | lia].
Qed.

(** How the loop ends, by the first call that was not interrupted. *)
Lemma bs_read_loop_first (calls : list rd_ret) (todo rc : Z)
  (buf : string) :
  0 < todo ->
  match hd_error (rd_effective calls) with
  | None => bs_read_loop calls todo rc buf = (todo, 0, buf)
  | Some RdError => bs_read_loop calls todo rc buf = (todo, -1, buf)
  | Some (RdData chunk) =>
      if strlen (take_bytes todo chunk) <=? 0
      then bs_read_loop calls todo rc buf = (todo, 0, buf)
      else fst (fst (bs_read_loop calls todo rc buf)) < todo
  | Some RdEintr => False
  end.
Proof.
  intros Hpos. assert (Hb : (todo =? 0) = false) by (apply Z.eqb_neq; lia).
  revert rc. induction calls as [|r calls IH]; intros rc; cbn.
  - now rewrite Hb.
  - destruct r as [| |chunk]; cbn; rewrite Hb.
    + apply IH.
    + reflexivity.
    + pose proof (strlen_take_bytes todo chunk ltac:(lia)) as Hlen.
      pose proof (strlen_nonneg chunk) as Hc.
      destruct (Z.leb_spec (strlen (take_bytes todo chunk)) 0) as [Hz|Hz].
      * f_equal. f_equal. lia.
      * destruct (bs_read_loop calls _ _ _) as [[todo' rc'] buf'] eqn:Hl.
        apply bs_read_loop_moved in Hl; [cbn; lia | lia].
Qed.

End ReadLoop.

(** [bs_read], by what the device does.  [data] is what was stored into
    the caller's buffer. *)
Lemma bs_read_spec (f : rd_file) (count ret : Z) (data : string) :
  0 < count ->
  bs_read f count = (ret, data) ->
  strlen data <= count
  /\ (data <> EmptyString -> ret = strlen data)
  /\ (data = EmptyString -> ret = 0 \/ ret = -1)
  /\ (ret < 0 <-> rd_opens f = false \/ rd_fails_first f).
Proof.
  intros Hpos. unfold bs_read, rd_fails_first.
  destruct (rd_opens f); cbn [negb].
  2:{ intros [= <- <-]. change (strlen EmptyString) with 0.
      repeat split; try lia; try tauto. }
  destruct (bs_read_loop _ _ _ _) as [[todo' rc'] buf'] eqn:Hl.
  pose proof (bs_read_loop_first (rd_calls f) count 0 EmptyString Hpos)
    as Hfirst.
  pose proof Hl as Hm.
  apply bs_read_loop_moved in Hm as (Hr & d & -> & Hd); [|lia].
  change (EmptyString ++ d)%string with d.
  rewrite Hl in Hfirst. cbn [fst] in Hfirst.
  intros [= <- <-].
  split; [lia|].
  destruct (Z.eqb_spec (count - todo') 0) as [Hz|Hnz].
  - assert (Hd0 : d = EmptyString) by (apply strlen_zero; lia).
    destruct (hd_error (rd_effective (rd_calls f))) as [[| |chunk]|].
    + contradiction.
    + injection Hfirst as _ Hrc _. subst rc'.
      split; [tauto|]. split; [intros _; now right|].
      split; [intros _; now right | lia].
    + destruct (strlen (take_bytes count chunk) <=? 0); [|lia].
      injection Hfirst as _ Hrc _. subst rc'.
      split; [tauto|]. split; [intros _; now left|].
      split; [lia | intros [|]; discriminate].
    + injection Hfirst as _ Hrc _. subst rc'.
      split; [tauto|]. split; [intros _; now left|].
      split; [lia | intros [|]; discriminate].
  - assert (Hd0 : d <> EmptyString).
    { intros He. apply strlen_zero in He. lia. }
    split; [intros _; lia|]. split; [tauto|].
    split; [lia|].
    intros [Ho|Hf]; [discriminate|]. rewrite Hf in Hfirst.
    injection Hfirst as Ht _ _. lia.
Qed.

Lemma bs_read_effective (f : rd_file) (count : Z) :
  bs_read (rd_uninterrupted f) count = bs_read f count.
Proof.
  unfold bs_read, rd_uninterrupted. cbn [rd_opens rd_calls].
  now rewrite bs_read_loop_effective.
Qed.

(** The same facts for the write loop. *)

Lemma substring_0_all (s : string) :
  String.substring 0 (String.length s) s = s.
Proof. induction s as [|c s IH]; cbn; [reflexivity | now rewrite IH]. Qed.

Lemma substring_0_min (n : nat) (s : string) :
  String.substring 0 (Nat.min n (String.length s)) s = String.substring 0 n s.
Proof.
  revert n. induction s as [|c s IH]; intros [|n]; cbn; try reflexivity.
  now rewrite IH.
Qed.

Lemma substring_take_drop (a b : nat) (s : string) :
  (a <= String.length s)%nat ->
  (String.substring 0 a s
   ++ String.substring 0 b (String.substring a (String.length s - a) s))%string
  = String.substring 0 (a + b) s.
Proof.
  revert a. induction s as [|c s IH]; intros a Ha.
  - cbn in Ha. assert (a = 0%nat) as -> by lia. reflexivity.
  - destruct a as [|a].
    + rewrite Nat.sub_0_r, substring_0_all. reflexivity.
    + cbn [String.length] in *. cbn [String.substring Nat.add Nat.sub].
      rewrite append_cons. f_equal. apply IH. lia.
Qed.

Lemma take_bytes_append (buf put data : string) :
  put = take_bytes (strlen put) buf ->
  data = take_bytes (strlen data) (drop_bytes (strlen put) buf) ->
  (put ++ data)%string = take_bytes (strlen (put ++ data)) buf.
Proof.
  unfold take_bytes, drop_bytes, strlen. rewrite !Nat2Z.id.
  intros Hp Hd.
  assert (Hle : (String.length put <= String.length buf)%nat).
  { rewrite Hp at 1. rewrite length_substring_0. lia. }
  pose proof (strlen_append put data) as Hlen. unfold strlen in Hlen.
  assert (Hn : String.length (put ++ data)
               = (String.length put + String.length data)%nat) by lia.
  rewrite Hn, <- substring_take_drop by exact Hle.
  now rewrite <- Hp, <- Hd.
Qed.

Section WriteLoop.

Lemma bs_write_loop_done (calls : list wr_ret) (buf : string) (rc : Z)
  (out : string) :
  bs_write_loop calls buf 0 rc out = (0, rc, out).
Proof. destruct calls; reflexivity. Qed.

Lemma bs_write_loop_rc (calls : list wr_ret) (buf : string)
  (todo rc rc' : Z) (out : string) :
  todo <> 0 ->
  bs_write_loop calls buf todo rc out
  = bs_write_loop calls buf todo rc' out.
Proof.
  intros Hne. apply Z.eqb_neq in Hne.
  destruct calls as [|[| |n] calls]; cbn; rewrite Hne; reflexivity.
Qed.

Lemma bs_write_loop_effective (calls : list wr_ret) (buf : string)
  (todo rc : Z) (out : string) :
  bs_write_loop (wr_effective calls) buf todo rc out
  = bs_write_loop calls buf todo rc out.
Proof.
  revert buf todo rc out.
  induction calls as [|r calls IH]; intros buf todo rc out; [reflexivity|].
  destruct (Z.eqb_spec todo 0) as [->|Hne].
  { now rewrite !bs_write_loop_done. }
  pose proof Hne as Hb. apply Z.eqb_neq in Hb.
  destruct r as [| |n]; cbn; rewrite ?Hb.
  - rewrite IH. now apply bs_write_loop_rc.
  - reflexivity.
  - destruct (strlen (take_bytes _ buf) <=? 0); [reflexivity|].
    apply IH.
Qed.

(** The bytes the device took account for the decrease of [todo], and
    they are the leading bytes of the caller's buffer. *)
Lemma bs_write_loop_moved (calls : list wr_ret) (buf : string)
  (todo rc : Z) (out : string) (todo' rc' : Z) (out' : string) :
  0 <= todo ->
  bs_write_loop calls buf todo rc out = (todo', rc', out') ->
  0 <= todo' <= todo
  /\ exists data, out' = (out ++ data)%string
                  /\ strlen data = todo - todo'
                  /\ data = take_bytes (strlen data) buf.
Proof.
  revert buf todo rc out.
  induction calls as [|r calls IH]; intros buf todo rc out Hpos.
  - cbn. destruct (todo =? 0); intros [= <- <- <-]; nothing_written.
  - destruct (Z.eqb_spec todo 0) as [->|Hne].
    { rewrite bs_write_loop_done. intros [= <- <- <-]. nothing_written. }
    pose proof Hne as Hb. apply Z.eqb_neq in Hb.
    destruct r as [| |n]; cbn; rewrite Hb.
    + now apply IH.
    + intros [= <- <- <-]. nothing_written.
    + set (put := take_bytes (Z.of_nat n `min` todo) buf).
      assert (Hlen : strlen put = Z.min (Z.of_nat n `min` todo) (strlen buf))
        by (apply strlen_take_bytes; lia).
      assert (Hput : put = take_bytes (strlen put) buf).
      { rewrite Hlen. unfold put, take_bytes, strlen.
        rewrite (Z2Nat.inj_min _ (Z.of_nat _)), Nat2Z.id.
        now rewrite substring_0_min. }
      destruct (Z.leb_spec (strlen put) 0) as [Hz|Hz].
      * intros [= <- <- <-]. nothing_written.
      * intros Hloop.
        apply IH in Hloop as (Hr & data & -> & Hd & Hpre); [|lia].
        split; [lia|]. exists (put ++ data)%string.
        rewrite append_assoc, strlen_append.
        split; [reflexivity|]. split; [lia|].
        rewrite <- strlen_append. now apply take_bytes_append.
Qed.

Lemma bs_write_loop_first (calls : list wr_ret) (buf : string)
  (todo rc : Z) (out : string) :
  0 < todo ->
  match hd_error (wr_effective calls) with
  | None => bs_write_loop calls buf todo rc out = (todo, 0, out)
  | Some WrError => bs_write_loop calls buf todo rc out = (todo, -1, out)
  | Some (WrAccept n) =>
      if strlen (take_bytes (Z.min (Z.of_nat n) todo) buf) <=? 0
      then bs_write_loop calls buf todo rc out = (todo, 0, out)
      else fst (fst (bs_write_loop calls buf todo rc out)) < todo
  | Some WrEintr => False
  end.
Proof.
  intros Hpos. assert (Hb : (todo =? 0) = false) by (apply Z.eqb_neq; lia).
  revert rc. induction calls as [|r calls IH]; intros rc; cbn.
  - now rewrite Hb.
  - destruct r as [| |n]; cbn; rewrite Hb.
    + apply IH.
    + reflexivity.
    + pose proof (strlen_nonneg (take_bytes (Z.of_nat n `min` todo) buf))
        as Hc.
      destruct (Z.leb_spec
                  (strlen (take_bytes (Z.of_nat n `min` todo) buf)) 0)
        as [Hz|Hz].
      * f_equal. f_equal. lia.
      * pose proof (strlen_take_bytes (Z.of_nat n `min` todo) buf
                      ltac:(lia)) as Hlen.
        destruct (bs_write_loop calls _ _ _ _) as [[todo' rc'] out']
          eqn:Hl.
        apply bs_write_loop_moved in Hl as [Hr _]; [cbn; lia | lia].
Qed.

End WriteLoop.

(** [bs_write], by what the device does.  [out] is what reached the
    device. *)
Lemma bs_write_spec (f : wr_file) (buf : string) (count ret : Z)
  (out : string) :
  0 < count ->
  bs_write f buf count = (ret, out) ->
  strlen out <= count
  /\ out = take_bytes (strlen out) buf
  /\ (out <> EmptyString -> ret = strlen out)
  /\ (out = EmptyString -> ret = 0 \/ ret = -1)
  /\ (ret < 0 <-> wr_opens f = false \/ wr_fails_first f).
Proof.
  intros Hpos. unfold bs_write, wr_fails_first.
  destruct (wr_opens f); cbn [negb].
  2:{ intros [= <- <-]. change (strlen EmptyString) with 0.
      rewrite take_bytes_0. repeat split; try lia; try tauto. }
  destruct (bs_write_loop _ _ _ _ _) as [[todo' rc'] out'] eqn:Hl.
  pose proof (bs_write_loop_first (wr_calls f) buf count 0 EmptyString Hpos)
    as Hfirst.
  pose proof Hl as Hm.
  apply bs_write_loop_moved in Hm as (Hr & d & -> & Hd & Hpre); [|lia].
  change (EmptyString ++ d)%string with d.
  rewrite Hl in Hfirst. cbn [fst] in Hfirst.
  intros [= <- <-].
  split; [lia|]. split; [exact Hpre|].
  destruct (Z.eqb_spec (count - todo') 0) as [Hz|Hnz].
  - assert (Hd0 : d = EmptyString) by (apply strlen_zero; lia).
    destruct (hd_error (wr_effective (wr_calls f))) as [[| |n]|].
    + contradiction.
    + injection Hfirst as _ Hrc _. subst rc'.
      split; [tauto|]. split; [intros _; now right|].
      split; [intros _; now right | lia].
    + destruct (strlen (take_bytes _ buf) <=? 0); [|lia].
      injection Hfirst as _ Hrc _. subst rc'.
      split; [tauto|]. split; [intros _; now left|].
      split; [lia | intros [|]; discriminate].
    + injection Hfirst as _ Hrc _. subst rc'.
      split; [tauto|]. split; [intros _; now left|].
      split; [lia | intros [|]; discriminate].
  - assert (Hd0 : d <> EmptyString).
    { intros He. apply strlen_zero in He. lia. }
    split; [intros _; lia|]. split; [tauto|].
    split; [lia|].
    intros [Ho|Hf]; [discriminate|]. rewrite Hf in Hfirst.
    injection Hfirst as Ht _ _. lia.
Qed.

Lemma bs_write_effective (f : wr_file) (buf : string) (count : Z) :
  bs_write (wr_uninterrupted f) buf count = bs_write f buf count.
Proof.
  unfold bs_write, wr_uninterrupted. cbn [wr_opens wr_calls].
  now rewrite bs_write_loop_effective.
Qed.

(** C3, the claim as stated fails: on a request of 5 bytes, a device that
    opens and whose first call transfers nothing makes [bs_read] and
    [bs_write] return 0 with no byte moved, and 0 does not pass the
    callers' test [ret < 0]. *)
Lemma transfer_zero_counterexample :
  bs_read {| rd_opens := true; rd_calls := [RdData ""] |} 5
  = (0, EmptyString)
  /\ bs_write {| wr_opens := true; wr_calls := [WrAccept 0] |} "hello" 5
     = (0, EmptyString)
  /\ (0 <? 0) = false.
Proof. vm_compute. auto. Qed.

(** C3, amended: for a non-empty request, [bs_read] and [bs_write] return
    the number of bytes transferred whenever a byte was moved; interrupted
    calls are retried and leave no mark on the result; the result is
    negative (what the callers take as failure) exactly when [open] fails
    or the first call that is not interrupted fails with an error; when
    nothing was moved the result is 0 or -1, and it is 0 when the call
    itself reported that nothing was transferred. *)
Theorem transfer_results (count : Z) :
  0 < count ->
  (forall f ret data, bs_read f count = (ret, data) ->
     strlen data <= count
     /\ (data <> EmptyString -> ret = strlen data)
     /\ (data = EmptyString -> ret = 0 \/ ret = -1)
     /\ (ret < 0 <-> rd_opens f = false \/ rd_fails_first f))
  /\ (forall f buf ret out, bs_write f buf count = (ret, out) ->
     strlen out <= count
     /\ out = take_bytes (strlen out) buf
     /\ (out <> EmptyString -> ret = strlen out)
     /\ (out = EmptyString -> ret = 0 \/ ret = -1)
     /\ (ret < 0 <-> wr_opens f = false \/ wr_fails_first f))
  /\ (forall f, bs_read (rd_uninterrupted f) count = bs_read f count)
  /\ (forall f buf,
        bs_write (wr_uninterrupted f) buf count = bs_write f buf count)
  /\ (forall f, rd_opens f = false -> bs_read f count = (-1, EmptyString))
  /\ (forall f buf, wr_opens f = false ->
        bs_write f buf count = (-1, EmptyString)).
Proof.
  intros Hpos.
  split; [intros f ret data; now apply bs_read_spec|].
  split; [intros f buf ret out; now apply bs_write_spec|].
  split; [intros f; apply bs_read_effective|].
  split; [intros f buf; apply bs_write_effective|].
  split.
  - intros f Ho. unfold bs_read. now rewrite Ho.
  - intros f buf Ho. unfold bs_write. now rewrite Ho.
Qed.

(** A read of up to 8 bytes that is interrupted twice and then gets the
    line in two pieces. *)
Lemma transfer_results_witness :
  0 < 8
  /\ bs_read {| rd_opens := true;
                rd_calls := [RdEintr; RdData "0 2"; RdEintr; RdData " 100"] |}
       8 = (7, "0 2 100"%string)
  /\ bs_read {| rd_opens := true;
                rd_calls := [RdData "0 2"; RdData " 100"] |} 8
     = (7, "0 2 100"%string).
Proof.
  assert (Hpos : 0 < 8) by lia.
  destruct (transfer_results 8 Hpos) as (_ & _ & Heff & _).
  split; [exact Hpos|].
  split; [|reflexivity].
  rewrite <- Heff. reflexivity.
Defined.

(** ** The poll loop *)

Section PollLoop.
Context {hdr : headers}.

(** The three ways an iteration of the poll loop can go. *)
Lemma poll_step_cases (t : tick) (v : vars) :
  (tick_sigint t = true
   /\ poll_step t v
      = (StepCancel, [EvSigint true; EvWrite Ctrl deactivate_msg]))
  \/ (tick_sigint t = false
      /\ exists s, poll_step t v = (s, [EvSigint false; EvRead Ctrl])
                   /\ (forall v', s <> StepAgain v') /\ s <> StepCancel)
  \/ (tick_sigint t = false
      /\ exists v' a,
           poll_step t v
           = (StepAgain v', [EvSigint false; EvRead Ctrl; EvSleep])
           /\ status v' = Some a /\ a <> 0).
Proof.
  unfold poll_step. destruct (tick_sigint t); [left; split; reflexivity|].
  right. destruct (bs_read _ _) as [ret buf].
  destruct (ret <? 0).
  { left. split; [reflexivity|]. exists StepReadFailed.
    repeat split; intros; discriminate. }
  destruct (status (scan_status (c_str buf) v)) as [a|] eqn:Hs.
  2:{ left. split; [reflexivity|]. exists StepUndefined.
      repeat split; intros; discriminate. }
  destruct (Z.eqb_spec a 0) as [->|Hne].
  - left. split; [reflexivity|]. eexists.
    split; [reflexivity|]. split; intros; discriminate.
  - right. split; [reflexivity|]. eexists _, a. repeat split; assumption.
Qed.

(** A loop that is still running after at least one iteration holds a
    non-zero [status]. *)
Lemma poll_running_status (ts : list tick) (v v' : vars)
  (tr : list event) :
  ts <> [] ->
  poll ts v = (StepAgain v', tr) ->
  exists a, status v' = Some a /\ a <> 0.
Proof.
  revert v tr. induction ts as [|t ts IH]; intros v tr Hne; [easy|].
  cbn [poll].
  destruct (poll_step_cases t v)
    as [[_ Hc]|[(_ & s & Hc & Hs & _)|(_ & v1 & a & Hc & Ha & Hnz)]];
    rewrite Hc.
  - discriminate.
  - destruct s; try discriminate. now destruct (Hs v0).
  - destruct ts as [|t' ts].
    + cbn. intros [= <- _]. now exists a.
    + destruct (poll (t' :: ts) v1) as [s' tr'] eqn:Hp.
      intros [= -> _]. eapply IH; [discriminate | exact Hp].
Qed.

(** Polling through [ts] and then through [ts']. *)
Lemma poll_app (ts ts' : list tick) (v : vars) :
  poll (ts ++ ts') v
  = match poll ts v with
    | (StepAgain v', tr) =>
        let '(s, tr') := poll ts' v' in (s, tr ++ tr')
    | r => r
    end.
Proof.
  revert v. induction ts as [|t ts IH]; intros v.
  - cbn. now destruct (poll ts' v).
  - cbn [app poll]. destruct (poll_step t v) as [[| | |v1|v1] tr];
      try reflexivity.
    rewrite IH. destruct (poll ts v1) as [[| | |v2|v2] tr2];
      try reflexivity.
    destruct (poll ts' v2) as [s3 tr3]. now rewrite app_assoc.
Qed.

(** What the poll loop leaves in the trace: nothing but quiet events,
    followed, when it was cancelled, by the check that saw the signal and
    the deactivate write. *)
Lemma poll_trace (ts : list tick) (v : vars) (s : step)
  (tr : list event) :
  poll ts v = (s, tr) ->
  match s with
  | StepCancel =>
      exists tr0,
        tr = tr0 ++ [EvSigint true; EvWrite Ctrl deactivate_msg]
        /\ forallb quiet_poll_event tr0 = true
  | _ => forallb quiet_poll_event tr = true
  end.
Proof.
  revert v s tr. induction ts as [|t ts IH]; intros v s tr.
  - cbn. intros [= <- <-]. reflexivity.
  - cbn [poll].
    destruct (poll_step_cases t v)
      as [[_ Hc]|[(_ & s1 & Hc & Hs & Hs')|(_ & v1 & a & Hc & _)]];
      rewrite Hc.
    + intros [= <- <-]. now exists [].
    + destruct s1 as [| | |v0|v0];
        [now destruct Hs' | | | | now destruct (Hs v0)];
        cbn; intros [= <- <-]; reflexivity.
    + destruct (poll ts v1) as [s2 tr2] eqn:Hp. intros [= <- <-].
      apply IH in Hp. destruct s2; try exact Hp.
      destruct Hp as (tr0 & -> & Hq).
      exists ([EvSigint false; EvRead Ctrl; EvSleep] ++ tr0).
      split; [now rewrite <- app_assoc | exact Hq].
Qed.

End PollLoop.

Lemma scan_status_status `{hdr : headers} (line : string) (v : vars) :
  status (scan_status line v)
  = match sscanf LONG_MAX line "%d%d%d" with
    | [] => status v
    | a :: _ => Some a
    end.
Proof.
  unfold scan_status.
  destruct (sscanf LONG_MAX line "%d%d%d") as [|a [|b [|c rest]]];
    reflexivity.
Qed.

Lemma scan_status_nothing `{hdr : headers} (line : string) (v : vars) :
  sscanf LONG_MAX line "%d%d%d" = [] -> scan_status line v = v.
Proof. unfold scan_status. now intros ->. Qed.

(** C6, the claim as stated fails: the status line "0" does not parse as
    three integers, yet the poll loop ends on it, and the candidate loop
    then runs with the count 5 left over from the line before (five
    records are selected and read). *)
Lemma malformed_status_counterexample :
  let ts := [ {| tick_sigint := false; tick_ctrl := rd_line "1 5 10" |};
              {| tick_sigint := false; tick_ctrl := rd_line "0" |} ] in
  let w := {| ctrl_readable := true; info_readable := true;
              submit := wr_accepting; ticks := ts;
              visits := fun _ => {| visit_sigint := false;
                                    visit_select := wr_accepting;
                                    visit_info := rd_line "" |} |} in
  length (sscanf (@LONG_MAX linux_headers) "0" "%d%d%d") = 1%nat
  /\ fst (@poll linux_headers ts uninitialised)
     = StepDone {| status := Some 0; num_info := Some 5;
                   progress := Some 10 |}
  /\ fst (@blindscan linux_headers default_config w) = Completed
  /\ length (List.filter info_event
               (snd (@blindscan linux_headers default_config w)))
     = 10%nat.
Proof. vm_compute. auto. Qed.

(** C6, amended: on a tick after the first, with the loop still running,
    a status line from which no integer can be converted leaves the
    variables as they are, and the loop sleeps and polls again.  A line
    whose first integer converts is acted on by that integer alone,
    however many integers follow: non-zero sleeps and polls again, 0 ends
    polling. *)
Theorem unparsed_status_keeps_polling `{hdr : headers} (ts : list tick)
  (t : tick) (v : vars) (tr : list event) (ret : Z) (buf : string) :
  ts <> [] ->
  poll ts uninitialised = (StepAgain v, tr) ->
  tick_sigint t = false ->
  bs_read (tick_ctrl t) (BUFSIZ - 1) = (ret, buf) ->
  0 <= ret ->
  (sscanf LONG_MAX (c_str buf) "%d%d%d" = [] ->
   poll (ts ++ [t]) uninitialised
   = (StepAgain v, tr ++ [EvSigint false; EvRead Ctrl; EvSleep]))
  /\ (forall a rest,
        sscanf LONG_MAX (c_str buf) "%d%d%d" = a :: rest -> a <> 0 ->
      poll (ts ++ [t]) uninitialised
      = (StepAgain (scan_status (c_str buf) v),
         tr ++ [EvSigint false; EvRead Ctrl; EvSleep]))
  /\ (forall a rest,
        sscanf LONG_MAX (c_str buf) "%d%d%d" = a :: rest -> a = 0 ->
      poll (ts ++ [t]) uninitialised
      = (StepDone (scan_status (c_str buf) v),
         tr ++ [EvSigint false; EvRead Ctrl])).
Proof.
  intros Hne Hrun Hsig Hread Hret.
  destruct (poll_running_status ts uninitialised v tr Hne Hrun)
    as (s & Hs & Hnz).
  assert (Hlt : (ret <? 0) = false) by (apply Z.ltb_ge; lia).
  assert (Hstep : forall v' (s' : step) tail,
             poll_step t v = (s', tail) ->
             (forall v'', s' <> StepAgain v'') \/ s' = StepAgain v' ->
             poll (ts ++ [t]) uninitialised
             = (match s' with StepAgain _ => StepAgain v' | _ => s' end,
                tr ++ tail)).
  { intros v' s' tail Hp Hcase. rewrite poll_app, Hrun. cbn [poll].
    rewrite Hp. destruct Hcase as [Hno| ->].
    - destruct s' as [| | |vd|va]; rewrite ?app_nil_r; try reflexivity.
      now destruct (Hno va).
    - now rewrite app_nil_r. }
  unfold poll_step in Hstep. rewrite Hsig, Hread, Hlt in Hstep.
  rewrite scan_status_status in Hstep.
  split; [|split].
  - intros Hnone. rewrite Hnone, Hs in Hstep.
    rewrite (scan_status_nothing _ _ Hnone) in Hstep.
    apply Z.eqb_neq in Hnz. rewrite Hnz in Hstep.
    apply (Hstep v _ _ eq_refl). now right.
  - intros a rest Hsome Ha. rewrite Hsome in Hstep.
    apply Z.eqb_neq in Ha. rewrite Ha in Hstep.
    apply (Hstep _ _ _ eq_refl). now right.
  - intros a rest Hsome ->. rewrite Hsome in Hstep. cbn in Hstep.
    apply (Hstep v _ _ eq_refl). left. intros v''. discriminate.
Qed.

(** After the line "1 0 10", a line of garbage keeps the loop polling
    with the variables of the line before. *)
Lemma unparsed_status_keeps_polling_witness :
  let t1 := {| tick_sigint := false; tick_ctrl := rd_line "1 0 10" |} in
  let t2 := {| tick_sigint := false; tick_ctrl := rd_line "busy" |} in
  let v := {| status := Some 1; num_info := Some 0; progress := Some 10 |} in
  @poll linux_headers ([t1] ++ [t2]) uninitialised
  = (StepAgain v,
     [EvSigint false; EvRead Ctrl; EvSleep]
     ++ [EvSigint false; EvRead Ctrl; EvSleep]).
Proof.
  intros t1 t2 v.
  refine (proj1 (@unparsed_status_keeps_polling linux_headers [t1] t2 v
                   [EvSigint false; EvRead Ctrl; EvSleep] 4 "busy"
                   _ _ _ _ _) _).
  - discriminate.
  - reflexivity.
  - reflexivity.
  - reflexivity.
  - lia.
  - reflexivity.
Defined.

(** ** Cancellation *)

Lemma request_is_not_deactivate (cfg : config) :
  request_msg cfg <> deactivate_msg.
Proof. unfold request_msg, deactivate_msg. discriminate. Qed.

Lemma quiet_poll_event_facts (tr : list event) :
  forallb quiet_poll_event tr = true ->
  ~ In (EvSigint true) tr
  /\ (forall msg, ~ In (EvWrite Ctrl msg) tr)
  /\ (forall ev, In ev tr -> info_event ev = false).
Proof.
  rewrite forallb_forall. intros Hq. repeat split.
  - intros Hin. apply Hq in Hin. discriminate.
  - intros msg Hin. apply Hq in Hin. discriminate.
  - intros ev Hin. apply Hq in Hin. now destruct ev as [[]|[]?|[]| |].
Qed.

Lemma quiet_candidate_event_facts (tr : list event) :
  forallb quiet_candidate_event tr = true ->
  ~ In (EvSigint true) tr /\ (forall msg, ~ In (EvWrite Ctrl msg) tr).
Proof.
  rewrite forallb_forall. intros Hq. split.
  - intros Hin. apply Hq in Hin. discriminate.
  - intros msg Hin. apply Hq in Hin. discriminate.
Qed.

Section CandidateLoop.
Context {hdr : headers}.

Lemma candidate_body_quiet (cfg : config) (vi : visit) (i : Z) :
  forallb quiet_candidate_event (candidate_body cfg vi i) = true.
Proof.
  unfold candidate_body, read_candidate.
  destruct (bs_write _ _ _) as [wret out].
  destruct (wret <? 0); [reflexivity|].
  destruct (bs_read _ _) as [ret resp].
  destruct (ret <? 0); [reflexivity|].
  destruct (parse_candidate _ _); reflexivity.
Qed.

(** The candidate loop either visits all the indices, or stops at the
    check that saw the signal; nothing follows that check. *)
Lemma candidates_trace (cfg : config) (vs : Z -> visit) (n : nat)
  (i : Z) (e : exit) (tr : list event) :
  candidates cfg vs n i = (e, tr) ->
  (e = Completed /\ forallb quiet_candidate_event tr = true)
  \/ (e = Interrupted
      /\ exists tr0, tr = tr0 ++ [EvSigint true]
                     /\ forallb quiet_candidate_event tr0 = true).
Proof.
  revert i e tr. induction n as [|n IH]; intros i e tr; cbn [candidates].
  - intros [= <- <-]. now left.
  - destruct (visit_sigint (vs i)).
    + intros [= <- <-]. right. split; [reflexivity|]. now exists [].
    + destruct (candidates cfg vs n (i + 1)) as [e' tr'] eqn:Hc.
      intros [= <- <-].
      pose proof (candidate_body_quiet cfg (vs i) i) as Hb.
      destruct (IH _ _ _ Hc) as [[-> Hq]|(-> & tr0 & -> & Hq)].
      * left. split; [reflexivity|]. cbn [forallb quiet_candidate_event].
        now rewrite forallb_app, Hb, Hq.
      * right. split; [reflexivity|].
        exists (EvSigint false :: candidate_body cfg (vs i) i ++ tr0).
        split; [now rewrite <- app_comm_cons, <- app_assoc|].
        cbn [forallb quiet_candidate_event].
        now rewrite forallb_app, Hb, Hq.
Qed.

(** A session that reaches the poll loop and sees the signal at the top
    of an iteration deactivates the scan and returns. *)
Lemma blindscan_cancelled_in_poll (cfg : config) (w : world)
  (pre post : list tick) (t : tick) (v : vars) (tr0 : list event) :
  ctrl_readable w = true ->
  info_readable w = true ->
  0 <= fst (bs_write (submit w) (request_msg cfg)
              (strlen (request_msg cfg))) ->
  ticks w = pre ++ t :: post ->
  poll pre uninitialised = (StepAgain v, tr0) ->
  tick_sigint t = true ->
  blindscan cfg w
  = (Cancelled,
     EvWrite Ctrl (request_msg cfg)
     :: tr0 ++ [EvSigint true; EvWrite Ctrl deactivate_msg]).
Proof.
  intros Hc Hi Hret Hticks Hpre Hsig. unfold blindscan.
  rewrite Hc, Hi. cbn [negb].
  destruct (bs_write _ _ _) as [ret out]. cbn [fst] in Hret.
  assert (Hlt : (ret <? 0) = false) by (apply Z.ltb_ge; lia).
  rewrite Hlt, Hticks, poll_app, Hpre. cbn [poll].
  unfold poll_step. now rewrite Hsig.
Qed.

(** Every run in which the signal was seen. *)
Lemma blindscan_signal_seen (cfg : config) (w : world) (e : exit)
  (tr : list event) :
  blindscan cfg w = (e, tr) ->
  In (EvSigint true) tr ->
  (e = Cancelled
   /\ exists tr0,
        tr = EvWrite Ctrl (request_msg cfg)
             :: tr0 ++ [EvSigint true; EvWrite Ctrl deactivate_msg]
        /\ forallb quiet_poll_event tr0 = true)
  \/ (e = Interrupted
      /\ exists tr1 tr2,
           tr = EvWrite Ctrl (request_msg cfg)
                :: tr1 ++ tr2 ++ [EvSigint true]
           /\ forallb quiet_poll_event tr1 = true
           /\ forallb quiet_candidate_event tr2 = true).
Proof.
  unfold blindscan.
  destruct (ctrl_readable w); cbn [negb]; [|intros [= <- <-] []].
  destruct (info_readable w); cbn [negb]; [|intros [= <- <-] []].
  destruct (bs_write _ _ _) as [ret out].
  destruct (ret <? 0).
  { intros [= <- <-] [Hin|[]]. discriminate. }
  destruct (poll (ticks w) uninitialised) as [s ptr] eqn:Hp.
  apply poll_trace in Hp.
  assert (Hquiet : forallb quiet_poll_event ptr = true ->
                   ~ In (EvSigint true)
                       (EvWrite Ctrl (request_msg cfg) :: ptr)).
  { intros Hq [Hin|Hin]; [discriminate|].
    now apply quiet_poll_event_facts in Hq as [Hq _]. }
  destruct s as [| | |v|v].
  - destruct Hp as (tr0 & -> & Hq). intros [= <- <-] _. left.
    split; [reflexivity|]. now exists tr0.
  - intros [= <- <-] Hin. now destruct (Hquiet Hp).
  - intros [= <- <-] Hin. now destruct (Hquiet Hp).
  - destruct (num_info v) as [n|].
    2:{ intros [= <- <-] Hin. now destruct (Hquiet Hp). }
    destruct (candidates cfg (visits w) (Z.to_nat n) 0) as [e' ctr]
      eqn:Hc.
    intros [= <- <-] Hin.
    destruct (candidates_trace _ _ _ _ _ _ Hc)
      as [[-> Hq]|(-> & tr0 & -> & Hq)].
    + exfalso. destruct Hin as [Hin|Hin]; [discriminate|].
      apply in_app_iff in Hin as [Hin|Hin].
      * now apply quiet_poll_event_facts in Hp as [Hp _].
      * now apply quiet_candidate_event_facts in Hq as [Hq _].
    + right. split; [reflexivity|]. now exists ptr, tr0.
  - intros [= <- <-] Hin. now destruct (Hquiet Hp).
Qed.

End CandidateLoop.

(** C2, the claim as stated fails: the poll loop ends on "0 2 100", record
    0 is read and printed, and the signal is seen in the condition of the
    candidate loop before index 1.  The session returns there; the
    deactivate message is never written. *)
Lemma cancellation_counterexample :
  let w :=
    {| ctrl_readable := true; info_readable := true;
       submit := wr_accepting;
       ticks := [ {| tick_sigint := false;
                     tick_ctrl := rd_line "0 2 100" |} ];
       visits := fun i =>
         if i =? 0 then
           {| visit_sigint := false; visit_select := wr_accepting;
              visit_info := rd_line record_0 |}
         else
           {| visit_sigint := true; visit_select := wr_accepting;
              visit_info := rd_line record_1 |} |} in
  @blindscan linux_headers default_config w
  = (Interrupted,
     [ EvWrite Ctrl "1 950 1950 2 45";
       EvSigint false; EvRead Ctrl;
       EvSigint false; EvWrite Info "0"; EvRead Info;
       EvEmit ("OK HORIZONTAL 10950000 27500000 DVB-S INVERSION_OFF"
               ++ " PILOT_ON FEC_3_4 QPSK ROLLOFF_35 0 0 0" ++ NL);
       EvSigint true ])
  /\ In (EvSigint true) (snd (@blindscan linux_headers default_config w))
  /\ ~ In (EvWrite Ctrl deactivate_msg)
         (snd (@blindscan linux_headers default_config w)).
Proof.
  intros w. vm_compute.
  split; [reflexivity|]. split; [intuition|].
  intuition discriminate.
Qed.

(** C2, amended: when the signal is seen at the top of a poll iteration,
    the session writes the deactivate message to the control file as its
    last action and returns without touching the info file; seen before
    the first poll read, the session does the request write, the
    deactivate write and nothing else.  When the signal is seen in the
    condition of the candidate loop, the session returns at once and no
    deactivate message is written.  These are the only runs in which the
    signal is seen. *)
Theorem cancellation_deactivates `{hdr : headers} (cfg : config)
  (w : world) :
  (forall e tr,
     blindscan cfg w = (e, tr) ->
     In (EvSigint true) tr ->
     (e = Cancelled
      /\ (exists tr0,
            tr = tr0 ++ [EvSigint true; EvWrite Ctrl deactivate_msg]
            /\ ~ In (EvSigint true) tr0)
      /\ (forall ev, In ev tr -> info_event ev = false))
     \/ (e = Interrupted
         /\ (exists tr0, tr = tr0 ++ [EvSigint true]
                         /\ ~ In (EvSigint true) tr0)
         /\ ~ In (EvWrite Ctrl deactivate_msg) tr))
  /\ (forall pre t post v tr0,
        ctrl_readable w = true ->
        info_readable w = true ->
        0 <= fst (bs_write (submit w) (request_msg cfg)
                    (strlen (request_msg cfg))) ->
        ticks w = pre ++ t :: post ->
        poll pre uninitialised = (StepAgain v, tr0) ->
        tick_sigint t = true ->
        blindscan cfg w
        = (Cancelled,
           EvWrite Ctrl (request_msg cfg)
           :: tr0 ++ [EvSigint true; EvWrite Ctrl deactivate_msg]))
  /\ (forall t post,
        ctrl_readable w = true ->
        info_readable w = true ->
        0 <= fst (bs_write (submit w) (request_msg cfg)
                    (strlen (request_msg cfg))) ->
        ticks w = t :: post ->
        tick_sigint t = true ->
        blindscan cfg w
        = (Cancelled,
           [ EvWrite Ctrl (request_msg cfg);
             EvSigint true; EvWrite Ctrl deactivate_msg ])).
Proof.
  split; [|split].
  - intros e tr Hrun Hseen.
    destruct (blindscan_signal_seen cfg w e tr Hrun Hseen)
      as [(-> & tr0 & -> & Hq)|(-> & tr1 & tr2 & -> & Hq1 & Hq2)].
    + left. split; [reflexivity|].
      apply quiet_poll_event_facts in Hq as (Hns & _ & Hni).
      split.
      * exists (EvWrite Ctrl (request_msg cfg) :: tr0).
        split; [reflexivity|]. intros [Hin|Hin]; [discriminate | tauto].
      * intros ev [<-|Hin]; [reflexivity|].
        apply in_app_iff in Hin as [Hin|[<-|[<-|[]]]];
          [now apply Hni | reflexivity | reflexivity].
    + right. split; [reflexivity|].
      apply quiet_poll_event_facts in Hq1 as (Hns1 & Hnw1 & _).
      apply quiet_candidate_event_facts in Hq2 as (Hns2 & Hnw2).
      split.
      * exists (EvWrite Ctrl (request_msg cfg) :: tr1 ++ tr2).
        split; [now rewrite <- app_comm_cons, <- app_assoc|].
        intros [Hin|Hin]; [discriminate|].
        apply in_app_iff in Hin as [Hin|Hin]; tauto.
      * intros [Hin|Hin].
        { apply (request_is_not_deactivate cfg). congruence. }
        apply in_app_iff in Hin as [Hin|Hin]; [now apply Hnw1 in Hin|].
        apply in_app_iff in Hin as [Hin|[Hin|[]]];
          [now apply Hnw2 in Hin | discriminate].
  - intros pre t post v tr0. apply blindscan_cancelled_in_poll.
  - intros t post Hc Hi Hret Hticks Hsig.
    apply (blindscan_cancelled_in_poll cfg w [] post t uninitialised []);
      try assumption. reflexivity.
Qed.

(** The signal is already there when the session starts polling: the
    request, then the deactivate message, and no read at all. *)
Lemma cancellation_deactivates_witness :
  let w :=
    {| ctrl_readable := true; info_readable := true;
       submit := wr_accepting;
       ticks := [ {| tick_sigint := true;
                     tick_ctrl := rd_line "1 0 10" |} ];
       visits := fun _ =>
         {| visit_sigint := false; visit_select := wr_accepting;
            visit_info := rd_line record_0 |} |} in
  @blindscan linux_headers default_config w
  = (Cancelled,
     [ EvWrite Ctrl (request_msg default_config);
       EvSigint true; EvWrite Ctrl deactivate_msg ]).
Proof.
  intros w.
  refine (proj2 (proj2 (@cancellation_deactivates linux_headers
                          default_config w)) _ [] _ _ _ _ _).
  - reflexivity.
  - reflexivity.
  - vm_compute. discriminate.
  - reflexivity.
  - reflexivity.
Defined.

(** ** The slot resolver *)

(** The closing loop returns the requested slot number itself or the
    initial [fe_id]: the element it picks is one that equals [slot]. *)
Lemma nim_select_result (l : list Z) (s d : Z) :
  (nim_select l s d = s /\ In s l) \/ (nim_select l s d = d /\ ~ In s l).
Proof.
  induction l as [|x l IH]; cbn; [right; tauto|].
  destruct (Z.eqb_spec x s) as [->|Hne].
  - left. split; [reflexivity | now left].
  - destruct IH as [[-> Hin]|[-> Hnin]].
    + left. split; [reflexivity | now right].
    + right. split; [reflexivity | tauto].
Qed.

(** The array keeps its four elements through every line. *)
Lemma nim_line_length `{hdr : headers} (line : string) (st st' : nim_state) :
  nim_line line st = Defined st' -> length (ids st') = length (ids st).
Proof.
  unfold nim_line.
  destruct (starts_with "NIM Socket" (c_str line)).
  { destruct (sscanf _ _ _) as [|val rest]; [discriminate|].
    destruct (_ && _); [|discriminate]. now intros [= <-]. }
  destruct (starts_with _ (c_str line)); [|now intros [= <-]].
  destruct (sscanf _ _ _) as [|val rest]; [discriminate|].
  destruct (id st) as [k|]; [|discriminate].
  destruct (k <? 4); [|discriminate].
  intros [= <-]. cbn [ids]. apply length_insert.
Qed.

Lemma nim_lines_length `{hdr : headers} (lines : list string)
  (st st' : nim_state) :
  nim_lines lines st = Defined st' -> length (ids st') = length (ids st).
Proof.
  revert st. induction lines as [|line lines IH]; intros st; cbn.
  - now intros [= <-].
  - destruct (nim_line line st) as [st1|] eqn:Hl; [|discriminate].
    intros Hr. apply IH in Hr. apply nim_line_length in Hl. lia.
Qed.

(** A device line met before any socket line stores through the
    uninitialised pointer [id]. *)
Lemma nim_line_device_first `{hdr : headers} (line : string) (st : nim_state) :
  starts_with "NIM Socket" (c_str line) = false ->
  starts_with (TAB ++ "Frontend_Device") (c_str line) = true ->
  id st = None ->
  nim_line line st = Undefined.
Proof.
  intros Hs Hd Hid. unfold nim_line. rewrite Hs, Hd, Hid.
  now destruct (sscanf _ _ _).
Qed.

(** C8, the code departs from the claim: the table has four elements, all
    -1 at the start, and keeps four elements; but the pointer [id] starts
    uninitialised, and a device line that comes before any socket line is
    not skipped: the store [*id = val] goes through that pointer, so the
    run has no defined result. *)
Theorem nim_sockets_device_line_without_socket `{hdr : headers} :
  ids nim_init = [-1; -1; -1; -1]
  /\ id nim_init = None
  /\ (forall lines st, nim_lines lines nim_init = Defined st ->
        length (ids st) = 4%nat)
  /\ nim_line (TAB ++ "Frontend_Device: 0" ++ NL) nim_init = Undefined
  /\ (forall cfg rest,
        nim_sockets cfg
          (Some ((TAB ++ "Frontend_Device: 0" ++ NL)%string :: rest))
        = Undefined).
Proof.
  split; [reflexivity|]. split; [reflexivity|].
  split.
  { intros lines st Hr. now apply nim_lines_length in Hr. }
  assert (Hl : nim_line (TAB ++ "Frontend_Device: 0" ++ NL) nim_init
               = Undefined)
    by (now apply nim_line_device_first).
  split; [exact Hl|].
  intros cfg rest. unfold nim_sockets. cbn [nim_lines]. now rewrite Hl.
Qed.

(** ** End to end *)

(** The control file answers "1 0 10", "1 0 55", "0 2 100" and the info
    file holds two valid records: two lines are printed, in the order of
    the indices. *)
Example blindscan_two_records :
  let w :=
    {| ctrl_readable := true; info_readable := true;
       submit := wr_accepting;
       ticks := [ {| tick_sigint := false; tick_ctrl := rd_line "1 0 10" |};
                  {| tick_sigint := false; tick_ctrl := rd_line "1 0 55" |};
                  {| tick_sigint := false;
                     tick_ctrl := rd_line "0 2 100" |} ];
       visits := fun i =>
         {| visit_sigint := false; visit_select := wr_accepting;
            visit_info := rd_line (if i =? 0 then record_0 else record_1) |}
    |} in
  fst (@blindscan linux_headers default_config w) = Completed
  /\ List.filter (fun ev => match ev with EvEmit _ => true | _ => false end)
       (snd (@blindscan linux_headers default_config w))
     = [ EvEmit ("OK HORIZONTAL 10950000 27500000 DVB-S INVERSION_OFF"
                 ++ " PILOT_ON FEC_3_4 QPSK ROLLOFF_35 0 0 0" ++ NL);
         EvEmit ("OK HORIZONTAL 11200000 3000000 DVB-S2 INVERSION_ON"
                 ++ " PILOT_OFF FEC_3_5 8PSK ROLLOFF_20 1 5 262143 3 4096"
                 ++ NL) ].
Proof. vm_compute. split; reflexivity. Qed.

(** A response with 13 fields, and one with another index, give no record;
    text after the 14th field is not looked at. *)
Example parse_candidate_examples :
  @parse_candidate linux_headers record_0 0 <> None
  /\ @parse_candidate linux_headers
       "0 1200000 27500000 5 0 0 3 0 0 0 0 0 -1" 0 = None
  /\ @parse_candidate linux_headers record_0 1 = None
  /\ @parse_candidate linux_headers (record_0 ++ " 77 trailing") 0
     = @parse_candidate linux_headers record_0 0.
Proof. vm_compute. repeat split; congruence. Qed.

(** ** Printing and scanning decimal integers *)

Lemma scan_digits_cons (acc : Z) (c : ascii) (s : string) :
  isdigit c = true ->
  scan_digits acc (String c s) = scan_digits (10 * acc + digit_val c) s.
Proof. intros H. cbn [scan_digits]. now rewrite H. Qed.

Lemma scan_digits_stop (acc : Z) (s : string) :
  no_leading_digit s -> scan_digits acc s = (acc, s).
Proof. destruct s as [|c s]; cbn; [reflexivity|]. now intros ->. Qed.

(** Scanning the digits that [sprintf] printed gives their value back and
    stops where the printed number ends. *)
Lemma scan_digits_string_of_uint (d : Decimal.uint) (acc : Z)
  (rest : string) :
  no_leading_digit rest ->
  scan_digits acc (NilEmpty.string_of_uint d ++ rest) = (uint_acc acc d, rest).
Proof.
  intros Hrest. revert acc.
  induction d as [|d IH|d IH|d IH|d IH|d IH|d IH|d IH|d IH|d IH|d IH];
    intros acc; cbn [NilEmpty.string_of_uint uint_acc];
    [now apply scan_digits_stop|..];
    rewrite append_cons, scan_digits_cons by reflexivity; apply IH.
Qed.

Lemma uint_acc_of_uint_acc (d : Decimal.uint) (p : positive) :
  Z.pos (Pos.of_uint_acc d p) = uint_acc (Z.pos p) d.
Proof.
  revert p.
  induction d as [|d IH|d IH|d IH|d IH|d IH|d IH|d IH|d IH|d IH|d IH];
    intros p; cbn [Pos.of_uint_acc uint_acc]; [reflexivity|..];
    rewrite IH; f_equal; lia.
Qed.

Lemma uint_acc_of_uint (d : Decimal.uint) :
  Z.of_N (Pos.of_uint d) = uint_acc 0 d.
Proof.
  induction d as [|d IH|d IH|d IH|d IH|d IH|d IH|d IH|d IH|d IH|d IH];
    cbn [Pos.of_uint uint_acc]; [reflexivity | exact IH |..];
    cbn [Z.of_N]; now rewrite uint_acc_of_uint_acc.
Qed.

Lemma uint_acc_to_uint (p : positive) :
  uint_acc 0 (Pos.to_uint p) = Z.pos p.
Proof.
  rewrite <- uint_acc_of_uint, DecimalPos.Unsigned.of_to. reflexivity.
Qed.

Lemma scan_int_digit (c : ascii) (s : string) :
  isdigit c = true ->
  scan_int (String c s)
  = let '(v, s3) := scan_digits (digit_val c) s in Some (v, s3).
Proof.
  intros Hd. unfold scan_int.
  assert (Hs : skip_space (String c s) = String c s).
  { cbn [skip_space].
    destruct c as [[] [] [] [] [] [] [] []]; try discriminate Hd;
      reflexivity. }
  rewrite Hs.
  destruct c as [[] [] [] [] [] [] [] []]; try discriminate Hd;
    cbn; reflexivity.
Qed.

Lemma scan_int_minus (c : ascii) (s : string) :
  isdigit c = true ->
  scan_int (String "-" (String c s))
  = let '(v, s3) := scan_digits (digit_val c) s in Some (- v, s3).
Proof.
  intros Hd. unfold scan_int. cbn [skip_space].
  change (isspace "-") with false. cbv iota. now rewrite Hd.
Qed.

(** The digits printed for a positive number, scanned as a number. *)
Lemma scan_unsigned (p : positive) (rest : string) :
  no_leading_digit rest ->
  exists c s,
    (NilEmpty.string_of_uint (Pos.to_uint p) ++ rest)%string = String c s
    /\ isdigit c = true
    /\ scan_digits (digit_val c) s = (Z.pos p, rest).
Proof.
  intros Hrest. rewrite <- (uint_acc_to_uint p).
  pose proof (DecimalPos.Unsigned.to_uint_nonnil p) as Hnn.
  destruct (Pos.to_uint p) as [|d|d|d|d|d|d|d|d|d|d]; [easy|..];
    cbn [NilEmpty.string_of_uint uint_acc]; rewrite append_cons;
    eexists _, _; (split; [reflexivity|]); (split; [reflexivity|]);
    now apply scan_digits_string_of_uint.
Qed.

Lemma fmt_d_pos (p : positive) :
  fmt_d (Z.pos p) = NilEmpty.string_of_uint (Pos.to_uint p).
Proof.
  pose proof (DecimalPos.Unsigned.to_uint_nonnil p) as Hnn.
  unfold fmt_d. cbn [Z.to_int NilZero.string_of_int].
  unfold NilZero.string_of_uint. now destruct (Pos.to_uint p).
Qed.

Lemma fmt_d_neg (p : positive) :
  fmt_d (Z.neg p) = String "-" (NilEmpty.string_of_uint (Pos.to_uint p)).
Proof.
  pose proof (DecimalPos.Unsigned.to_uint_nonnil p) as Hnn.
  unfold fmt_d. cbn [Z.to_int NilZero.string_of_int].
  unfold NilZero.string_of_uint. now destruct (Pos.to_uint p).
Qed.

(** What [%d] prints, [%d] scans back, up to where the number ends. *)
Lemma scan_int_fmt_d (z : Z) (rest : string) :
  no_leading_digit rest ->
  scan_int (fmt_d z ++ rest) = Some (z, rest).
Proof.
  intros Hrest. destruct z as [|p|p].
  - change (fmt_d 0) with "0"%string. rewrite append_cons.
    rewrite scan_int_digit by reflexivity.
    change ("" ++ rest)%string with rest.
    now rewrite scan_digits_stop.
  - rewrite fmt_d_pos.
    destruct (scan_unsigned p rest Hrest) as (c & s & -> & Hd & Hs).
    rewrite scan_int_digit by exact Hd. now rewrite Hs.
  - rewrite fmt_d_neg, append_cons.
    destruct (scan_unsigned p rest Hrest) as (c & s & -> & Hd & Hs).
    rewrite scan_int_minus by exact Hd. now rewrite Hs.
Qed.

Lemma s32_small (z : Z) : is_int z -> s32 z = z.
Proof. unfold is_int, s32. intros H. euclid. Qed.

(** ** DeviceFile I/O: partial transfers *)

Lemma take_bytes_empty (n : Z) : take_bytes n EmptyString = EmptyString.
Proof. unfold take_bytes. now destruct (Z.to_nat n). Qed.

Lemma substring_0_app (n : nat) (a b : string) :
  String.substring 0 n (a ++ b)
  = (String.substring 0 n a
     ++ String.substring 0 (n - String.length a) b)%string.
Proof.
  revert n. induction a as [|c a IH]; intros n.
  - change (String.length "") with 0%nat. rewrite Nat.sub_0_r.
    change ("" ++ b)%string with b. now destruct n.
  - rewrite append_cons. destruct n as [|n].
    + cbn [String.substring Nat.sub]. now destruct b.
    + cbn [String.substring String.length Nat.sub].
      now rewrite IH, append_cons.
Qed.

Lemma length_substring (n m : nat) (s : string) :
  String.length (String.substring n m s) = Nat.min m (String.length s - n).
Proof.
  revert n m. induction s as [|c s IH]; intros [|n] [|m]; cbn;
    try reflexivity; rewrite IH; cbn; lia.
Qed.

Lemma strlen_drop_bytes (n : Z) (s : string) :
  0 <= n <= strlen s -> strlen (drop_bytes n s) = strlen s - n.
Proof.
  intros Hn. unfold strlen, drop_bytes in *. rewrite length_substring. lia.
Qed.

Lemma wr_capacity_nonneg (calls : list wr_ret) : 0 <= wr_capacity calls.
Proof.
  induction calls as [|[| |[|n]] calls IH]; cbn [wr_capacity]; lia.
Qed.

(** The buffer filled by the read loop is the stream of the device, cut
    at the number of bytes asked for. *)
Lemma bs_read_loop_stream (calls : list rd_ret) (todo rc : Z)
  (buf : string) :
  0 <= todo ->
  snd (bs_read_loop calls todo rc buf)
  = (buf ++ take_bytes todo (rd_stream calls))%string.
Proof.
  revert todo rc buf.
  induction calls as [|r calls IH]; intros todo rc buf Hpos.
  - cbn [bs_read_loop rd_stream]. rewrite take_bytes_empty, append_empty_r.
    now destruct (todo =? 0).
  - destruct (Z.eqb_spec todo 0) as [->|Hne].
    { now rewrite bs_read_loop_done, take_bytes_0, append_empty_r. }
    pose proof Hne as Hb. apply Z.eqb_neq in Hb.
    destruct r as [| |chunk]; cbn [bs_read_loop rd_stream]; rewrite Hb.
    + now apply IH.
    + now rewrite take_bytes_empty, append_empty_r.
    + destruct chunk as [|c chunk].
      { now rewrite take_bytes_empty, append_empty_r. }
      pose proof (strlen_take_bytes todo (String c chunk) Hpos) as Hlen.
      rewrite strlen_cons in Hlen.
      pose proof (strlen_nonneg chunk) as Hc.
      destruct (Z.leb_spec (strlen (take_bytes todo (String c chunk))) 0)
        as [Hz|Hz]; [lia|].
      rewrite IH by lia. rewrite append_assoc. f_equal.
      rewrite Hlen. unfold take_bytes.
      rewrite (substring_0_app _ (String c chunk)). f_equal. f_equal.
      unfold strlen in *. cbn [String.length]. lia.
Qed.

(** The count of bytes left by the write loop, by what the device is
    ready to take. *)
Lemma bs_write_loop_capacity (calls : list wr_ret) (buf : string)
  (todo rc : Z) (out : string) :
  0 <= todo <= strlen buf ->
  fst (fst (bs_write_loop calls buf todo rc out))
  = todo - Z.min todo (wr_capacity calls).
Proof.
  revert buf todo rc out.
  induction calls as [|r calls IH]; intros buf todo rc out Hpos.
  - cbn. destruct (todo =? 0); cbn; lia.
  - destruct (Z.eqb_spec todo 0) as [->|Hne].
    { rewrite bs_write_loop_done. cbn [fst].
      pose proof (wr_capacity_nonneg (r :: calls)). lia. }
    pose proof Hne as Hb. apply Z.eqb_neq in Hb.
    pose proof (wr_capacity_nonneg calls) as Hcap.
    destruct r as [| |n]; cbn [bs_write_loop wr_capacity]; rewrite Hb.
    + now apply IH.
    + cbn. lia.
    + pose proof (strlen_take_bytes (Z.of_nat n `min` todo) buf ltac:(lia))
        as Hlen.
      destruct (Z.leb_spec (strlen (take_bytes (Z.of_nat n `min` todo) buf))
                  0) as [Hz|Hz].
      * destruct n; cbn; lia.
      * rewrite IH by (rewrite strlen_drop_bytes; lia).
        destruct n; lia.
Qed.

(** X1: when the file opens, what [bs_read] stores is the stream of bytes
    the device delivers up to its first error or end of file, cut at
    [count]: it does not depend on how the device splits the bytes over
    the calls or on interruptions in between.  When there is something to
    read, the return value is the smaller of [count] and the length of
    the stream. *)
Theorem bs_read_reassembles (f : rd_file) (count : Z) :
  0 <= count ->
  rd_opens f = true ->
  snd (bs_read f count) = take_bytes count (rd_stream (rd_calls f))
  /\ (0 < count -> rd_stream (rd_calls f) <> EmptyString ->
      fst (bs_read f count) = Z.min count (strlen (rd_stream (rd_calls f)))).
Proof.
  intros Hpos Hopen.
  assert (Hdata : snd (bs_read f count)
                  = take_bytes count (rd_stream (rd_calls f))).
  { unfold bs_read. rewrite Hopen. cbn [negb].
    pose proof (bs_read_loop_stream (rd_calls f) count 0 EmptyString Hpos)
      as Hs.
    destruct (bs_read_loop _ _ _ _) as [[todo' rc'] buf']. exact Hs. }
  split; [exact Hdata|].
  intros Hcount Hne.
  destruct (bs_read f count) as [ret data] eqn:Hr. cbn [fst snd] in *.
  apply bs_read_spec in Hr as (_ & Hret & _); [|exact Hcount].
  pose proof (strlen_take_bytes count (rd_stream (rd_calls f)) Hpos) as Hl.
  rewrite <- Hdata in Hl. rewrite <- Hl. apply Hret.
  intros He. rewrite He in Hl. change (strlen EmptyString) with 0 in Hl.
  assert (strlen (rd_stream (rd_calls f)) = 0) as Hz by lia.
  now apply strlen_zero in Hz.
Qed.

(** The status line arrives in two pieces after an interruption. *)
Lemma bs_read_reassembles_witness :
  bs_read {| rd_opens := true;
             rd_calls := [RdEintr; RdData "0 2"; RdData " 100"; RdError] |}
    5 = (5, "0 2 1"%string).
Proof.
  pose (f := {| rd_opens := true;
                rd_calls := [RdEintr; RdData "0 2"; RdData " 100";
                             RdError] |}).
  destruct (bs_read_reassembles f 5 ltac:(lia) eq_refl) as [Hd Hr].
  specialize (Hr ltac:(lia) ltac:(discriminate)).
  change (bs_read f 5 = (5, "0 2 1"%string)).
  destruct (bs_read f 5) as [ret data]. cbn [fst snd] in *.
  rewrite Hd, Hr. reflexivity.
Defined.

(** X2: when the file opens and [buf] holds at least [count] bytes, what
    [bs_write] hands to the device is the first bytes of [buf], as many
    as the device is ready to take up to its first error or refusal and
    at most [count]; when that number is positive it is the return
    value.  A device that takes [count] bytes in total, in whatever
    portions, gets all of them. *)
Theorem bs_write_delivers_prefix (f : wr_file) (buf : string) (count : Z) :
  0 <= count <= strlen buf ->
  wr_opens f = true ->
  snd (bs_write f buf count)
  = take_bytes (Z.min count (wr_capacity (wr_calls f))) buf
  /\ (0 < Z.min count (wr_capacity (wr_calls f)) ->
      fst (bs_write f buf count) = Z.min count (wr_capacity (wr_calls f))).
Proof.
  intros Hcount Hopen. unfold bs_write. rewrite Hopen. cbn [negb].
  pose proof (bs_write_loop_capacity (wr_calls f) buf count 0 EmptyString
                Hcount) as Hcap.
  destruct (bs_write_loop _ _ _ _ _) as [[todo' rc'] out'] eqn:Hl.
  cbn [fst snd] in *.
  apply bs_write_loop_moved in Hl as (Hr & d & -> & Hd & Hpre); [|lia].
  change (EmptyString ++ d)%string with d.
  assert (Hlen : strlen d = Z.min count (wr_capacity (wr_calls f))) by lia.
  split; [now rewrite <- Hlen|].
  intros Hmin. destruct (Z.eqb_spec (count - todo') 0); lia.
Qed.

(** A request of 9 bytes taken in portions of 4, 4 and 1. *)
Lemma bs_write_delivers_prefix_witness :
  bs_write {| wr_opens := true;
              wr_calls := [WrAccept 4; WrEintr; WrAccept 4; WrAccept 4] |}
    "0 0 0 0 0" 9 = (9, "0 0 0 0 0"%string).
Proof.
  pose (f := {| wr_opens := true;
                wr_calls := [WrAccept 4; WrEintr; WrAccept 4;
                             WrAccept 4] |}).
  destruct (bs_write_delivers_prefix f "0 0 0 0 0" 9
              ltac:(vm_compute; split; discriminate) eq_refl) as [Hd Hr].
  specialize (Hr ltac:(vm_compute; reflexivity)).
  change (bs_write f "0 0 0 0 0" 9 = (9, "0 0 0 0 0"%string)).
  destruct (bs_write f "0 0 0 0 0" 9) as [ret out]. cbn [fst snd] in *.
  rewrite Hd, Hr. reflexivity.
Defined.

(** X3: for every request, the return value of [bs_read] and of
    [bs_write] lies between -1 and [count], and the number of bytes
    moved is the return value when that is not negative (nothing is moved
    on -1).  On an empty request no byte is moved and the result is 0,
    or -1 when the file does not open. *)
Theorem transfer_bounds (count : Z) :
  0 <= count ->
  (forall f, - 1 <= fst (bs_read f count) <= count
             /\ strlen (snd (bs_read f count))
                = Z.max 0 (fst (bs_read f count)))
  /\ (forall f buf, - 1 <= fst (bs_write f buf count) <= count
                    /\ strlen (snd (bs_write f buf count))
                       = Z.max 0 (fst (bs_write f buf count)))
  /\ (forall f, bs_read f 0
                = (if rd_opens f then 0 else - 1, EmptyString))
  /\ (forall f buf, bs_write f buf 0
                    = (if wr_opens f then 0 else - 1, EmptyString)).
Proof.
  intros Hcount.
  assert (Hr0 : forall f, bs_read f 0
                          = (if rd_opens f then 0 else - 1, EmptyString)).
  { intros f. unfold bs_read. destruct (rd_opens f); [|reflexivity].
    cbn [negb]. now rewrite bs_read_loop_done. }
  assert (Hw0 : forall f buf, bs_write f buf 0
                              = (if wr_opens f then 0 else - 1, EmptyString)).
  { intros f buf. unfold bs_write. destruct (wr_opens f); [|reflexivity].
    cbn [negb]. now rewrite bs_write_loop_done. }
  split; [|split; [|split; assumption] ].
  - intros f. destruct (Z.eq_dec count 0) as [->|Hne].
    { rewrite Hr0. destruct (rd_opens f); cbn [fst snd];
        change (strlen EmptyString) with 0; lia. }
    destruct (bs_read f count) as [ret data] eqn:Hr. cbn [fst snd].
    apply bs_read_spec in Hr as (Hle & Hsome & Hnone & _); [|lia].
    pose proof (strlen_nonneg data) as Hnn.
    destruct (string_dec data EmptyString) as [->|Hd].
    + change (strlen EmptyString) with 0. destruct (Hnone eq_refl); lia.
    + rewrite (Hsome Hd).
      assert (strlen data <> 0) by (now rewrite strlen_zero). lia.
  - intros f buf. destruct (Z.eq_dec count 0) as [->|Hne].
    { rewrite Hw0. destruct (wr_opens f); cbn [fst snd];
        change (strlen EmptyString) with 0; lia. }
    destruct (bs_write f buf count) as [ret out] eqn:Hr. cbn [fst snd].
    apply bs_write_spec in Hr as (Hle & _ & Hsome & Hnone & _); [|lia].
    pose proof (strlen_nonneg out) as Hnn.
    destruct (string_dec out EmptyString) as [->|Hd].
    + change (strlen EmptyString) with 0. destruct (Hnone eq_refl); lia.
    + rewrite (Hsome Hd).
      assert (strlen out <> 0) by (now rewrite strlen_zero). lia.
Qed.

(** The read of [blindscan]: at most 8191 bytes, so that [buf[ret]] is
    inside the buffer of 8192. *)
Lemma transfer_bounds_witness :
  - 1 <= fst (bs_read (rd_line "0 2 100") 8191) <= 8191.
Proof.
  destruct (transfer_bounds 8191 ltac:(lia)) as (Hr & _).
  exact (proj1 (Hr (rd_line "0 2 100"))).
Defined.

(** ** Command-line numbers *)

(** X4: [get_int_arg] on a decimal number followed by anything that is
    not a digit (nothing, a unit, a stray character): the number is
    accepted when it fits a [long], and what is stored is its reduction to
    an [int]; a number outside the range of [long] is refused.  Text
    after the number is never a reason to refuse.  An argument with no
    number at its head (the empty string, a word) is refused. *)
Theorem get_int_arg_decimal (long_max z : Z) (rest : string) :
  no_leading_digit rest ->
  get_int_arg long_max (fmt_d z ++ rest)
  = (if (- long_max - 1 <=? z) && (z <=? long_max)
     then Some (s32 z) else None)
  /\ (is_int z -> 2147483647 <= long_max ->
      get_int_arg long_max (fmt_d z ++ rest) = Some z)
  /\ (forall arg, scan_int arg = None -> get_int_arg long_max arg = None).
Proof.
  intros Hrest.
  assert (Hmain : get_int_arg long_max (fmt_d z ++ rest)
                  = (if (- long_max - 1 <=? z) && (z <=? long_max)
                     then Some (s32 z) else None)).
  { unfold get_int_arg, strtol. rewrite (scan_int_fmt_d z rest Hrest).
    destruct (Z.ltb_spec long_max z) as [Hhi|Hhi].
    - rewrite Z.eqb_refl. cbn.
      destruct (Z.leb_spec z long_max); [lia|]. now rewrite andb_false_r.
    - destruct (Z.ltb_spec z (- long_max - 1)) as [Hlo|Hlo].
      + rewrite Z.eqb_refl, orb_true_r. cbn.
        destruct (Z.leb_spec (- long_max - 1) z); [lia | reflexivity].
      + cbn. destruct (Z.leb_spec (- long_max - 1) z); [|lia].
        destruct (Z.leb_spec z long_max); [reflexivity | lia]. }
  split; [exact Hmain|]. split.
  - intros Hint Hlong. rewrite Hmain, (s32_small z Hint).
    unfold is_int in Hint.
    destruct (Z.leb_spec (- long_max - 1) z); [|lia].
    destruct (Z.leb_spec z long_max); [reflexivity | lia].
  - intros arg Hnone. unfold get_int_arg, strtol. now rewrite Hnone.
Qed.

(** "-S 2", and a frequency with its unit, on a machine with a 32-bit
    [long]. *)
Lemma get_int_arg_decimal_witness :
  get_int_arg 2147483647 "2" = Some 2
  /\ get_int_arg 2147483647 "1950MHz" = Some 1950.
Proof.
  split.
  - exact (proj1 (proj2 (get_int_arg_decimal 2147483647 2 "" I))
             ltac:(unfold is_int; lia) ltac:(lia)).
  - exact (proj1 (proj2 (get_int_arg_decimal 2147483647 1950 "MHz"
                           eq_refl))
             ltac:(unfold is_int; lia) ltac:(lia)).
Defined.

(** ** Lines made of decimal numbers *)

Lemma scan_int_space (s : string) : scan_int (String " " s) = scan_int s.
Proof. reflexivity. Qed.

Lemma u32_fits (v : Z) : is_uint v -> u32 v = v.
Proof. apply u32_small. Qed.

(** A numeral in the range of the receiving variable is stored as it
    is: neither the saturation of [strtol] and [strtoul] nor the cut to
    32 bits changes it. *)
Lemma store_d_small (long_max v : Z) :
  2147483647 <= long_max -> is_int v -> store_d long_max v = v.
Proof.
  unfold store_d, is_int. intros Hw Hv.
  rewrite Z.min_r, Z.max_r by lia. now apply s32_small.
Qed.

Lemma store_u_small (long_max v : Z) :
  2147483647 <= long_max -> is_uint v -> store_u long_max v = v.
Proof.
  unfold store_u, is_uint. cbv zeta. intros Hw Hv.
  destruct (Z.ltb_spec (2 * long_max + 1) (Z.abs v)); [lia|].
  rewrite Z.mod_small by lia. now apply u32_small.
Qed.

(** Conversions applied to numbers separated by single spaces give the
    numbers back, whatever follows the last one past a non-digit. *)
Lemma scan_directives_join (long_max : Z) (ds : list directive)
  (vals : list Z) :
  2147483647 <= long_max ->
  Forall2 fits ds vals ->
  forall rest, no_leading_digit rest ->
    scan_directives long_max ds (join_decimal vals ++ rest) = vals
    /\ scan_directives long_max ds (String " " (join_decimal vals ++ rest))
       = vals.
Proof.
  intros Hwide.
  induction 1 as [|d v ds vals Hfit Hrest IH]; intros rest Hnd.
  - split; reflexivity.
  - assert (Hstore : match d with
                     | DInt => store_d long_max v = v
                     | DUInt => store_u long_max v = v
                     | _ => False
                     end).
    { destruct d; cbn in Hfit; try exact Hfit;
        [now apply store_d_small | now apply store_u_small]. }
    assert (Hone : forall tail, no_leading_digit tail ->
              scan_directives long_max (d :: ds) (fmt_d v ++ tail)
              = v :: scan_directives long_max ds tail).
    { intros tail Ht. destruct d; try contradiction;
        cbn [scan_directives]; rewrite (scan_int_fmt_d v tail Ht);
        now rewrite Hstore. }
    assert (Hjoin : exists tail,
              (join_decimal (v :: vals) ++ rest)%string
              = (fmt_d v ++ tail)%string
              /\ no_leading_digit tail
              /\ scan_directives long_max ds tail = vals).
    { destruct vals as [|w vals].
      - exists rest. inversion Hrest; subst.
        split; [reflexivity|]. split; [exact Hnd | reflexivity].
      - exists (String " " (join_decimal (w :: vals) ++ rest)).
        split; [|split; [reflexivity | now apply IH] ].
        change (join_decimal (v :: w :: vals))
          with (fmt_d v ++ " " ++ join_decimal (w :: vals))%string.
        now rewrite !append_assoc. }
    destruct Hjoin as (tail & Heq & Ht & Hvals).
    assert (Hfirst : scan_directives long_max (d :: ds)
                       (join_decimal (v :: vals) ++ rest) = v :: vals).
    { now rewrite Heq, (Hone tail Ht), Hvals. }
    split; [exact Hfirst|].
    etransitivity; [|exact Hfirst].
    destruct d; try contradiction; cbn [scan_directives];
      now rewrite scan_int_space.
Qed.

(** ** The driver's lines *)

(** X5: a status line that starts with three decimal integers separated
    by single spaces, whatever comes after them past a non-digit, sets all
    three variables, whatever they held: the first integer alone decides
    between ending the poll loop (0) and sleeping for another round, and
    the second is the candidate count the loop ends with. *)
Theorem status_line_decides `{hdr : headers} (t : tick) (v : vars)
  (ret : Z) (buf : string) (a b c : Z) (rest : string) :
  tick_sigint t = false ->
  bs_read (tick_ctrl t) (BUFSIZ - 1) = (ret, buf) ->
  0 <= ret ->
  c_str buf = (join_decimal [a; b; c] ++ rest)%string ->
  is_int a -> is_int b -> is_int c ->
  no_leading_digit rest ->
  poll_step t v
  = (if a =? 0
     then (StepDone {| status := Some a; num_info := Some b;
                       progress := Some c |},
           [EvSigint false; EvRead Ctrl])
     else (StepAgain {| status := Some a; num_info := Some b;
                        progress := Some c |},
           [EvSigint false; EvRead Ctrl; EvSleep])).
Proof.
  intros Hsig Hread Hret Hline Ha Hb Hc Hrest.
  assert (Hscan : sscanf LONG_MAX (c_str buf) "%d%d%d" = [a; b; c]).
  { rewrite Hline. unfold sscanf.
    apply (scan_directives_join LONG_MAX [DInt; DInt; DInt] [a; b; c]);
      [exact LONG_MAX_wide | | exact Hrest].
    repeat (constructor; [assumption|]). constructor. }
  unfold poll_step. rewrite Hsig, Hread.
  assert (Hlt : (ret <? 0) = false) by (apply Z.ltb_ge; lia).
  rewrite Hlt. unfold scan_status. rewrite Hscan. cbn [status].
  now destruct (a =? 0).
Qed.

(** The last answer of a scan that found two candidates. *)
Lemma status_line_decides_witness :
  @poll_step linux_headers
    {| tick_sigint := false; tick_ctrl := rd_line "0 2 100 7 8" |}
    {| status := Some 1; num_info := Some 0; progress := Some 55 |}
  = (StepDone {| status := Some 0; num_info := Some 2;
                 progress := Some 100 |},
     [EvSigint false; EvRead Ctrl]).
Proof.
  refine (@status_line_decides linux_headers _ _ 11 "0 2 100 7 8"
            0 2 100 " 7 8" _ _ _ _ _ _ _ _);
    try reflexivity; unfold is_int; lia.
Defined.

Lemma candidate_fits (c : candidate) :
  candidate_in_range c ->
  Forall2 fits (parse_format candidate_format) (fields_of c).
Proof.
  intros (Hi & Hf & Hs & Hrest).
  change (parse_format candidate_format)
    with [DInt; DUInt; DUInt; DInt; DInt; DInt; DInt; DInt; DInt; DInt;
          DInt; DInt; DInt; DInt].
  unfold fields_of.
  repeat (apply Forall_cons in Hrest as [? Hrest]).
  repeat (constructor; [assumption|]). constructor.
Qed.

(** The 14 fields of a record in decimal, followed by anything that does
    not go on with a digit, are read back as that record. *)
Lemma parse_candidate_join `{hdr : headers} (c : candidate) (rest : string)
  (i : Z) :
  candidate_in_range c ->
  no_leading_digit rest ->
  parse_candidate (join_decimal (fields_of c) ++ rest) i
  = if i =? index c then Some c else None.
Proof.
  intros Hrange Hrest. unfold parse_candidate, sscanf.
  destruct (scan_directives_join LONG_MAX _ _ LONG_MAX_wide
              (candidate_fits c Hrange) rest Hrest) as [-> _].
  assert (Hc : candidate_of (fields_of c) = Some c)
    by (now apply candidate_of_Some).
  rewrite Hc. now destruct (i =? index c).
Qed.

(** C4, the claim as stated fails: a record does not need "exactly 14
    whitespace-separated integer fields".  [sscanf] stops after its 14th
    conversion, so a response with a 15th field, or with text after the
    14th, gives the record of its first 14 fields and the line is
    printed; and a conversion ends where a sign starts, so fields that
    no white space separates are converted as well. *)
Lemma read_candidate_counterexample :
  let more := (record_0 ++ " 77")%string in
  let text := (record_0 ++ "dBm")%string in
  let signs := "0+1200000 27500000 5 0 0 3 0 0 0 0 0-1 0"%string in
  let vi := fun resp =>
    {| visit_sigint := false; visit_select := wr_accepting;
       visit_info := rd_line resp |} in
  let c0 :=
    {| index := 0; frequency := 1200000; symbol_rate := 27500000;
       delivery_system := 5; inversion := 0; pilot := 0; fec_inner := 3;
       modulation := 0; rolloff := 0; pls_mode := 0; is_id := 0;
       pls_code := 0; t2mi_plp_id := -1; t2mi_pid := 0 |} in
  fourteen_integer_fields record_0 = true
  /\ length (whitespace_fields more) = 15%nat
  /\ forallb is_integer_field (whitespace_fields more) = true
  /\ fourteen_integer_fields more = false
  /\ fourteen_integer_fields text = false
  /\ length (whitespace_fields signs) = 12%nat
  /\ fourteen_integer_fields signs = false
  /\ @parse_candidate linux_headers more 0 = Some c0
  /\ @parse_candidate linux_headers text 0 = Some c0
  /\ @parse_candidate linux_headers signs 0 = Some c0
  /\ @candidate_body linux_headers default_config (vi more) 0
     = [ EvWrite Info "0"; EvRead Info;
         EvEmit ("OK HORIZONTAL 10950000 27500000 DVB-S INVERSION_OFF"
                 ++ " PILOT_ON FEC_3_4 QPSK ROLLOFF_35 0 0 0" ++ NL) ]
  /\ @candidate_body linux_headers default_config (vi signs) 0
     = @candidate_body linux_headers default_config (vi more) 0.
Proof. vm_compute. repeat (split; [reflexivity|]). reflexivity. Qed.

(** C4, amended: a response yields a record exactly when [sscanf]
    converted 14 integer fields from its start and the index the record
    reports is the requested one; the record then holds those 14 values.
    What follows the 14th field is not examined: the 14 fields of a record
    in decimal are accepted whatever comes after them past a non-digit.  A
    response from which fewer than 14 fields convert, or with another
    index, yields nothing, never a record filled in part; and the
    candidate loop prints a line for an index only when a record came
    out. *)
Theorem read_candidate_valid `{hdr : headers} (resp : string) (i : Z) :
  let vals := sscanf LONG_MAX resp candidate_format in
  (length vals <= 14)%nat
  /\ (forall c, parse_candidate resp i = Some c <->
        length vals = 14%nat /\ candidate_of vals = Some c /\ index c = i)
  /\ (forall c, parse_candidate resp i = Some c ->
        vals = [index c; frequency c; symbol_rate c; delivery_system c;
                inversion c; pilot c; fec_inner c; modulation c; rolloff c;
                pls_mode c; is_id c; pls_code c; t2mi_plp_id c; t2mi_pid c])
  /\ ((length vals < 14)%nat -> parse_candidate resp i = None)
  /\ (forall c, candidate_of vals = Some c -> index c <> i ->
        parse_candidate resp i = None)
  /\ (forall c rest, candidate_in_range c -> index c = i ->
        no_leading_digit rest ->
        parse_candidate (join_decimal (fields_of c) ++ rest) i = Some c)
  /\ (forall vi c tr, read_candidate vi i = (Some c, tr) ->
        exists ret resp',
          bs_read (visit_info vi) (BUFSIZ - 1) = (ret, resp')
          /\ 0 <= ret /\ parse_candidate (c_str resp') i = Some c)
  /\ (forall cfg vi, fst (read_candidate vi i) = None ->
        forall line, ~ In (EvEmit line) (candidate_body cfg vi i)).
Proof.
  intros vals.
  split; [apply sscanf_candidate_length|].
  split.
  { intros c. rewrite parse_candidate_Some. fold vals. split.
    - intros [Hc Hi]. split; [|tauto].
      apply candidate_of_Some in Hc. now rewrite Hc.
    - tauto. }
  split.
  { intros c Hp. apply parse_candidate_Some in Hp as [Hc _].
    now apply candidate_of_Some in Hc. }
  split.
  { intros Hlt. unfold parse_candidate. fold vals.
    assert (Hn : candidate_of vals = None)
      by (apply candidate_of_None; lia).
    now rewrite Hn. }
  split.
  { intros c Hc Hne. unfold parse_candidate. fold vals. rewrite Hc.
    destruct (Z.eqb_spec i (index c)); [congruence | reflexivity]. }
  split.
  { intros c rest Hrange <- Hrest.
    rewrite (parse_candidate_join c rest (index c) Hrange Hrest).
    now rewrite Z.eqb_refl. }
  split.
  { intros vi c tr. apply read_candidate_Some. }
  intros cfg vi Hnone line Hin.
  apply candidate_body_emits in Hin as (c & Hc & _). congruence.
Qed.

(** The record for index 0, asked for as index 0, alone and followed by a
    15th field. *)
Lemma read_candidate_valid_witness :
  exists c, @parse_candidate linux_headers record_0 0 = Some c
            /\ index c = 0 /\ frequency c = 1200000
            /\ (length (sscanf (@LONG_MAX linux_headers) record_0
                          candidate_format) = 14)%nat
            /\ @parse_candidate linux_headers (record_0 ++ " 77") 0 = Some c.
Proof.
  destruct (@read_candidate_valid linux_headers record_0 0)
    as (_ & Hiff & _ & _ & _ & Hmore & _).
  pose (c0 := {| index := 0; frequency := 1200000; symbol_rate := 27500000;
                 delivery_system := 5; inversion := 0; pilot := 0;
                 fec_inner := 3; modulation := 0; rolloff := 0;
                 pls_mode := 0; is_id := 0; pls_code := 0;
                 t2mi_plp_id := -1; t2mi_pid := 0 |}).
  exists c0. split.
  - apply Hiff. split; [reflexivity|]. split; reflexivity.
  - split; [reflexivity|]. split; [reflexivity|]. split; [reflexivity|].
    refine (Hmore c0 " 77"%string _ eq_refl eq_refl).
    unfold candidate_in_range, is_int, is_uint, c0; cbn.
    split; [lia|]. split; [lia|]. split; [lia|].
    repeat (constructor; [lia|]). constructor.
Defined.

(** X6: a response made of the 14 fields of a record in decimal, each
    in the range of its variable and separated by single spaces, with
    anything after them past a non-digit, is read back as that record
    when its index is the one asked for, and dropped otherwise; when the
    two transfers of the loop body succeed, exactly one line is printed
    for it. *)
Theorem record_round_trip `{hdr : headers} (c : candidate) (rest : string) :
  candidate_in_range c ->
  no_leading_digit rest ->
  (forall i, parse_candidate (join_decimal (fields_of c) ++ rest) i
             = if i =? index c then Some c else None)
  /\ (forall cfg vi wret out ret buf,
        bs_write (visit_select vi) (fmt_d (index c))
          (strlen (fmt_d (index c))) = (wret, out) ->
        0 <= wret ->
        bs_read (visit_info vi) (BUFSIZ - 1) = (ret, buf) ->
        0 <= ret ->
        c_str buf = (join_decimal (fields_of c) ++ rest)%string ->
        candidate_body cfg vi (index c)
        = [EvWrite Info (fmt_d (index c)); EvRead Info;
           EvEmit (format_line cfg c)]).
Proof.
  intros Hrange Hrest.
  assert (Hparse : forall i,
             parse_candidate (join_decimal (fields_of c) ++ rest) i
             = if i =? index c then Some c else None).
  { intros i. now apply parse_candidate_join. }
  split; [exact Hparse|].
  intros cfg vi wret out ret buf Hw Hwret Hr Hret Hline.
  unfold candidate_body, read_candidate. rewrite Hw.
  assert (Hw0 : (wret <? 0) = false) by (apply Z.ltb_ge; lia).
  assert (Hr0 : (ret <? 0) = false) by (apply Z.ltb_ge; lia).
  rewrite Hw0, Hr, Hr0, Hline, Hparse, Z.eqb_refl. reflexivity.
Qed.

(** The record of index 1, followed by a line feed. *)
Lemma record_round_trip_witness :
  @parse_candidate linux_headers (record_1 ++ NL) 1
  = Some {| index := 1; frequency := 1450400; symbol_rate := 2999600;
            delivery_system := 6; inversion := 1; pilot := 1;
            fec_inner := 10; modulation := 9; rolloff := 1;
            pls_mode := 1; is_id := 5; pls_code := 262143;
            t2mi_plp_id := 3; t2mi_pid := 4096 |}.
Proof.
  pose (c := {| index := 1; frequency := 1450400; symbol_rate := 2999600;
                delivery_system := 6; inversion := 1; pilot := 1;
                fec_inner := 10; modulation := 9; rolloff := 1;
                pls_mode := 1; is_id := 5; pls_code := 262143;
                t2mi_plp_id := 3; t2mi_pid := 4096 |}).
  assert (Hrange : candidate_in_range c).
  { unfold candidate_in_range, is_int, is_uint, c; cbn.
    split; [lia|]. split; [lia|]. split; [lia|].
    repeat (constructor; [lia|]). constructor. }
  exact (proj1 (@record_round_trip linux_headers c NL Hrange eq_refl) 1).
Defined.

(** ** The lines of a run *)

Lemma emitted_app (a b : list event) :
  emitted (a ++ b) = emitted a ++ emitted b.
Proof.
  induction a as [|[| | | |line] a IH]; cbn; rewrite ?IH; reflexivity.
Qed.

Lemma emitted_quiet_poll (tr : list event) :
  forallb quiet_poll_event tr = true -> emitted tr = [].
Proof.
  induction tr as [|ev tr IH]; cbn; [reflexivity|].
  intros H. apply andb_prop in H as [Hev Htr].
  destruct ev as [[]|[]?|[]| |]; try discriminate; now apply IH.
Qed.

Section Lines.
Context {hdr : headers}.

Lemma emitted_candidate_body (cfg : config) (vs : Z -> visit) (i : Z) :
  emitted (candidate_body cfg (vs i) i) = line_of cfg vs i.
Proof.
  unfold candidate_body, line_of, read_candidate.
  destruct (bs_write _ _ _) as [wret out].
  destruct (wret <? 0); [reflexivity|].
  destruct (bs_read _ _) as [ret resp].
  destruct (ret <? 0); [reflexivity|].
  cbn [fst]. now destruct (parse_candidate _ _).
Qed.

(** The candidate loop with the signal first seen after [m] indices (or
    never, when [m = n]). *)
Lemma candidates_lines (cfg : config) (vs : Z -> visit) (n m : nat)
  (i : Z) :
  (m <= n)%nat ->
  (forall j, 0 <= j < Z.of_nat m -> visit_sigint (vs (i + j)) = false) ->
  ((m < n)%nat -> visit_sigint (vs (i + Z.of_nat m)) = true) ->
  fst (candidates cfg vs n i)
  = (if (m =? n)%nat then Completed else Interrupted)
  /\ emitted (snd (candidates cfg vs n i))
     = List.flat_map (line_of cfg vs) (indices i m).
Proof.
  revert n i. induction m as [|m IH]; intros n i Hle Hquiet Hseen.
  - destruct n as [|n]; cbn [candidates]; [now split|].
    specialize (Hseen ltac:(lia)). rewrite Z.add_0_r in Hseen.
    rewrite Hseen. now split.
  - destruct n as [|n]; [lia|]. cbn [candidates indices List.flat_map].
    pose proof (Hquiet 0 ltac:(lia)) as H0. rewrite Z.add_0_r in H0.
    rewrite H0.
    destruct (IH n (i + 1) ltac:(lia)) as [He Hl].
    { intros j Hj. replace (i + 1 + j) with (i + (j + 1)) by lia.
      apply Hquiet. lia. }
    { intros Hlt. replace (i + 1 + Z.of_nat m) with (i + Z.of_nat (S m))
        by lia. apply Hseen. lia. }
    destruct (candidates cfg vs n (i + 1)) as [e tr]. cbn [fst snd] in *.
    split; [exact He|].
    cbn [emitted]. now rewrite emitted_app, emitted_candidate_body, Hl.
Qed.

End Lines.

(** X7: once the poll loop has ended with candidate count [b], the
    lines printed are those of the indices 0, 1, ... in increasing order,
    one for each index whose record passed the checks and none for the
    others, up to the index at which the signal is first seen (up to [b]
    when it is not seen); a count of zero or less prints nothing.  The
    session ends [Completed] when all [b] indices were visited and
    [Interrupted] otherwise. *)
Theorem lines_in_index_order `{hdr : headers} (cfg : config) (w : world)
  (v : vars) (tr : list event) (b : Z) (m : nat) :
  ctrl_readable w = true ->
  info_readable w = true ->
  0 <= fst (bs_write (submit w) (request_msg cfg)
              (strlen (request_msg cfg))) ->
  poll (ticks w) uninitialised = (StepDone v, tr) ->
  num_info v = Some b ->
  (m <= Z.to_nat b)%nat ->
  (forall j, 0 <= j < Z.of_nat m -> visit_sigint (visits w j) = false) ->
  ((m < Z.to_nat b)%nat -> visit_sigint (visits w (Z.of_nat m)) = true) ->
  fst (blindscan cfg w)
  = (if (m =? Z.to_nat b)%nat then Completed else Interrupted)
  /\ emitted (snd (blindscan cfg w))
     = List.flat_map (line_of cfg (visits w)) (indices 0 m).
Proof.
  intros Hc Hi Hret Hpoll Hnum Hle Hquiet Hseen.
  destruct (candidates_lines cfg (visits w) (Z.to_nat b) m 0 Hle Hquiet Hseen)
    as [He Hl].
  unfold blindscan. rewrite Hc, Hi. cbn [negb].
  destruct (bs_write _ _ _) as [ret out]. cbn [fst] in Hret.
  assert (Hlt : (ret <? 0) = false) by (apply Z.ltb_ge; lia).
  rewrite Hlt, Hpoll, Hnum.
  destruct (candidates cfg (visits w) (Z.to_nat b) 0) as [e ctr].
  cbn [fst snd] in *. split; [exact He|].
  cbn [emitted]. rewrite emitted_app, Hl.
  apply poll_trace in Hpoll. now rewrite (emitted_quiet_poll tr Hpoll).
Qed.

(** Two polls, then record 0 and record 1. *)
Lemma lines_in_index_order_witness :
  let w :=
    {| ctrl_readable := true; info_readable := true;
       submit := wr_accepting;
       ticks := [ {| tick_sigint := false; tick_ctrl := rd_line "1 0 10" |};
                  {| tick_sigint := false;
                     tick_ctrl := rd_line "0 2 100" |} ];
       visits := fun i =>
         {| visit_sigint := false; visit_select := wr_accepting;
            visit_info := rd_line (if i =? 0 then record_0 else record_1) |}
    |} in
  fst (@blindscan linux_headers default_config w) = Completed
  /\ length (emitted (snd (@blindscan linux_headers default_config w)))
     = 2%nat.
Proof.
  intros w.
  destruct (@lines_in_index_order linux_headers default_config w
              {| status := Some 0; num_info := Some 2;
                 progress := Some 100 |}
              [EvSigint false; EvRead Ctrl; EvSleep;
               EvSigint false; EvRead Ctrl]
              2 2 eq_refl eq_refl) as [He Hl].
  - vm_compute. discriminate.
  - reflexivity.
  - reflexivity.
  - cbn. lia.
  - intros j Hj. reflexivity.
  - cbn. lia.
  - split; [exact He|]. rewrite Hl. reflexivity.
Defined.

(** X8: every run that gets as far as the request has three phases in
    this order: the request write, then events of the control file only
    (polls, sleeps, and the deactivate write if the run is cancelled),
    then events of the info file and the output only.  The control file
    is not touched again once the first record is selected, and the
    deactivate message is written exactly in the runs that end
    [Cancelled]. *)
Theorem session_phases `{hdr : headers} (cfg : config) (w : world)
  (e : exit) (tr : list event) :
  blindscan cfg w = (e, tr) ->
  (tr = [] /\ e = Unavailable
   \/ exists tr1 tr2,
        tr = EvWrite Ctrl (request_msg cfg) :: tr1 ++ tr2
        /\ (forall ev, In ev tr1 -> info_event ev = false)
        /\ (forall ev, In ev tr2 -> ctrl_event ev = false))
  /\ (In (EvWrite Ctrl deactivate_msg) tr <-> e = Cancelled).
Proof.
  unfold blindscan.
  destruct (ctrl_readable w); cbn [negb];
    [|intros [= <- <-];
      split; [now left | split; [intros [] | discriminate] ] ].
  destruct (info_readable w); cbn [negb];
    [|intros [= <- <-];
      split; [now left | split; [intros [] | discriminate] ] ].
  destruct (bs_write _ _ _) as [ret out].
  assert (Hreq : forall l,
             In (EvWrite Ctrl deactivate_msg)
               (EvWrite Ctrl (request_msg cfg) :: l)
             -> In (EvWrite Ctrl deactivate_msg) l).
  { intros l [Heq|Hin]; [|exact Hin].
    exfalso. apply (request_is_not_deactivate cfg). congruence. }
  destruct (ret <? 0).
  { intros [= <- <-]. split.
    - right. exists [], []. split; [reflexivity|]. split; intros ev [].
    - split; [intros Hin; now apply Hreq in Hin | discriminate]. }
  destruct (poll (ticks w) uninitialised) as [s ptr] eqn:Hp.
  apply poll_trace in Hp.
  assert (Hquiet : forall l e',
             forallb quiet_poll_event l = true -> e' <> Cancelled ->
             (exists tr1 tr2,
                EvWrite Ctrl (request_msg cfg) :: l
                = EvWrite Ctrl (request_msg cfg) :: tr1 ++ tr2
                /\ (forall ev, In ev tr1 -> info_event ev = false)
                /\ (forall ev, In ev tr2 -> ctrl_event ev = false))
             /\ (In (EvWrite Ctrl deactivate_msg)
                   (EvWrite Ctrl (request_msg cfg) :: l)
                 <-> e' = Cancelled)).
  { intros l e' Hq Hne.
    apply quiet_poll_event_facts in Hq as (_ & Hnw & Hni). split.
    - exists l, []. rewrite app_nil_r.
      split; [reflexivity|]. split; [exact Hni | intros ev [] ].
    - split; [|tauto]. intros Hin. apply Hreq in Hin.
      now apply Hnw in Hin. }
  destruct s as [| | |v|v].
  - destruct Hp as (tr0 & -> & Hq). intros [= <- <-].
    apply quiet_poll_event_facts in Hq as (_ & _ & Hni). split.
    + right.
      exists (tr0 ++ [EvSigint true; EvWrite Ctrl deactivate_msg]), [].
      rewrite app_nil_r. split; [reflexivity|]. split; [|intros ev [] ].
      intros ev Hin. apply in_app_iff in Hin as [Hin|[<-|[<-|[]]]];
        [now apply Hni | reflexivity | reflexivity].
    + split; [reflexivity|]. intros _. right.
      apply in_app_iff. right. right. now left.
  - intros [= <- <-].
    destruct (Hquiet ptr Unavailable Hp ltac:(discriminate)) as [H1 H2].
    split; [now right | exact H2].
  - intros [= <- <-].
    destruct (Hquiet ptr Indeterminate Hp ltac:(discriminate)) as [H1 H2].
    split; [now right | exact H2].
  - destruct (num_info v) as [n|].
    2:{ intros [= <- <-].
        destruct (Hquiet ptr Indeterminate Hp ltac:(discriminate))
          as [H1 H2].
        split; [now right | exact H2]. }
    destruct (candidates cfg (visits w) (Z.to_nat n) 0) as [e' ctr] eqn:Hc.
    intros [= <- <-].
    apply quiet_poll_event_facts in Hp as (_ & Hnw & Hni).
    assert (Hctr : (forall ev, In ev ctr -> ctrl_event ev = false)
                   /\ e' <> Cancelled).
    { destruct (candidates_trace _ _ _ _ _ _ Hc)
        as [[-> Hq]|(-> & tr0 & -> & Hq)].
      - split; [|discriminate]. rewrite forallb_forall in Hq.
        intros ev Hin. apply Hq in Hin.
        now destruct ev as [[]|[]?|[]| |].
      - split; [|discriminate]. rewrite forallb_forall in Hq.
        intros ev Hin. apply in_app_iff in Hin as [Hin|[<-|[]]];
          [|reflexivity].
        apply Hq in Hin. now destruct ev as [[]|[]?|[]| |]. }
    destruct Hctr as [Hctr Hne]. split.
    + right. now exists ptr, ctr.
    + split; [|intros ->; now destruct Hne].
      intros Hin. apply Hreq in Hin.
      apply in_app_iff in Hin as [Hin|Hin];
        [now apply Hnw in Hin | now apply Hctr in Hin].
  - intros [= <- <-].
    destruct (Hquiet ptr StillPolling Hp ltac:(discriminate)) as [H1 H2].
    split; [now right | exact H2].
Qed.

(** A run cancelled at its second poll. *)
Lemma session_phases_witness :
  let w :=
    {| ctrl_readable := true; info_readable := true;
       submit := wr_accepting;
       ticks := [ {| tick_sigint := false; tick_ctrl := rd_line "1 0 10" |};
                  {| tick_sigint := true; tick_ctrl := rd_line "1 0 55" |} ];
       visits := fun _ =>
         {| visit_sigint := false; visit_select := wr_accepting;
            visit_info := rd_line record_0 |} |} in
  In (EvWrite Ctrl deactivate_msg)
    (snd (@blindscan linux_headers default_config w)).
Proof.
  intros w.
  destruct (@blindscan linux_headers default_config w) as [e tr] eqn:Hrun.
  destruct (@session_phases linux_headers default_config w e tr Hrun)
    as [_ Hiff].
  apply Hiff. vm_compute in Hrun. now injection Hrun as <- _.
Defined.

(** ** The shape of an output line *)

Lemma count_char_app (c : ascii) (a b : string) :
  count_char c (a ++ b) = (count_char c a + count_char c b)%nat.
Proof.
  induction a as [|x a IH]; [reflexivity|].
  rewrite append_cons. cbn [count_char].
  destruct (Ascii.eqb x c); rewrite IH; reflexivity.
Qed.

Lemma digit_is_not (c a : ascii) :
  isdigit c = false -> isdigit a = true -> Ascii.eqb a c = false.
Proof.
  intros Hc Ha. destruct (Ascii.eqb_spec a c) as [->|]; congruence.
Qed.

Lemma count_char_string_of_uint (c : ascii) (d : Decimal.uint) :
  isdigit c = false -> count_char c (NilEmpty.string_of_uint d) = O.
Proof.
  intros Hc.
  induction d as [|d IH|d IH|d IH|d IH|d IH|d IH|d IH|d IH|d IH|d IH];
    cbn [NilEmpty.string_of_uint count_char]; [reflexivity|..];
    rewrite (digit_is_not c) by (first [exact Hc | reflexivity]); exact IH.
Qed.

(** A printed number holds digits and a minus sign, nothing else. *)
Lemma count_char_fmt_d (c : ascii) (z : Z) :
  isdigit c = false -> c <> "-"%char -> count_char c (fmt_d z) = O.
Proof.
  intros Hc Hm. destruct z as [|p|p].
  - change (fmt_d 0) with "0"%string. cbn [count_char].
    now rewrite (digit_is_not c) by (first [exact Hc | reflexivity]).
  - rewrite fmt_d_pos. now apply count_char_string_of_uint.
  - rewrite fmt_d_neg. cbn [count_char].
    destruct (Ascii.eqb_spec "-" c) as [<-|_]; [now destruct Hm|].
    now apply count_char_string_of_uint.
Qed.

Lemma switch_Forall (P : string -> Prop) (code : Z)
  (cases : list (Z * string)) (default : string) :
  P default -> Forall P (map snd cases) -> P (switch code cases default).
Proof.
  intros Hd Hc. induction cases as [|[k l] cases IH]; cbn; [exact Hd|].
  apply Forall_cons in Hc as [Hl Hc].
  destruct (code =? k); [exact Hl | now apply IH].
Qed.

Section LineShape.
Context {hdr : headers}.

Lemma count_char_labels (c : ascii) (code : Z) :
  c = SPACE \/ c = NEWLINE ->
  count_char c (delivery_system_label code) = O
  /\ count_char c (inversion_label code) = O
  /\ count_char c (pilot_label code) = O
  /\ count_char c (fec_label code) = O
  /\ count_char c (modulation_label code) = O
  /\ count_char c (rolloff_label code) = O.
Proof.
  intros Hc.
  split; [unfold delivery_system_label;
          destruct (code =? SYS_DVBS); destruct Hc as [-> | ->];
          reflexivity|].
  repeat split;
    (apply (switch_Forall (fun l => count_char c l = O));
     [destruct Hc as [-> | ->]; reflexivity
     |destruct Hc as [-> | ->]; repeat constructor]).
Qed.

End LineShape.

(** A printed number is not empty and holds neither a space nor a line
    feed. *)
Lemma fmt_d_nonempty (z : Z) : fmt_d z <> EmptyString.
Proof.
  intros H. pose proof (scan_int_fmt_d z EmptyString I) as Hs.
  rewrite H in Hs. discriminate.
Qed.

Lemma plain_fmt_d (z : Z) : plain_field (fmt_d z).
Proof.
  split; [apply fmt_d_nonempty|].
  split; apply count_char_fmt_d; (reflexivity || discriminate).
Qed.

Lemma plain_switch (code : Z) (cases : list (Z * string))
  (default : string) :
  plain_field default -> Forall plain_field (map snd cases) ->
  plain_field (switch code cases default).
Proof. apply (switch_Forall plain_field). Qed.

Ltac plain_literal :=
  split; [discriminate | split; reflexivity].

Ltac plain_table :=
  apply plain_switch;
  [ plain_literal
  | repeat (constructor; [plain_literal|]); constructor ].

Lemma append_inv_head (a x y : string) :
  (a ++ x)%string = (a ++ y)%string -> x = y.
Proof.
  induction a as [|c a IH]; [trivial|]. rewrite !append_cons.
  intros [= H]. now apply IH.
Qed.

(** Two lines with different polarisations differ. *)
Lemma polarisation_differs (x y : string) :
  ("OK " ++ "VERTICAL" ++ x)%string <> ("OK " ++ "HORIZONTAL" ++ y)%string.
Proof.
  intros H. apply (f_equal (String.get 3)) in H. vm_compute in H.
  discriminate.
Qed.

(** A printed number followed by a space determines the number. *)
Lemma fmt_d_space_inj (a b : Z) (x y : string) :
  (fmt_d a ++ " " ++ x)%string = (fmt_d b ++ " " ++ y)%string -> a = b.
Proof.
  intros H.
  pose proof (scan_int_fmt_d a (" " ++ x) eq_refl) as Ha.
  pose proof (scan_int_fmt_d b (" " ++ y) eq_refl) as Hb.
  rewrite H, Hb in Ha. now injection Ha as ->.
Qed.

Section LineFields.
Context {hdr : headers}.

(** The line for a record is its fields, in the order of the [sprintf]
    calls, with one space between two fields and a line feed at the
    end. *)
Lemma format_line_fields (cfg : config) (c : candidate) :
  format_line cfg c
  = (join_fields
       ([ "OK"%string;
          (if vertical cfg then "VERTICAL" else "HORIZONTAL")%string;
          fmt_u (band_convert (cband cfg) (high cfg)
                   (round_to_1000 (frequency c)));
          fmt_u (round_to_1000 (symbol_rate c));
          delivery_system_label (delivery_system c);
          inversion_label (inversion c);
          pilot_label (pilot c);
          fec_label (fec_inner c);
          modulation_label (modulation c);
          rolloff_label (rolloff c);
          fmt_d (pls_mode c); fmt_d (is_id c); fmt_d (pls_code c) ]
        ++ (if Z.eqb (t2mi_plp_id c) (-1) then []
            else [fmt_d (t2mi_plp_id c); fmt_d (t2mi_pid c)]))
     ++ NL)%string.
Proof.
  unfold format_line.
  destruct (Z.eqb (t2mi_plp_id c) (-1)); cbn [app join_fields];
    now rewrite !append_assoc.
Qed.

(** The line starts with "OK", the polarisation and the translated
    frequency as [%u] prints it. *)
Lemma format_line_head (cfg : config) (c : candidate) :
  exists tail,
    format_line cfg c
    = ("OK " ++ (if vertical cfg then "VERTICAL" else "HORIZONTAL")
       ++ " " ++ fmt_u (band_convert (cband cfg) (high cfg)
                          (round_to_1000 (frequency c)))
       ++ " " ++ tail)%string.
Proof.
  rewrite format_line_fields.
  set (t2mi := if t2mi_plp_id c =? - 1 then []
               else [fmt_d (t2mi_plp_id c); fmt_d (t2mi_pid c)]).
  cbn [app join_fields]. eexists. rewrite !append_assoc. reflexivity.
Qed.

Lemma plain_labels (code : Z) :
  plain_field (delivery_system_label code)
  /\ plain_field (inversion_label code)
  /\ plain_field (pilot_label code)
  /\ plain_field (fec_label code)
  /\ plain_field (modulation_label code)
  /\ plain_field (rolloff_label code).
Proof.
  split; [unfold delivery_system_label;
          destruct (code =? SYS_DVBS); plain_literal|].
  split; [plain_table|]. split; [plain_table|]. split; [plain_table|].
  split; plain_table.
Qed.

End LineFields.

(** ** Band selection in the printed line *)

(** C10: with the C-band flag set the C-band translation is applied
    whatever the LO flag is, so the flag changes neither the frequency nor
    the output line, whose third field is 5,150,000 minus the rounded
    frequency as [%u] prints it.  With the C-band flag unset the third
    field of the line is the rounded frequency plus 10,600,000 when the LO
    flag is set and plus 9,750,000 when it is not; the two translations
    always differ, and so do the lines of two runs that differ in the LO
    flag. *)
Theorem cband_overrides_high `{hdr : headers} (cfg cfg' : config)
  (c : candidate) (r : Z) :
  cband cfg = true ->
  cband cfg' = true ->
  vertical cfg' = vertical cfg ->
  band_convert (cband cfg) (high cfg) r = u32 (5150000 - r)
  /\ (0 <= r <= 5150000 ->
      band_convert (cband cfg) (high cfg) r = 5150000 - r)
  /\ band_convert (cband cfg) (high cfg) r
     = band_convert (cband cfg') (high cfg') r
  /\ format_line cfg c = format_line cfg' c
  /\ band_convert false true r <> band_convert false false r
  /\ (exists tail,
        format_line cfg c
        = ("OK " ++ (if vertical cfg then "VERTICAL" else "HORIZONTAL")
           ++ " " ++ fmt_u (5150000 - round_to_1000 (frequency c))
           ++ " " ++ tail)%string)
  /\ (forall ku, cband ku = false ->
        exists tail,
          format_line ku c
          = ("OK " ++ (if vertical ku then "VERTICAL" else "HORIZONTAL")
             ++ " " ++ fmt_u (round_to_1000 (frequency c)
                              + (if high ku then 10600000 else 9750000))
             ++ " " ++ tail)%string)
  /\ (forall ku ku', cband ku = false -> cband ku' = false ->
        high ku = true -> high ku' = false ->
        format_line ku c <> format_line ku' c).
Proof.
  intros Hc Hc' Hv.
  assert (Hku : forall ku, cband ku = false ->
            exists tail,
              format_line ku c
              = ("OK " ++ (if vertical ku then "VERTICAL" else "HORIZONTAL")
                 ++ " " ++ fmt_u (round_to_1000 (frequency c)
                                  + (if high ku then 10600000 else 9750000))
                 ++ " " ++ tail)%string).
  { intros ku Hk. destruct (format_line_head ku c) as [tail Ht].
    exists tail. rewrite Ht, Hk. unfold band_convert, fmt_u.
    destruct (high ku); now rewrite u32_small by apply u32_range. }
  split; [rewrite Hc; reflexivity|].
  split; [intros Hr; rewrite Hc; unfold_u32; euclid|].
  split; [now rewrite Hc, Hc'|].
  split; [unfold format_line; now rewrite Hc, Hc', Hv|].
  split; [unfold_u32; euclid|].
  split.
  { destruct (format_line_head cfg c) as [tail Ht]. exists tail.
    rewrite Ht, Hc. unfold band_convert, fmt_u.
    now rewrite u32_small by apply u32_range. }
  split; [exact Hku|].
  intros ku ku' Hk Hk' Hh Hh' Heq.
  destruct (Hku ku Hk) as [t Ht]. destruct (Hku ku' Hk') as [t' Ht'].
  rewrite Ht, Ht', Hh, Hh' in Heq. unfold fmt_u in Heq.
  destruct (vertical ku), (vertical ku').
  - apply append_inv_head, append_inv_head, append_inv_head in Heq.
    apply fmt_d_space_inj in Heq. unfold_u32; euclid.
  - now apply polarisation_differs in Heq.
  - symmetry in Heq. now apply polarisation_differs in Heq.
  - apply append_inv_head, append_inv_head, append_inv_head in Heq.
    apply fmt_d_space_inj in Heq. unfold_u32; euclid.
Qed.

(** Both flags set, against the C-band flag alone: the line carries
    3950000 either way. *)
Lemma cband_overrides_high_witness :
  let cfg :=
    {| start_frequency_mhz := 950; stop_frequency_mhz := 1950;
       symbolrate_min_mhz := 2; symbolrate_max_mhz := 45;
       vertical := false; cband := true; high := true;
       slot := 0; i2c := 0 |} in
  let cfg' :=
    {| start_frequency_mhz := 950; stop_frequency_mhz := 1950;
       symbolrate_min_mhz := 2; symbolrate_max_mhz := 45;
       vertical := false; cband := true; high := false;
       slot := 0; i2c := 0 |} in
  let c :=
    {| index := 0; frequency := 1200000; symbol_rate := 27500000;
       delivery_system := 5; inversion := 0; pilot := 0;
       fec_inner := 3; modulation := 0; rolloff := 0;
       pls_mode := 0; is_id := 0; pls_code := 0;
       t2mi_plp_id := -1; t2mi_pid := 0 |} in
  cband cfg = true /\ cband cfg' = true /\ vertical cfg' = vertical cfg
  /\ band_convert (cband cfg) (high cfg) 1200000 = 3950000
  /\ band_convert (cband cfg) (high cfg) 1200000
     = band_convert (cband cfg') (high cfg') 1200000
  /\ (exists tail,
        @format_line linux_headers cfg c
        = ("OK HORIZONTAL 3950000 " ++ tail)%string)
  /\ @format_line linux_headers cfg c = @format_line linux_headers cfg' c.
Proof.
  intros cfg cfg' c.
  split; [reflexivity | split; [reflexivity | split; [reflexivity | ] ] ].
  destruct (@cband_overrides_high linux_headers cfg cfg' c
              1200000 eq_refl eq_refl eq_refl)
    as (Hm & _ & Hsame & Hline & _ & Hhead & _).
  split; [rewrite Hm; reflexivity|].
  split; [exact Hsame|].
  split; [|exact Hline].
  destruct Hhead as [tail Ht]. exists tail. rewrite Ht. reflexivity.
Defined.

(** ** Enumeration labels in the printed line *)

(** C7: each of the five switches maps every case constant to the label
    of that name, distinct constants to distinct labels, and every other
    code to the default label ([INVERSION_AUTO], [PILOT_AUTO], [FEC_AUTO],
    [QPSK], [ROLLOFF_35]); the label is never empty and never anything
    but one of the labels listed.  The delivery system is [DVB-S] for
    [SYS_DVBS] and [DVB-S2] for every other code.  The line printed for a
    record carries the six labels of its six codes, in this order.  The
    hypotheses say that the case constants of a switch are distinct, which
    C requires. *)
Theorem enumeration_labels `{hdr : headers} :
  NoDup [INVERSION_OFF; INVERSION_ON] ->
  NoDup [PILOT_ON; PILOT_OFF] ->
  NoDup [FEC_1_2; FEC_2_3; FEC_3_4; FEC_4_5; FEC_5_6; FEC_6_7; FEC_7_8;
         FEC_8_9; FEC_3_5; FEC_9_10; FEC_2_5] ->
  NoDup [PSK_8; APSK_16; APSK_32] ->
  NoDup [ROLLOFF_20; ROLLOFF_25] ->
  (inversion_label INVERSION_OFF = "INVERSION_OFF"
   /\ inversion_label INVERSION_ON = "INVERSION_ON"
   /\ (forall code, code <> INVERSION_OFF -> code <> INVERSION_ON ->
         inversion_label code = "INVERSION_AUTO"))%string
  /\ (pilot_label PILOT_ON = "PILOT_ON"
      /\ pilot_label PILOT_OFF = "PILOT_OFF"
      /\ (forall code, code <> PILOT_ON -> code <> PILOT_OFF ->
            pilot_label code = "PILOT_AUTO"))%string
  /\ (fec_label FEC_1_2 = "FEC_1_2" /\ fec_label FEC_2_3 = "FEC_2_3"
      /\ fec_label FEC_3_4 = "FEC_3_4" /\ fec_label FEC_4_5 = "FEC_4_5"
      /\ fec_label FEC_5_6 = "FEC_5_6" /\ fec_label FEC_6_7 = "FEC_6_7"
      /\ fec_label FEC_7_8 = "FEC_7_8" /\ fec_label FEC_8_9 = "FEC_8_9"
      /\ fec_label FEC_3_5 = "FEC_3_5" /\ fec_label FEC_9_10 = "FEC_9_10"
      /\ fec_label FEC_2_5 = "FEC_2_5"
      /\ (forall code,
            ~ In code [FEC_1_2; FEC_2_3; FEC_3_4; FEC_4_5; FEC_5_6;
                       FEC_6_7; FEC_7_8; FEC_8_9; FEC_3_5; FEC_9_10;
                       FEC_2_5] ->
            fec_label code = "FEC_AUTO"))%string
  /\ (modulation_label PSK_8 = "8PSK"
      /\ modulation_label APSK_16 = "16APSK"
      /\ modulation_label APSK_32 = "32APSK"
      /\ (forall code, code <> PSK_8 -> code <> APSK_16 ->
            code <> APSK_32 -> modulation_label code = "QPSK"))%string
  /\ (rolloff_label ROLLOFF_20 = "ROLLOFF_20"
      /\ rolloff_label ROLLOFF_25 = "ROLLOFF_25"
      /\ (forall code, code <> ROLLOFF_20 -> code <> ROLLOFF_25 ->
            rolloff_label code = "ROLLOFF_35"))%string
  /\ (delivery_system_label SYS_DVBS = "DVB-S"
      /\ (forall code, code <> SYS_DVBS ->
            delivery_system_label code = "DVB-S2"))%string
  /\ tolerant_mapping
       [(INVERSION_OFF, "INVERSION_OFF"); (INVERSION_ON, "INVERSION_ON")]
       "INVERSION_AUTO" inversion_label
  /\ tolerant_mapping
       [(PILOT_ON, "PILOT_ON"); (PILOT_OFF, "PILOT_OFF")]
       "PILOT_AUTO" pilot_label
  /\ tolerant_mapping
       [(FEC_1_2, "FEC_1_2"); (FEC_2_3, "FEC_2_3"); (FEC_3_4, "FEC_3_4");
        (FEC_4_5, "FEC_4_5"); (FEC_5_6, "FEC_5_6"); (FEC_6_7, "FEC_6_7");
        (FEC_7_8, "FEC_7_8"); (FEC_8_9, "FEC_8_9"); (FEC_3_5, "FEC_3_5");
        (FEC_9_10, "FEC_9_10"); (FEC_2_5, "FEC_2_5")]
       "FEC_AUTO" fec_label
  /\ tolerant_mapping
       [(PSK_8, "8PSK"); (APSK_16, "16APSK"); (APSK_32, "32APSK")]
       "QPSK" modulation_label
  /\ tolerant_mapping
       [(ROLLOFF_20, "ROLLOFF_20"); (ROLLOFF_25, "ROLLOFF_25")]
       "ROLLOFF_35" rolloff_label
  /\ (forall cfg c, exists head tail,
        format_line cfg c
        = (head
           ++ " " ++ delivery_system_label (delivery_system c)
           ++ " " ++ inversion_label (inversion c)
           ++ " " ++ pilot_label (pilot c)
           ++ " " ++ fec_label (fec_inner c)
           ++ " " ++ modulation_label (modulation c)
           ++ " " ++ rolloff_label (rolloff c)
           ++ " " ++ tail)%string
        /\ count_char SPACE head = 3%nat).
Proof.
  intros Hi Hp Hf Hm Hr.
  assert (Ti : tolerant_mapping
                 [(INVERSION_OFF, "INVERSION_OFF"%string);
                  (INVERSION_ON, "INVERSION_ON"%string)]
                 "INVERSION_AUTO" inversion_label)
    by (apply switch_tolerant; [exact Hi | label_strings ..]).
  assert (Tp : tolerant_mapping
                 [(PILOT_ON, "PILOT_ON"%string);
                  (PILOT_OFF, "PILOT_OFF"%string)]
                 "PILOT_AUTO" pilot_label)
    by (apply switch_tolerant; [exact Hp | label_strings ..]).
  assert (Tf : tolerant_mapping
                 [(FEC_1_2, "FEC_1_2"%string); (FEC_2_3, "FEC_2_3"%string);
                  (FEC_3_4, "FEC_3_4"%string); (FEC_4_5, "FEC_4_5"%string);
                  (FEC_5_6, "FEC_5_6"%string); (FEC_6_7, "FEC_6_7"%string);
                  (FEC_7_8, "FEC_7_8"%string); (FEC_8_9, "FEC_8_9"%string);
                  (FEC_3_5, "FEC_3_5"%string);
                  (FEC_9_10, "FEC_9_10"%string);
                  (FEC_2_5, "FEC_2_5"%string)]
                 "FEC_AUTO" fec_label)
    by (apply switch_tolerant; [exact Hf | label_strings ..]).
  assert (Tm : tolerant_mapping
                 [(PSK_8, "8PSK"%string); (APSK_16, "16APSK"%string);
                  (APSK_32, "32APSK"%string)]
                 "QPSK" modulation_label)
    by (apply switch_tolerant; [exact Hm | label_strings ..]).
  assert (Tr : tolerant_mapping
                 [(ROLLOFF_20, "ROLLOFF_20"%string);
                  (ROLLOFF_25, "ROLLOFF_25"%string)]
                 "ROLLOFF_35" rolloff_label)
    by (apply switch_tolerant; [exact Hr | label_strings ..]).
  split.
  { destruct Ti as (Hcase & Hdef & _).
    split; [apply Hcase; cbn; tauto|]. split; [apply Hcase; cbn; tauto|].
    intros code H1 H2. apply Hdef. cbn. intuition congruence. }
  split.
  { destruct Tp as (Hcase & Hdef & _).
    split; [apply Hcase; cbn; tauto|]. split; [apply Hcase; cbn; tauto|].
    intros code H1 H2. apply Hdef. cbn. intuition congruence. }
  split.
  { destruct Tf as (Hcase & Hdef & _).
    repeat (split; [apply Hcase; cbn; tauto|]). exact Hdef. }
  split.
  { destruct Tm as (Hcase & Hdef & _).
    repeat (split; [apply Hcase; cbn; tauto|]).
    intros code H1 H2 H3. apply Hdef. cbn. intuition congruence. }
  split.
  { destruct Tr as (Hcase & Hdef & _).
    split; [apply Hcase; cbn; tauto|]. split; [apply Hcase; cbn; tauto|].
    intros code H1 H2. apply Hdef. cbn. intuition congruence. }
  split.
  { unfold delivery_system_label. split.
    - now rewrite Z.eqb_refl.
    - intros code Hne. now apply Z.eqb_neq in Hne as ->. }
  split; [exact Ti|]. split; [exact Tp|]. split; [exact Tf|].
  split; [exact Tm|]. split; [exact Tr|].
  intros cfg c. rewrite format_line_fields.
  set (t2mi := if t2mi_plp_id c =? - 1 then []
               else [fmt_d (t2mi_plp_id c); fmt_d (t2mi_pid c)]).
  exists ("OK " ++ (if vertical cfg then "VERTICAL" else "HORIZONTAL")
          ++ " " ++ fmt_u (band_convert (cband cfg) (high cfg)
                             (round_to_1000 (frequency c)))
          ++ " " ++ fmt_u (round_to_1000 (symbol_rate c)))%string.
  exists (join_fields ([fmt_d (pls_mode c); fmt_d (is_id c);
                        fmt_d (pls_code c)] ++ t2mi) ++ NL)%string.
  split.
  - cbn [app join_fields]. now rewrite !append_assoc.
  - unfold fmt_u. rewrite !count_char_app.
    rewrite !(proj1 (proj2 (plain_fmt_d _))).
    now destruct (vertical cfg).
Qed.

(** With the constants of the Linux DVB API: inner-FEC code 99 is none of
    the case constants and is labelled [FEC_AUTO]. *)
Lemma enumeration_labels_witness :
  @fec_label linux_headers 99 = "FEC_AUTO"%string
  /\ @fec_label linux_headers 3 = "FEC_3_4"%string
  /\ @modulation_label linux_headers 0 = "QPSK"%string
  /\ @rolloff_label linux_headers 3 = "ROLLOFF_35"%string.
Proof.
  pose (hdr := linux_headers).
  assert (Hi : NoDup [INVERSION_OFF; INVERSION_ON])
    by (apply (bool_decide_unpack _); vm_compute; exact I).
  assert (Hp : NoDup [PILOT_ON; PILOT_OFF])
    by (apply (bool_decide_unpack _); vm_compute; exact I).
  assert (Hf : NoDup [FEC_1_2; FEC_2_3; FEC_3_4; FEC_4_5; FEC_5_6; FEC_6_7;
                      FEC_7_8; FEC_8_9; FEC_3_5; FEC_9_10; FEC_2_5])
    by (apply (bool_decide_unpack _); vm_compute; exact I).
  assert (Hm : NoDup [PSK_8; APSK_16; APSK_32])
    by (apply (bool_decide_unpack _); vm_compute; exact I).
  assert (Hr : NoDup [ROLLOFF_20; ROLLOFF_25])
    by (apply (bool_decide_unpack _); vm_compute; exact I).
  destruct (@enumeration_labels linux_headers Hi Hp Hf Hm Hr)
    as (_ & _ & Hfec & Hmod & Hroll & _).
  split; [apply Hfec; vm_compute; intuition discriminate|].
  split; [apply Hfec|].
  split; [apply Hmod; discriminate|].
  apply Hroll; discriminate.
Defined.

(** ** The fields of an output line *)

(** X9: the line printed for a record is made of 13 fields when the PLP
    id of the record is -1 and of 15 otherwise, the first being "OK",
    with one space between two fields and one line feed after the last;
    no field is empty or holds a space or a line feed, so each record
    takes exactly one line of the output.  The two T2-MI fields come last
    and only for a PLP id other than -1. *)
Theorem format_line_shape `{hdr : headers} (cfg : config) (c : candidate) :
  exists fields,
    format_line cfg c = (join_fields fields ++ NL)%string
    /\ length fields = (if t2mi_plp_id c =? - 1 then 13%nat else 15%nat)
    /\ Forall plain_field fields
    /\ head fields = Some "OK"%string
    /\ drop 13 fields
       = (if t2mi_plp_id c =? - 1 then []
          else [fmt_d (t2mi_plp_id c); fmt_d (t2mi_pid c)])
    /\ count_char NEWLINE (format_line cfg c) = 1%nat
    /\ count_char SPACE (format_line cfg c) = (length fields - 1)%nat.
Proof.
  eexists. split; [apply format_line_fields|].
  assert (Hcount : forall ch, ch = SPACE \/ ch = NEWLINE ->
            count_char ch (format_line cfg c)
            = (count_char ch "OK" + count_char ch " " * 12
               + (if Z.eqb (t2mi_plp_id c) (-1) then 0
                  else count_char ch " " * 2)
               + count_char ch NL)%nat).
  { intros ch Hch. unfold format_line.
    destruct (count_char_labels ch (delivery_system c) Hch) as (Hd & _).
    destruct (count_char_labels ch (inversion c) Hch) as (_ & Hi & _).
    destruct (count_char_labels ch (pilot c) Hch) as (_ & _ & Hp & _).
    destruct (count_char_labels ch (fec_inner c) Hch)
      as (_ & _ & _ & Hf & _).
    destruct (count_char_labels ch (modulation c) Hch)
      as (_ & _ & _ & _ & Hm & _).
    destruct (count_char_labels ch (rolloff c) Hch)
      as (_ & _ & _ & _ & _ & Hr).
    assert (Hpol : count_char ch
                     (if vertical cfg then "VERTICAL" else "HORIZONTAL") = O)
      by (destruct (vertical cfg); destruct Hch as [-> | ->]; reflexivity).
    assert (Hnum : forall z, count_char ch (fmt_d z) = O).
    { intros z. apply count_char_fmt_d;
        destruct Hch as [-> | ->]; (reflexivity || discriminate). }
    assert (Hu : forall z, count_char ch (fmt_u z) = O)
      by (intros z; apply Hnum).
    destruct (t2mi_plp_id c =? -1);
      rewrite ?count_char_app, ?Hnum, ?Hu, Hd, Hi, Hp, Hf, Hm, Hr, Hpol;
      change (count_char ch "") with O; lia. }
  split; [now destruct (t2mi_plp_id c =? - 1)|].
  split.
  { apply Forall_app. split.
    - destruct (plain_labels (delivery_system c)) as (Hd & _).
      destruct (plain_labels (inversion c)) as (_ & Hi & _).
      destruct (plain_labels (pilot c)) as (_ & _ & Hp & _).
      destruct (plain_labels (fec_inner c)) as (_ & _ & _ & Hf & _).
      destruct (plain_labels (modulation c)) as (_ & _ & _ & _ & Hm & _).
      destruct (plain_labels (rolloff c)) as (_ & _ & _ & _ & _ & Hr).
      repeat (constructor;
              [first [ assumption | apply plain_fmt_d | plain_literal
                     | destruct (vertical cfg); plain_literal ]|]).
      constructor.
    - destruct (t2mi_plp_id c =? - 1); [constructor|].
      repeat (constructor; [apply plain_fmt_d|]). constructor. }
  split; [reflexivity|].
  split; [reflexivity|].
  split.
  - rewrite (Hcount NEWLINE (or_intror eq_refl)).
    change (count_char NEWLINE "OK") with O.
    change (count_char NEWLINE " ") with O.
    change (count_char NEWLINE NL) with 1%nat.
    destruct (t2mi_plp_id c =? -1); lia.
  - rewrite (Hcount SPACE (or_introl eq_refl)).
    change (count_char SPACE "OK") with O.
    change (count_char SPACE " ") with 1%nat.
    change (count_char SPACE NL) with O.
    destruct (t2mi_plp_id c =? -1); cbn [length app]; lia.
Qed.

(** ** Printed frequencies and symbol rates *)

(** X10: for a raw value below 4294966796 the rounding applied to the
    frequency and to the symbol rate gives the nearest multiple of 1000
    (a value ending in 500 goes up), leaves a multiple of 1000 as it is,
    and keeps the order of raw values; for every raw value the result is
    a multiple of 1000 inside the 32-bit range. *)
Theorem rounding_nearest_multiple (x : Z) :
  0 <= x < 4294966796 ->
  (round_to_1000 x) mod 1000 = 0
  /\ - 500 < round_to_1000 x - x <= 500
  /\ (x mod 1000 = 0 -> round_to_1000 x = x)
  /\ (forall y, x <= y < 4294966796 -> round_to_1000 x <= round_to_1000 y)
  /\ (forall y, (round_to_1000 y) mod 1000 = 0
                /\ 0 <= round_to_1000 y < 4294967296).
Proof.
  intros Hx.
  split; [unfold_u32; euclid|].
  split; [unfold_u32; euclid|].
  split; [intros Hm; unfold_u32; euclid|].
  split; [intros y Hy; unfold_u32; euclid|].
  intros y. split; [unfold_u32; euclid | apply round_to_1000_range].
Qed.

(** 27499600 symbols per second are printed as 27500000. *)
Lemma rounding_nearest_multiple_witness :
  - 500 < round_to_1000 27499600 - 27499600 <= 500.
Proof.
  exact (proj1 (proj2 (rounding_nearest_multiple 27499600 ltac:(lia)))).
Defined.

(** X11: in each band the translation maps different rounded
    frequencies to different printed frequencies, over the whole 32-bit
    range.  While the result stays in range, the two Ku-band translations
    keep the order of the frequencies and differ by 850000 from each
    other, and the C-band translation reverses the order. *)
Theorem band_convert_injective (cb h : bool) (r1 r2 : Z) :
  is_uint r1 -> is_uint r2 ->
  (band_convert cb h r1 = band_convert cb h r2 -> r1 = r2)
  /\ (r1 < r2 -> r2 + 10600000 < 4294967296 ->
      band_convert false h r1 < band_convert false h r2
      /\ band_convert false true r1 = band_convert false false r1 + 850000)
  /\ (r1 < r2 <= 5150000 ->
      band_convert true h r2 < band_convert true h r1).
Proof.
  unfold is_uint. intros H1 H2.
  split; [destruct cb, h; unfold_u32; intros Heq; revert Heq; euclid|].
  split.
  - intros Hlt Hmax. destruct h; unfold_u32; euclid.
  - intros Hlt. unfold_u32. euclid.
Qed.

(** Two transponders 1 MHz apart, in the Ku low band. *)
Lemma band_convert_injective_witness :
  band_convert false false 1200000 < band_convert false false 1201000.
Proof.
  destruct (band_convert_injective false false 1200000 1201000)
    as (_ & Hku & _); [unfold is_uint; lia..|].
  exact (proj1 (Hku ltac:(lia) ltac:(lia))).
Defined.

(** ** Options *)

Lemma handle_option_None (long_max : Z) (o : getopt_ret) (c : config) :
  handle_option long_max o c = None <-> fatal_option long_max o.
Proof.
  unfold handle_option, fatal_option.
  destruct (opt o); cbn [takes_number];
    destruct (get_int_arg long_max (optarg o));
    intuition (discriminate || congruence).
Qed.

Lemma handle_option_effect (long_max : Z) (o : getopt_ret) (c c1 : config)
  (usage : bool) :
  handle_option long_max o c = Some (c1, usage) ->
  step_value long_max Opt_s u32 o
    (start_frequency_mhz c) (start_frequency_mhz c1)
  /\ step_value long_max Opt_e u32 o
       (stop_frequency_mhz c) (stop_frequency_mhz c1)
  /\ step_value long_max Opt_n u32 o
       (symbolrate_min_mhz c) (symbolrate_min_mhz c1)
  /\ step_value long_max Opt_x u32 o
       (symbolrate_max_mhz c) (symbolrate_max_mhz c1)
  /\ step_value long_max Opt_S (fun val => val) o (slot c) (slot c1)
  /\ step_value long_max Opt_I (fun val => val) o (i2c c) (i2c c1)
  /\ vertical c1 = vertical c || same_opt (opt o) Opt_V
  /\ cband c1 = cband c || same_opt (opt o) Opt_C
  /\ high c1 = high c || same_opt (opt o) Opt_H
  /\ usage = is_help (opt o).
Proof.
  unfold handle_option, step_value.
  destruct (opt o); cbn [same_opt is_help];
    destruct (get_int_arg long_max (optarg o)) as [val|];
    try discriminate; intros [= <- <-]; cbn;
    rewrite ?orb_false_r, ?orb_true_r; repeat split; reflexivity.
Qed.

Lemma last_value_cons (long_max : Z) (k : option_char) (convert : Z -> Z)
  (o : getopt_ret) (rest : list getopt_ret) (x y z : Z) :
  step_value long_max k convert o x y ->
  last_value long_max k convert rest y z ->
  last_value long_max k convert (o :: rest) x z.
Proof.
  unfold step_value, last_value. cbn [last_arg].
  destruct (last_arg k rest); [tauto|].
  destruct (same_opt (opt o) k); congruence.
Qed.

(** The variables after [handle_args], by the options it went
    through. *)
Lemma handle_args_effect (long_max : Z) (opts : list getopt_ret)
  (c c' : config) (n : nat) :
  handle_args long_max opts c = Some (c', n) ->
  last_value long_max Opt_s u32 opts
    (start_frequency_mhz c) (start_frequency_mhz c')
  /\ last_value long_max Opt_e u32 opts
       (stop_frequency_mhz c) (stop_frequency_mhz c')
  /\ last_value long_max Opt_n u32 opts
       (symbolrate_min_mhz c) (symbolrate_min_mhz c')
  /\ last_value long_max Opt_x u32 opts
       (symbolrate_max_mhz c) (symbolrate_max_mhz c')
  /\ last_value long_max Opt_S (fun val => val) opts (slot c) (slot c')
  /\ last_value long_max Opt_I (fun val => val) opts (i2c c) (i2c c')
  /\ vertical c' = vertical c || has_opt Opt_V opts
  /\ cband c' = cband c || has_opt Opt_C opts
  /\ high c' = high c || has_opt Opt_H opts
  /\ n = length (List.filter (fun o => is_help (opt o)) opts).
Proof.
  revert c c' n. induction opts as [|o rest IH]; intros c c' n.
  - cbn. intros [= <- <-]. unfold last_value. cbn.
    rewrite !orb_false_r. repeat split; reflexivity.
  - cbn [handle_args].
    destruct (handle_option long_max o c) as [[c1 usage]|] eqn:Ho;
      [|discriminate].
    destruct (handle_args long_max rest c1) as [[c2 n2]|] eqn:Hr;
      [|discriminate].
    intros [= <- <-].
    apply handle_option_effect in Ho
      as (Hs & He & Hn & Hx & HS & HI & HV & HC & HH & Hu).
    apply IH in Hr
      as (Hs' & He' & Hn' & Hx' & HS' & HI' & HV' & HC' & HH' & Hu').
    split; [eapply last_value_cons; eassumption|].
    split; [eapply last_value_cons; eassumption|].
    split; [eapply last_value_cons; eassumption|].
    split; [eapply last_value_cons; eassumption|].
    split; [eapply last_value_cons; eassumption|].
    split; [eapply last_value_cons; eassumption|].
    unfold has_opt. cbn [existsb List.filter].
    split; [rewrite HV', HV; now rewrite orb_assoc|].
    split; [rewrite HC', HC; now rewrite orb_assoc|].
    split; [rewrite HH', HH; now rewrite orb_assoc|].
    rewrite Hu, Hu'. now destruct (is_help (opt o)).
Qed.

(** X12: [handle_args] leaves through [exit(EXIT_FAILURE)] exactly when
    one of the options is not among those of the [switch], or takes a
    number and [get_int_arg] refuses its argument.  Nothing else is
    checked: no range of a value, no order of start and stop, no slot
    number makes it fail; and a help option does not end the run. *)
Theorem handle_args_fails_iff (long_max : Z) (opts : list getopt_ret)
  (c : config) :
  handle_args long_max opts c = None
  <-> List.Exists (fatal_option long_max) opts.
Proof.
  revert c. induction opts as [|o rest IH]; intros c; cbn [handle_args].
  - split; [discriminate | intros H; inversion H].
  - destruct (handle_option long_max o c) as [[c1 usage]|] eqn:Ho.
    + assert (Hok : ~ fatal_option long_max o).
      { intros Hf. apply (handle_option_None long_max o c) in Hf.
        congruence. }
      specialize (IH c1).
      destruct (handle_args long_max rest c1) as [[c2 n]|].
      * split; [discriminate|]. intros H. inversion H; subst; [tauto|].
        apply IH in H1. discriminate.
      * split; [|reflexivity]. intros _. constructor 2. now apply IH.
    + split; [|reflexivity]. intros _. constructor 1.
      now apply (handle_option_None long_max o c).
Qed.

(** X13: after [handle_args], each numeric variable holds the argument
    of the last occurrence of its option (reduced modulo 2^32 for the four
    scan limits, which are unsigned), or its previous value when the
    option does not occur; each of the three flags is set if it was set
    before or its option occurs, and no option clears it; the usage text
    is printed once for every help or unknown option, and the options
    before and after such an option take effect all the same. *)
Theorem handle_args_last_wins (long_max : Z) (opts : list getopt_ret)
  (c c' : config) (n : nat) :
  handle_args long_max opts c = Some (c', n) ->
  last_value long_max Opt_s u32 opts
    (start_frequency_mhz c) (start_frequency_mhz c')
  /\ last_value long_max Opt_e u32 opts
       (stop_frequency_mhz c) (stop_frequency_mhz c')
  /\ last_value long_max Opt_n u32 opts
       (symbolrate_min_mhz c) (symbolrate_min_mhz c')
  /\ last_value long_max Opt_x u32 opts
       (symbolrate_max_mhz c) (symbolrate_max_mhz c')
  /\ last_value long_max Opt_S (fun val => val) opts (slot c) (slot c')
  /\ last_value long_max Opt_I (fun val => val) opts (i2c c) (i2c c')
  /\ vertical c' = vertical c || has_opt Opt_V opts
  /\ cband c' = cband c || has_opt Opt_C opts
  /\ high c' = high c || has_opt Opt_H opts
  /\ n = length (List.filter (fun o => is_help (opt o)) opts).
Proof. apply handle_args_effect. Qed.

(** "-S 1 -h -C -S 2": the slot is 2, C-band is set, the usage text is
    printed once. *)
Lemma handle_args_last_wins_witness :
  exists c' n,
    handle_args 2147483647
      [ {| opt := Opt_S; optarg := "1" |}; {| opt := Opt_h; optarg := "" |};
        {| opt := Opt_C; optarg := "" |}; {| opt := Opt_S; optarg := "2" |} ]
      default_config = Some (c', n)
    /\ slot c' = 2 /\ cband c' = true /\ n = 1%nat.
Proof.
  pose (opts := [ {| opt := Opt_S; optarg := "1" |};
                  {| opt := Opt_h; optarg := "" |};
                  {| opt := Opt_C; optarg := "" |};
                  {| opt := Opt_S; optarg := "2" |} ]).
  assert (Hrun : exists c' n,
             handle_args 2147483647 opts default_config = Some (c', n))
    by (eexists _, _; reflexivity).
  destruct Hrun as (c' & n & Hrun). exists c', n.
  split; [exact Hrun|].
  destruct (handle_args_last_wins 2147483647 opts default_config c' n Hrun)
    as (_ & _ & _ & _ & HS & _ & _ & HC & _ & Hn).
  split; [|split; [exact HC | exact Hn] ].
  unfold last_value in HS. cbn in HS. now injection HS as <-.
Defined.

Lemma get_int_arg_int (long_max z : Z) :
  2147483647 <= long_max -> is_int z ->
  get_int_arg long_max (fmt_d z) = Some z.
Proof.
  intros Hlong Hz. unfold get_int_arg, strtol.
  rewrite <- (append_empty_r (fmt_d z)), (scan_int_fmt_d z EmptyString I).
  unfold is_int in Hz.
  destruct (Z.ltb_spec long_max z); [lia|].
  destruct (Z.ltb_spec z (- long_max - 1)); [lia|].
  cbn. now rewrite (s32_small z Hz).
Qed.

Lemma fmt_u_u32 (z : Z) : fmt_u (u32 z) = fmt_d (u32 z).
Proof.
  unfold fmt_u. f_equal. apply u32_small. apply u32_range.
Qed.

(** X14: the request written to the control file carries the four scan
    limits of the command line: with the arguments of the last -s, -e,
    -n and -x given as decimal [int]s, the message is "1" followed by
    those four numbers reduced modulo 2^32 (a negative argument is sent
    as a large positive number, not refused).  Without these options the
    message is "1 950 1950 2 45". *)
Theorem request_carries_arguments (long_max : Z) (opts : list getopt_ret)
  (cfg : config) (n : nat) :
  2147483647 <= long_max ->
  handle_args long_max opts default_config = Some (cfg, n) ->
  (forall a b c d,
     is_int a -> is_int b -> is_int c -> is_int d ->
     last_arg Opt_s opts = Some (fmt_d a) ->
     last_arg Opt_e opts = Some (fmt_d b) ->
     last_arg Opt_n opts = Some (fmt_d c) ->
     last_arg Opt_x opts = Some (fmt_d d) ->
     request_msg cfg = join_decimal [1; u32 a; u32 b; u32 c; u32 d])
  /\ (last_arg Opt_s opts = None -> last_arg Opt_e opts = None ->
      last_arg Opt_n opts = None -> last_arg Opt_x opts = None ->
      request_msg cfg = "1 950 1950 2 45"%string).
Proof.
  intros Hlong Hrun.
  apply handle_args_effect in Hrun as (Hs & He & Hn & Hx & _).
  unfold last_value in *. split.
  - intros a b c d Ha Hb Hc Hd Las Lae Lan Lax.
    rewrite Las, (get_int_arg_int long_max a Hlong Ha) in Hs.
    rewrite Lae, (get_int_arg_int long_max b Hlong Hb) in He.
    rewrite Lan, (get_int_arg_int long_max c Hlong Hc) in Hn.
    rewrite Lax, (get_int_arg_int long_max d Hlong Hd) in Hx.
    cbn [option_map] in *.
    injection Hs as Hs. injection He as He.
    injection Hn as Hn. injection Hx as Hx.
    unfold request_msg. rewrite <- Hs, <- He, <- Hn, <- Hx, !fmt_u_u32.
    reflexivity.
  - intros Las Lae Lan Lax. rewrite Las in Hs. rewrite Lae in He.
    rewrite Lan in Hn. rewrite Lax in Hx.
    unfold request_msg. rewrite Hs, He, Hn, Hx. reflexivity.
Qed.

(** "-s 10700 -e 11700 -n 1 -x 45 -s 10750". *)
Lemma request_carries_arguments_witness :
  exists cfg n,
    handle_args 2147483647
      [ {| opt := Opt_s; optarg := "10700" |};
        {| opt := Opt_e; optarg := "11700" |};
        {| opt := Opt_n; optarg := "1" |};
        {| opt := Opt_x; optarg := "45" |};
        {| opt := Opt_s; optarg := "10750" |} ]
      default_config = Some (cfg, n)
    /\ request_msg cfg = "1 10750 11700 1 45"%string.
Proof.
  pose (opts := [ {| opt := Opt_s; optarg := "10700" |};
                  {| opt := Opt_e; optarg := "11700" |};
                  {| opt := Opt_n; optarg := "1" |};
                  {| opt := Opt_x; optarg := "45" |};
                  {| opt := Opt_s; optarg := "10750" |} ]).
  assert (Hrun : exists cfg n,
             handle_args 2147483647 opts default_config = Some (cfg, n))
    by (eexists _, _; reflexivity).
  destruct Hrun as (cfg & n & Hrun). exists cfg, n.
  split; [exact Hrun|].
  destruct (request_carries_arguments 2147483647 opts cfg n ltac:(lia) Hrun)
    as [Hreq _].
  rewrite (Hreq 10750 11700 1 45); unfold is_int; try lia; reflexivity.
Defined.

(** ** The topology file *)

Lemma nim_lines_app `{hdr : headers} (a b : list string) (st : nim_state) :
  nim_lines (a ++ b) st
  = match nim_lines a st with
    | Defined st' => nim_lines b st'
    | Undefined => Undefined
    end.
Proof.
  revert st. induction a as [|x a IH]; intros st; [reflexivity|].
  cbn [app nim_lines]. destruct (nim_line x st); [apply IH | reflexivity].
Qed.

Lemma nim_line_unshaped `{hdr : headers} (line : string) (st : nim_state) :
  shaped line = false -> nim_line line st = Defined st.
Proof.
  unfold shaped, nim_line. intros H. apply orb_false_elim in H as [-> ->].
  reflexivity.
Qed.

Lemma nim_lines_filter `{hdr : headers} (lines : list string) (st : nim_state) :
  nim_lines (List.filter shaped lines) st = nim_lines lines st.
Proof.
  revert st. induction lines as [|x lines IH]; intros st; [reflexivity|].
  cbn [List.filter nim_lines]. destruct (shaped x) eqn:Hx.
  - cbn [nim_lines]. destruct (nim_line x st); [apply IH | reflexivity].
  - rewrite (nim_line_unshaped x st Hx). apply IH.
Qed.

(** X16: lines of the topology file that start with neither
    "NIM Socket" nor a tab and "Frontend_Device" (the type, name and I2C
    lines of a socket, empty lines) have no effect: the result is that of
    the file without them, wherever they stand. *)
Theorem nim_sockets_ignores_other_lines `{hdr : headers} (cfg : config)
  (lines : list string) :
  nim_sockets cfg (Some (List.filter shaped lines))
  = nim_sockets cfg (Some lines)
  /\ (forall before line after,
        shaped line = false ->
        nim_sockets cfg (Some (before ++ line :: after))
        = nim_sockets cfg (Some (before ++ after))).
Proof.
  split.
  - unfold nim_sockets. now rewrite nim_lines_filter.
  - intros before line after Hline. unfold nim_sockets.
    rewrite !nim_lines_app. destruct (nim_lines before nim_init) as [st|];
      [|reflexivity].
    cbn [nim_lines]. now rewrite (nim_line_unshaped line st Hline).
Qed.

Lemma c_str_no_nul (s : string) : count_char NUL s = O -> c_str s = s.
Proof.
  induction s as [|c s IH]; [reflexivity|]. cbn [count_char c_str].
  destruct (Ascii.eqb_spec c NUL) as [->|Hne]; [discriminate|].
  intros H. rewrite (IH H).
  destruct (N.eqb_spec (N_of_ascii c) 0) as [Hz|_]; [|reflexivity].
  exfalso. apply Hne. rewrite <- (ascii_N_embedding c), Hz. reflexivity.
Qed.

Lemma count_nul_fmt_d (z : Z) : count_char NUL (fmt_d z) = O.
Proof. apply count_char_fmt_d; [reflexivity | discriminate]. Qed.

Lemma c_str_socket_line (k : Z) : c_str (socket_line k) = socket_line k.
Proof.
  apply c_str_no_nul. unfold socket_line.
  now rewrite !count_char_app, count_nul_fmt_d.
Qed.

Lemma c_str_device_line (m : Z) : c_str (device_line m) = device_line m.
Proof.
  apply c_str_no_nul. unfold device_line.
  now rewrite !count_char_app, count_nul_fmt_d.
Qed.

Lemma skip_space_idem (s : string) : skip_space (skip_space s) = skip_space s.
Proof.
  induction s as [|c s IH]; [reflexivity|]. cbn [skip_space].
  destruct (isspace c) eqn:Hc; [exact IH|]. cbn [skip_space].
  now rewrite Hc.
Qed.

Lemma scan_int_skip_space (s : string) : scan_int (skip_space s) = scan_int s.
Proof. unfold scan_int. now rewrite skip_space_idem. Qed.

Lemma sscanf_socket_line `{hdr : headers} (k : Z) :
  is_int k -> sscanf LONG_MAX (socket_line k) "NIM Socket %d" = [k].
Proof.
  intros Hk.
  change (sscanf LONG_MAX (socket_line k) "NIM Socket %d")
    with (scan_directives LONG_MAX [DInt]
            (skip_space (String " " (fmt_d k ++ ":" ++ NL)))).
  cbn [scan_directives]. rewrite scan_int_skip_space, scan_int_space.
  rewrite (scan_int_fmt_d k (":" ++ NL) eq_refl).
  now rewrite (store_d_small _ _ LONG_MAX_wide Hk).
Qed.

Lemma sscanf_device_line `{hdr : headers} (m : Z) :
  is_int m ->
  sscanf LONG_MAX (device_line m) (TAB ++ "Frontend_Device: %d") = [m].
Proof.
  intros Hm.
  change (sscanf LONG_MAX (device_line m) (TAB ++ "Frontend_Device: %d"))
    with (scan_directives LONG_MAX [DInt]
            (skip_space (String " " (fmt_d m ++ NL)))).
  cbn [scan_directives]. rewrite scan_int_skip_space, scan_int_space.
  rewrite (scan_int_fmt_d m NL eq_refl).
  now rewrite (store_d_small _ _ LONG_MAX_wide Hm).
Qed.

Lemma nim_line_socket `{hdr : headers} (k : Z) (st : nim_state) :
  0 <= k < 4 ->
  nim_line (socket_line k) st = Defined {| ids := ids st; id := Some k |}.
Proof.
  intros Hk. unfold nim_line. rewrite c_str_socket_line.
  change (starts_with "NIM Socket" (socket_line k)) with true. cbv iota.
  rewrite sscanf_socket_line by (unfold is_int; lia).
  destruct (Z.leb_spec 0 k); [|lia]. destruct (Z.leb_spec k 4); [|lia].
  reflexivity.
Qed.

Lemma nim_line_device `{hdr : headers} (m k : Z) (st : nim_state) :
  is_int m -> id st = Some k -> 0 <= k < 4 ->
  nim_line (device_line m) st
  = Defined {| ids := <[Z.to_nat k := m]> (ids st); id := Some k |}.
Proof.
  intros Hm Hid Hk. unfold nim_line. rewrite c_str_device_line.
  change (starts_with "NIM Socket" (device_line m)) with false.
  change (starts_with (TAB ++ "Frontend_Device") (device_line m)) with true.
  cbv iota. rewrite sscanf_device_line by exact Hm. rewrite Hid.
  destruct (Z.ltb_spec k 4); [reflexivity | lia].
Qed.

Lemma nim_lines_other `{hdr : headers} (info : list string) (st : nim_state) :
  Forall other_line info -> nim_lines info st = Defined st.
Proof.
  induction 1 as [|x info [Hs Hd] _ IH]; [reflexivity|].
  cbn [nim_lines]. rewrite nim_line_unshaped; [exact IH|].
  unfold shaped. now rewrite Hs, Hd.
Qed.

(** C1, the code departs from the claim: in the topology where socket 0
    has no device line and socket 2 has frontend device 1, the table built
    from the file is [-1; -1; 1; -1], but the closing loop compares the
    table entries, not their positions, with the requested slot.  Slot 2
    resolves to absent (the claim: 1), slot 1, which has no socket, to 1.
    Whatever the file holds, the result is the slot number or absent.  A
    missing file gives absent, as does slot 0 here. *)
Theorem nim_sockets_compares_entries `{hdr : headers} :
  nim_lines two_socket_topology nim_init
  = Defined {| ids := [-1; -1; 1; -1]; id := Some 2 |}
  /\ nim_sockets (with_slot 0) (Some two_socket_topology) = Defined (-1)
  /\ nim_sockets (with_slot 2) (Some two_socket_topology) = Defined (-1)
  /\ nim_sockets (with_slot 1) (Some two_socket_topology) = Defined 1
  /\ (forall cfg, nim_sockets cfg None = Defined (-1))
  /\ (forall cfg topology r,
        nim_sockets cfg topology = Defined r -> r = slot cfg \/ r = -1).
Proof.
  assert (Hrun : nim_lines two_socket_topology nim_init
                 = Defined {| ids := [-1; -1; 1; -1]; id := Some 2 |}).
  { change two_socket_topology
      with [ socket_line 0; (TAB ++ "Type: DVB-S2" ++ NL)%string;
             socket_line 2; (TAB ++ "Type: DVB-S2" ++ NL)%string;
             device_line 1 ].
    cbn [nim_lines].
    rewrite (nim_line_socket 0) by lia.
    rewrite nim_line_unshaped by reflexivity.
    rewrite (nim_line_socket 2) by lia.
    rewrite nim_line_unshaped by reflexivity.
    rewrite (nim_line_device 1 2) by (try reflexivity; unfold is_int; lia).
    reflexivity. }
  split; [exact Hrun|].
  split; [unfold nim_sockets; now rewrite Hrun|].
  split; [unfold nim_sockets; now rewrite Hrun|].
  split; [unfold nim_sockets; now rewrite Hrun|].
  split; [reflexivity|].
  intros cfg [lines|] r; cbn; [|intros [= <-]; now right].
  destruct (nim_lines lines nim_init) as [st|]; [|discriminate].
  intros [= <-].
  destruct (nim_select_result (ids st) (slot cfg) (-1)) as [[-> _]|[-> _]];
    [now left | now right].
Qed.

(** The lines of one socket: the pointer moves to its element and its
    device, if any, is stored there. *)
Lemma nim_lines_socket `{hdr : headers} (b : socket) (st : nim_state) :
  0 <= socket_index b < 4 ->
  Forall other_line (socket_info b) ->
  match socket_device b with Some m => is_int m | None => True end ->
  nim_lines (render_socket b) st
  = Defined {| ids := apply_socket (ids st) b;
               id := Some (socket_index b) |}.
Proof.
  intros Hk Hinfo Hdev. unfold render_socket, apply_socket.
  cbn [nim_lines]. rewrite (nim_line_socket _ st Hk).
  rewrite nim_lines_app, (nim_lines_other _ _ Hinfo).
  destruct (socket_device b) as [m|]; [|reflexivity].
  cbn [nim_lines]. now rewrite (nim_line_device m (socket_index b)).
Qed.

Lemma nim_lines_topology `{hdr : headers} (bs : list socket) (st : nim_state) :
  Forall (fun b => 0 <= socket_index b < 4
                   /\ Forall other_line (socket_info b)
                   /\ match socket_device b with
                      | Some m => is_int m
                      | None => True
                      end) bs ->
  exists p,
    nim_lines (render_topology bs) st
    = Defined {| ids := fold_left apply_socket bs (ids st); id := p |}.
Proof.
  intros Hbs. revert st.
  induction Hbs as [|b bs (Hk & Hinfo & Hdev) _ IH]; intros st.
  - exists (id st). now destruct st.
  - unfold render_topology. cbn [List.flat_map].
    rewrite nim_lines_app, (nim_lines_socket b st Hk Hinfo Hdev).
    apply IH.
Qed.

(** Every entry of the table was there before or is a device of the
    file. *)
Lemma fold_apply_socket_entries (bs : list socket) (table : list Z)
  (x : Z) :
  In x (fold_left apply_socket bs table) ->
  In x table \/ In x (devices bs).
Proof.
  revert table. induction bs as [|b bs IH]; intros table; cbn [fold_left].
  - now left.
  - intros Hin. apply IH in Hin as [Hin|Hin].
    + unfold devices, apply_socket in *. cbn [List.flat_map].
      destruct (socket_device b) as [m|]; [|now left].
      apply list_elem_of_In, list_elem_of_lookup in Hin as [j Hj].
      apply list_lookup_insert_Some in Hj as [(_ & <- & _)|(_ & Hj)].
      * right. now left.
      * left. apply list_elem_of_In, list_elem_of_lookup. now exists j.
    + right. unfold devices in *. cbn [List.flat_map].
      apply in_app_iff. now right.
Qed.

(** A socket that does not occur in the rest of the file keeps its
    entry. *)
Lemma fold_apply_socket_keeps (bs : list socket) (table : list Z) (k : Z) :
  0 <= k ->
  Forall (fun b => 0 <= socket_index b) bs ->
  ~ In k (map socket_index bs) ->
  fold_left apply_socket bs table !! Z.to_nat k = table !! Z.to_nat k.
Proof.
  intros Hk Hbs. revert table.
  induction Hbs as [|b bs Hb _ IH]; intros table Hnot; [reflexivity|].
  cbn [fold_left]. rewrite IH by (intros Hin; apply Hnot; now right).
  unfold apply_socket. destruct (socket_device b) as [m|]; [|reflexivity].
  apply list_lookup_insert_ne. intros Heq. apply Hnot. left.
  apply Z2Nat.inj in Heq; [exact Heq | exact Hb | exact Hk].
Qed.

(** With each socket listed once, every device of the file is in the
    table. *)
Lemma fold_apply_socket_devices (bs : list socket) (table : list Z)
  (m : Z) :
  length table = 4%nat ->
  NoDup (map socket_index bs) ->
  Forall (fun b => 0 <= socket_index b < 4) bs ->
  In m (devices bs) ->
  In m (fold_left apply_socket bs table).
Proof.
  intros Hlen Hnd Hbs. revert table Hlen Hnd.
  induction Hbs as [|b bs Hb Hrest IH]; intros table Hlen Hnd; [intros [] |].
  cbn [map] in Hnd. apply NoDup_cons in Hnd as [Hnot Hnd].
  assert (Hlen' : length (apply_socket table b) = 4%nat).
  { unfold apply_socket. destruct (socket_device b); [|exact Hlen].
    now rewrite length_insert. }
  unfold devices. cbn [List.flat_map fold_left]. intros Hin.
  apply in_app_iff in Hin as [Hin|Hin]; [|now apply IH].
  destruct (socket_device b) as [m'|] eqn:Hdev; [|destruct Hin].
  destruct Hin as [->|[] ].
  apply list_elem_of_In, list_elem_of_lookup.
  exists (Z.to_nat (socket_index b)).
  rewrite fold_apply_socket_keeps.
  - unfold apply_socket. rewrite Hdev.
    apply list_lookup_insert_eq. lia.
  - lia.
  - eapply Forall_impl; [exact Hrest|]. cbn. intros; lia.
  - intros Hin. apply Hnot. now apply list_elem_of_In.
Qed.

(** The closing loop on the table of a file with each socket listed
    once: the slot number when a socket lists it as its device. *)
Lemma nim_select_table (bs : list socket) (s : Z) :
  NoDup (map socket_index bs) ->
  Forall (fun b => 0 <= socket_index b < 4) bs ->
  nim_select (fold_left apply_socket bs (ids nim_init)) s (- 1)
  = if existsb (Z.eqb s) (devices bs) then s else - 1.
Proof.
  intros Hnd Hrange.
  set (table := fold_left apply_socket bs (ids nim_init)).
  destruct (existsb (Z.eqb s) (devices bs)) eqn:Hex.
  - apply existsb_exists in Hex as (m & Hin & Heq).
    apply Z.eqb_eq in Heq. subst m.
    apply (fold_apply_socket_devices bs (ids nim_init)) in Hin;
      [|reflexivity | exact Hnd | exact Hrange].
    fold table in Hin.
    destruct (nim_select_result table s (- 1))
      as [[-> _]|[_ Hnot] ]; [reflexivity | now destruct Hnot].
  - destruct (nim_select_result table s (- 1))
      as [[-> Hin]|[-> _] ]; [|reflexivity].
    apply fold_apply_socket_entries in Hin as [Hin|Hin].
    + cbn in Hin. intuition congruence.
    + exfalso. assert (Ht : existsb (Z.eqb s) (devices bs) = true).
      { apply existsb_exists. exists s.
        split; [exact Hin | apply Z.eqb_refl]. }
      congruence.
Qed.

(** X17: for a topology file as the driver writes it (a header per
    socket with an index from 0 to 3, each index once, other lines, and at
    most one device line per socket), the resolver has a defined result:
    the requested slot number when some socket lists a frontend device
    with that number, and -1 otherwise. *)
Theorem nim_sockets_conforming `{hdr : headers} (cfg : config)
  (bs : list socket) :
  conforming bs ->
  nim_sockets cfg (Some (render_topology bs))
  = Defined (if existsb (Z.eqb (slot cfg)) (devices bs)
             then slot cfg else - 1).
Proof.
  intros [Hnd Hbs]. unfold nim_sockets.
  destruct (nim_lines_topology bs nim_init Hbs) as [p ->]. cbn [ids].
  f_equal. apply nim_select_table; [exact Hnd|].
  eapply Forall_impl; [exact Hbs|]. cbn. tauto.
Qed.

(** Sockets 0 and 1 with frontends 0 and 1, asked for slot 1. *)
Lemma nim_sockets_conforming_witness :
  @nim_sockets linux_headers (with_slot 1)
    (Some (render_topology
             [ {| socket_index := 0;
                  socket_info := [(TAB ++ "Type: DVB-S2" ++ NL)%string];
                  socket_device := Some 0 |};
               {| socket_index := 1;
                  socket_info := [(TAB ++ "Type: DVB-S2" ++ NL)%string];
                  socket_device := Some 1 |} ]))
  = Defined 1.
Proof.
  refine (@nim_sockets_conforming linux_headers (with_slot 1) _ _).
  split.
  - apply (bool_decide_unpack _). vm_compute. exact I.
  - repeat (constructor;
            [split; [cbn; lia|];
             split; [repeat constructor | unfold is_int; cbn; lia] |]).
    constructor.
Defined.

(** ** [main] *)


